(** * HermesClient: the SSE connection manager and its event bus

    A shallow embedding of [hermes-client.js] (class [HermesClient]):
    the constructor, [on] / [off] / [emit], [connectSSE] with its three
    transport handlers, [disconnectSSE] and [getStatus].

    What the JavaScript runtime supplies is made explicit:
    - the [EventSource] objects the client creates live in a heap
      ([sources]); [this.eventSource] is a reference into it;
    - [setTimeout] appends to a timer queue ([timers]);
    - application callbacks are identified by a [cbid]; what a callback does
      when it is called is given by a table ([Listeners]) whose entries are
      small programs over the client's public methods, so that a callback
      can subscribe, unsubscribe, throw, or call back into
      [connectSSE] / [disconnectSSE];
    - [JSON.parse] is a parameter.

    Two ghost traces record what is observable from outside: [emitted]
    (every call of [emit]) and [invoked] (every call of a callback).

    Numbers are integers, printed as JavaScript prints the safe integers;
    [this.log] keeps its first argument, the message, and drops the values
    logged with it; event names are plain map keys (names that collide with
    members of [Object.prototype] are not considered). The request/response
    methods ([sendNotification], [getNotifications], ...) do not touch the
    connection state; they are modelled on their own, after the
    connection, with [fetch] as a parameter. *)

From stdpp Require Import gmap strings pretty list fin_maps.
From Stdlib Require Import ZArith Lia.

Set Warnings "-register-all".

(** ** JavaScript values and exceptions *)

Inductive JsValue : Type :=
| JUndefined
| JNull
| JBool (b : bool)
| JNum (n : Z)
| JStr (s : string)
| JArr (items : list JsValue)
| JObj (fields : list (string * JsValue)).

Inductive JsError : Type :=
| Error (message : string)      (* new Error(message) *)
| SyntaxError                   (* raised by JSON.parse *)
| TypeError                     (* property read on null / undefined *)
| Thrown (v : JsValue).         (* anything an application callback throws *)

Inductive Completion : Type :=
| Normal
| Throw (e : JsError).

(** Own-property lookup in an object literal, first binding of the key. *)
Fixpoint assoc (k : string) (fields : list (string * JsValue)) : option JsValue :=
  match fields with
  | [] => None
  | (k', v) :: rest => if String.eqb k k' then Some v else assoc k rest
  end.

(** [data.k] for the two property names the client reads ([type], [count]),
    neither of which exists on a prototype: reading from [null] or
    [undefined] raises a TypeError ([None]), an object yields its own
    property or [undefined], every other value yields [undefined]. *)
Definition get_prop (data : JsValue) (k : string) : option JsValue :=
  match data with
  | JUndefined | JNull => None
  | JObj fields => Some (default JUndefined (assoc k fields))
  | _ => Some JUndefined
  end.

(** [v === s] for a string literal [s]. *)
Definition strict_eq_str (v : JsValue) (s : string) : bool :=
  match v with
  | JStr s' => String.eqb s' s
  | _ => false
  end.

(** Truthiness of a string-or-null field: [null], [undefined] and the empty
    string are falsy. *)
Definition truthy_str (o : option string) : option string :=
  match o with
  | Some s => if String.eqb s EmptyString then None else Some s
  | None => None
  end.

(** [x || d] on an optional number: [undefined] and [0] are falsy. *)
Definition or_num (x : option Z) (d : Z) : Z :=
  match x with
  | Some n => if Z.eqb n 0 then d else n
  | None => d
  end.

(** [x || d] on an optional string. *)
Definition or_str (x : option string) (d : string) : string :=
  default d (truthy_str x).

(** [String(n)] for an integer [n], as a template literal or
    [n.toString()] gives it: the decimal digits, with a minus sign for a
    negative number. This is what JavaScript prints for the safe integers
    ([Number.isSafeInteger]); beyond them a number is rounded to its binary
    representation and, from 1e21 on, printed with an exponent, which is
    outside the model. *)
Definition number_text (n : Z) : string := pretty n.

(** [Number.isSafeInteger(n)]. *)
Definition safe_integer (n : Z) : Prop := (Z.abs n ≤ 9007199254740991)%Z.

(** ** Data model *)

Definition cbid := nat.

(** The [config] object handed to the constructor; [None] is an absent
    property. *)
Record Config : Type := {
  cfg_baseUrl : option string;
  cfg_appToken : option string;
  cfg_profileToken : option string;
  cfg_userId : option string;
  cfg_timeout : option Z;
  cfg_debug : option bool;
  cfg_sseEnabled : option bool;
  cfg_reconnectDelay : option Z;
  cfg_maxReconnectAttempts : option Z
}.

(** The fields of [this]. *)
Record HermesClient : Type := {
  baseUrl : string;
  appToken : option string;
  profileToken : option string;
  userId : option string;
  timeout : Z;
  debug : bool;
  sseEnabled : bool;
  reconnectDelay : Z;
  maxReconnectAttempts : Z;
  eventSource : option nat;
  reconnectAttempts : Z;
  isConnected : bool;
  listeners : gmap string (list cbid)
}.

(** An [EventSource] object: its URL, the [userId] its handlers close over,
    and whether [close()] was called on it. *)
Record EventSourceObj : Type := {
  es_url : string;
  es_userId : string;
  es_closed : bool
}.

(** A timer created by [setTimeout(() => this.connectSSE(userId), delay)]. *)
Record Timer : Type := {
  tm_userId : string;
  tm_delay : Z;
  tm_fired : bool
}.

(** The runtime around the client. *)
Record World : Type := {
  sources : list EventSourceObj;
  timers : list Timer;
  emitted : list (string * JsValue);
  invoked : list (cbid * string * JsValue);
  console : list string
}.

Record State : Type := {
  hc : HermesClient;
  env : World
}.

(** What a callback body can do. *)
Inductive ApiCall : Type :=
| CallConnect (arg : option string)
| CallDisconnect.

Inductive Action : Type :=
| ActOn (event : string) (cb : cbid)
| ActOff (event : string) (cb : cbid)
| ActThrow (e : JsError)
| ActCall (c : ApiCall).

(** The result of running a method: [None] when the nesting depth of
    re-entrant calls exceeds the budget, otherwise how it completed and the
    state it left. *)
Definition Outcome : Type := option (Completion * State).

(** The application's callbacks: what callback [cb] does when a publish of
    [event] calls it with a payload in a given state. The state includes
    the traces, so a callback may behave differently from one call to the
    next; the event is an argument so that one table describes the
    callbacks of every event. *)
Definition Listeners : Type := cbid → string → JsValue → State → list Action.

(** ** Field updates *)

Definition set_eventSource (v : option nat) (c : HermesClient) : HermesClient :=
  {| baseUrl := baseUrl c; appToken := appToken c; profileToken := profileToken c;
     userId := userId c; timeout := timeout c; debug := debug c;
     sseEnabled := sseEnabled c; reconnectDelay := reconnectDelay c;
     maxReconnectAttempts := maxReconnectAttempts c;
     eventSource := v; reconnectAttempts := reconnectAttempts c;
     isConnected := isConnected c; listeners := listeners c |}.

Definition set_reconnectAttempts (v : Z) (c : HermesClient) : HermesClient :=
  {| baseUrl := baseUrl c; appToken := appToken c; profileToken := profileToken c;
     userId := userId c; timeout := timeout c; debug := debug c;
     sseEnabled := sseEnabled c; reconnectDelay := reconnectDelay c;
     maxReconnectAttempts := maxReconnectAttempts c;
     eventSource := eventSource c; reconnectAttempts := v;
     isConnected := isConnected c; listeners := listeners c |}.

Definition set_isConnected (v : bool) (c : HermesClient) : HermesClient :=
  {| baseUrl := baseUrl c; appToken := appToken c; profileToken := profileToken c;
     userId := userId c; timeout := timeout c; debug := debug c;
     sseEnabled := sseEnabled c; reconnectDelay := reconnectDelay c;
     maxReconnectAttempts := maxReconnectAttempts c;
     eventSource := eventSource c; reconnectAttempts := reconnectAttempts c;
     isConnected := v; listeners := listeners c |}.

Definition set_listeners (v : gmap string (list cbid)) (c : HermesClient) : HermesClient :=
  {| baseUrl := baseUrl c; appToken := appToken c; profileToken := profileToken c;
     userId := userId c; timeout := timeout c; debug := debug c;
     sseEnabled := sseEnabled c; reconnectDelay := reconnectDelay c;
     maxReconnectAttempts := maxReconnectAttempts c;
     eventSource := eventSource c; reconnectAttempts := reconnectAttempts c;
     isConnected := isConnected c; listeners := v |}.

Definition set_sources (v : list EventSourceObj) (w : World) : World :=
  {| sources := v; timers := timers w; emitted := emitted w;
     invoked := invoked w; console := console w |}.

Definition set_timers (v : list Timer) (w : World) : World :=
  {| sources := sources w; timers := v; emitted := emitted w;
     invoked := invoked w; console := console w |}.

Definition set_emitted (v : list (string * JsValue)) (w : World) : World :=
  {| sources := sources w; timers := timers w; emitted := v;
     invoked := invoked w; console := console w |}.

Definition set_invoked (v : list (cbid * string * JsValue)) (w : World) : World :=
  {| sources := sources w; timers := timers w; emitted := emitted w;
     invoked := v; console := console w |}.

Definition set_console (v : list string) (w : World) : World :=
  {| sources := sources w; timers := timers w; emitted := emitted w;
     invoked := invoked w; console := v |}.

Definition on_hc (f : HermesClient → HermesClient) (st : State) : State :=
  {| hc := f (hc st); env := env st |}.

Definition on_env (f : World → World) (st : State) : State :=
  {| hc := hc st; env := f (env st) |}.

(** ** Runtime primitives *)

(** [this.log(msg, ...)]: writes to the console when [debug] is set. Only
    the message text is kept. *)
Definition log (msg : string) (st : State) : State :=
  if debug (hc st)
  then on_env (fun w => set_console (console w ++ [msg]) w) st
  else st.

(** [new EventSource(url)]; the new object's index is the old length of the
    heap. *)
Definition new_EventSource (url uid : string) (st : State) : State :=
  on_env (fun w => set_sources
    (sources w ++ [{| es_url := url; es_userId := uid; es_closed := false |}]) w) st.

Definition close_obj (s : EventSourceObj) : EventSourceObj :=
  {| es_url := es_url s; es_userId := es_userId s; es_closed := true |}.

(** [source.close()]. *)
Definition close_source (h : nat) (st : State) : State :=
  on_env (fun w => set_sources (alter close_obj h (sources w)) w) st.

(** [setTimeout(() => this.connectSSE(uid), delay)]. *)
Definition setTimeout (uid : string) (delay : Z) (st : State) : State :=
  on_env (fun w => set_timers
    (timers w ++ [{| tm_userId := uid; tm_delay := delay; tm_fired := false |}]) w) st.

Definition fire_obj (t : Timer) : Timer :=
  {| tm_userId := tm_userId t; tm_delay := tm_delay t; tm_fired := true |}.

Definition mark_fired (i : nat) (st : State) : State :=
  on_env (fun w => set_timers (alter fire_obj i (timers w)) w) st.

(** Ghost: record a call of [emit]. *)
Definition record_emit (event : string) (data : JsValue) (st : State) : State :=
  on_env (fun w => set_emitted (emitted w ++ [(event, data)]) w) st.

(** Ghost: record a call of a callback. *)
Definition record_invoke (cb : cbid) (event : string) (data : JsValue) (st : State) : State :=
  on_env (fun w => set_invoked (invoked w ++ [(cb, event, data)]) w) st.

(** A transport handle that can still deliver signals. *)
Definition live_source (h : nat) (st : State) : option EventSourceObj :=
  match sources (env st) !! h with
  | Some s => if es_closed s then None else Some s
  | None => None
  end.

Definition pending_timer (i : nat) (st : State) : option Timer :=
  match timers (env st) !! i with
  | Some t => if tm_fired t then None else Some t
  | None => None
  end.

(** ** The constructor *)

Definition construct (config : Config) : State :=
  let this :=
    {| baseUrl := or_str (cfg_baseUrl config) "http://localhost:8000";
       appToken := truthy_str (cfg_appToken config);
       profileToken := truthy_str (cfg_profileToken config);
       userId := truthy_str (cfg_userId config);
       timeout := or_num (cfg_timeout config) 30000;
       debug := default false (cfg_debug config);
       sseEnabled := match cfg_sseEnabled config with Some false => false | _ => true end;
       reconnectDelay := or_num (cfg_reconnectDelay config) 5000;
       maxReconnectAttempts := or_num (cfg_maxReconnectAttempts config) 10;
       eventSource := None;
       reconnectAttempts := 0;
       isConnected := false;
       listeners := list_to_map
         [("notification", []); ("connected", []); ("disconnected", []);
          ("error", []); ("unreadCount", [])] |} in
  log "HermesClient initialized"
    {| hc := this;
       env := {| sources := []; timers := []; emitted := []; invoked := [];
                 console := [] |} |}.

(** ** Event listener management *)

(** [Array.prototype.indexOf]. *)
Fixpoint indexOf (cb : cbid) (l : list cbid) : option nat :=
  match l with
  | [] => None
  | x :: rest => if Nat.eqb x cb then Some 0 else S <$> indexOf cb rest
  end.

(** [l.splice(i, 1)]. *)
Definition splice1 (i : nat) (l : list cbid) : list cbid :=
  take i l ++ drop (S i) l.

(** [this.listeners[event]] is a lookup among the keys the object has of
    its own. For an event name that is a member of [Object.prototype]
    ([constructor], [toString], ...) JavaScript finds the inherited member
    instead, and [on], [off] and [emit] raise a TypeError when they treat it
    as an array; such names, which the declared [EventType] excludes, are
    outside the model. *)
Definition on (event : string) (cb : cbid) (st : State) : State :=
  let l := default [] (listeners (hc st) !! event) in
  log ("Listener added for event: " +:+ event)
    (on_hc (set_listeners (<[event := l ++ [cb]]> (listeners (hc st)))) st).

Definition off (event : string) (cb : cbid) (st : State) : State :=
  match listeners (hc st) !! event with
  | None => st
  | Some l =>
    match indexOf cb l with
    | Some index =>
      log ("Listener removed for event: " +:+ event)
        (on_hc (set_listeners (<[event := splice1 index l]> (listeners (hc st)))) st)
    | None => st
    end
  end.

(** [getStatus()]. *)
Record Status : Type := {
  st_isConnected : bool;
  st_reconnectAttempts : Z;
  st_hasEventSource : bool
}.

Definition getStatus (st : State) : Status :=
  {| st_isConnected := isConnected (hc st);
     st_reconnectAttempts := reconnectAttempts (hc st);
     st_hasEventSource := bool_decide (is_Some (eventSource (hc st))) |}.

(** The default parameter of [connectSSE(userId = this.userId)]: a call
    without argument ([None]) takes the configured identifier. *)
Definition resolve_userId (arg : option string) (st : State) : option string :=
  match arg with Some u => Some u | None => userId (hc st) end.

(** ** The methods

    [reenter] stands for the client's own public methods as a callback
    reaches them; the knot is tied by [api] below. *)

Section Methods.

Variable JSON_parse : string → option JsValue.
Variable listener : Listeners.

Section Body.

Variable reenter : ApiCall → State → Outcome.

(** Sequencing: the rest runs only after a normal completion. *)
Definition andThen (r : Outcome) (k : State → Outcome) : Outcome :=
  match r with
  | Some (Normal, st) => k st
  | other => other
  end.

(** [try { body } catch (error) { handler }]. *)
Definition tryCatch (r : Outcome) (handler : JsError → State → Outcome) : Outcome :=
  match r with
  | Some (Throw e, st) => handler e st
  | other => other
  end.

Definition run_action (a : Action) (st : State) : Outcome :=
  match a with
  | ActOn event cb => Some (Normal, on event cb st)
  | ActOff event cb => Some (Normal, off event cb st)
  | ActThrow e => Some (Throw e, st)
  | ActCall c => reenter c st
  end.

Fixpoint run_actions (body : list Action) (st : State) : Outcome :=
  match body with
  | [] => Some (Normal, st)
  | a :: rest => andThen (run_action a st) (run_actions rest)
  end.

(** [callback(data)]. *)
Definition call_listener (cb : cbid) (event : string) (data : JsValue)
    (st : State) : Outcome :=
  run_actions (listener cb event data st) (record_invoke cb event data st).

(** The function handed to [forEach] in [emit]:
    [try { callback(data) } catch (error) { this.log(...) }]. *)
Definition guarded_call (cb : cbid) (event : string) (data : JsValue)
    (st : State) : Outcome :=
  tryCatch (call_listener cb event data st)
    (fun _ st' => Some (Normal, log ("Error in " +:+ event +:+ " listener") st')).

(** [this.listeners[event].forEach(f)]: [Array.prototype.forEach] reads
    the length once, then visits the indices [k], [k+1], ... below it,
    reading each element from the array as it is at that moment and
    skipping an index that is no longer present. The array of an event
    is created once ([on] never replaces an existing one) and [push] and
    [splice] change it in place, so the array as it is at that moment is
    [listeners !! event] of the current state. *)
Fixpoint forEach (n k : nat) (event : string) (data : JsValue)
    (st : State) : Outcome :=
  match n with
  | O => Some (Normal, st)
  | S n' =>
    match default [] (listeners (hc st) !! event) !! k with
    | Some cb =>
      andThen (guarded_call cb event data st) (forEach n' (S k) event data)
    | None => forEach n' (S k) event data st
    end
  end.

Definition emit (event : string) (data : JsValue) (st : State) : Outcome :=
  let st := record_emit event data st in
  match listeners (hc st) !! event with
  | None => Some (Normal, st)
  | Some l => forEach (length l) 0 event data st
  end.

Definition disconnectSSE (st : State) : Outcome :=
  match eventSource (hc st) with
  | Some h =>
    let st := log "Disconnecting SSE" st in
    let st := close_source h st in
    let st := on_hc (set_eventSource None) st in
    let st := on_hc (set_isConnected false) st in
    emit "disconnected" (JObj [("reason", JStr "manual")]) st
  | None => Some (Normal, st)
  end.

(** [this.eventSource.onopen], closing over [userId]. *)
Definition onopen (uid : string) (st : State) : Outcome :=
  let st := log "SSE connection opened" st in
  let st := on_hc (set_isConnected true) st in
  let st := on_hc (set_reconnectAttempts 0) st in
  emit "connected" (JObj [("userId", JStr uid)]) st.

(** [this.eventSource.onmessage]. *)
Definition onmessage (text : string) (st : State) : Outcome :=
  tryCatch
    (match JSON_parse text with
     | None => Some (Throw SyntaxError, st)
     | Some data =>
       let st := log "SSE message received" st in
       match get_prop data "type" with
       | None => Some (Throw TypeError, st)
       | Some ty =>
         if strict_eq_str ty "notification" then
           emit "notification" data st
         else if strict_eq_str ty "unread_count" then
           emit "unreadCount" (default JUndefined (get_prop data "count")) st
         else if strict_eq_str ty "connected" then
           emit "connected" data st
         else Some (Normal, st)
       end
     end)
    (fun _ st' => Some (Normal, log "Error parsing SSE message" st')).

(** [this.eventSource.onerror], closing over [userId]. *)
Definition onerror (uid : string) (error : JsValue) (st : State) : Outcome :=
  let st := log "SSE error" st in
  let st := on_hc (set_isConnected false) st in
  andThen (emit "error" error st) (fun st =>
  andThen (emit "disconnected" (JObj [("reason", JStr "error")]) st) (fun st =>
  if (reconnectAttempts (hc st) <? maxReconnectAttempts (hc st))%Z then
    let st := on_hc (set_reconnectAttempts (reconnectAttempts (hc st) + 1)) st in
    let st := log ("Reconnecting in " +:+ number_text (reconnectDelay (hc st)) +:+
                   "ms (attempt " +:+ number_text (reconnectAttempts (hc st)) +:+ ")") st in
    Some (Normal, setTimeout uid (reconnectDelay (hc st)) st)
  else
    Some (Normal, log "Max reconnect attempts reached" st))).

(** [connectSSE(userId = this.userId)]. The handlers installed on the new
    [EventSource] are [onopen], [onmessage] and [onerror] above, closing
    over [uid]. *)
Definition connectSSE (arg : option string) (st : State) : Outcome :=
  match truthy_str (resolve_userId arg st) with
  | None => Some (Throw (Error "userId is required for SSE connection"), st)
  | Some uid =>
    match truthy_str (profileToken (hc st)) with
    | None => Some (Throw (Error "profileToken is required for SSE connection"), st)
    | Some token =>
      andThen
        (match eventSource (hc st) with
         | Some _ =>
           disconnectSSE (log "SSE already connected, disconnecting first" st)
         | None => Some (Normal, st)
         end)
        (fun st =>
           let sseUrl :=
             baseUrl (hc st) +:+ "/sse/notifications/" +:+ uid +:+ "/?token=" +:+ token in
           let st := log "Connecting to SSE" st in
           let h := length (sources (env st)) in
           let st := new_EventSource sseUrl uid st in
           Some (Normal, on_hc (set_eventSource (Some h)) st))
    end
  end.

End Body.

(** The public methods as seen from a callback, [fuel] bounding how deep
    calls may nest. *)
Fixpoint api (fuel : nat) (c : ApiCall) (st : State) : Outcome :=
  match fuel with
  | O => None
  | S fuel' =>
    match c with
    | CallConnect arg => connectSSE (api fuel') arg st
    | CallDisconnect => disconnectSSE (api fuel') st
    end
  end.

(** ** Turns of the event loop

    Everything that can happen to a client: the application calls a
    public method, a transport handle delivers a signal, or a timer
    fires. A closed or unknown handle delivers nothing, and a timer fires
    once. *)
Inductive Turn : Type :=
| AppOn (event : string) (cb : cbid)
| AppOff (event : string) (cb : cbid)
| AppConnect (arg : option string)
| AppDisconnect
| EsOpen (h : nat)
| EsMessage (h : nat) (text : string)
| EsError (h : nat) (error : JsValue)
| TimerFire (i : nat).

Definition exec_turn (fuel : nat) (t : Turn) (st : State) : Outcome :=
  match t with
  | AppOn event cb => Some (Normal, on event cb st)
  | AppOff event cb => Some (Normal, off event cb st)
  | AppConnect arg => connectSSE (api fuel) arg st
  | AppDisconnect => disconnectSSE (api fuel) st
  | EsOpen h =>
    match live_source h st with
    | Some s => onopen (api fuel) (es_userId s) st
    | None => Some (Normal, st)
    end
  | EsMessage h text =>
    match live_source h st with
    | Some _ => onmessage (api fuel) text st
    | None => Some (Normal, st)
    end
  | EsError h error =>
    match live_source h st with
    | Some s => onerror (api fuel) (es_userId s) error st
    | None => Some (Normal, st)
    end
  | TimerFire i =>
    match pending_timer i st with
    | Some t => connectSSE (api fuel) (Some (tm_userId t)) (mark_fired i st)
    | None => Some (Normal, st)
    end
  end.

(** A sequence of turns; an exception that escapes a turn ends that turn
    and leaves the state as it was when it was thrown. *)
Fixpoint run (fuel : nat) (ts : list Turn) (st : State) : option State :=
  match ts with
  | [] => Some st
  | t :: rest =>
    match exec_turn fuel t st with
    | Some (_, st') => run fuel rest st'
    | None => None
    end
  end.

End Methods.

(** * Specification vocabulary *)

(** The fields the constructor sets once and for all. *)
Definition static (c : HermesClient) :=
  (baseUrl c, appToken c, profileToken c, userId c, timeout c, debug c,
   sseEnabled c, reconnectDelay c, maxReconnectAttempts c).

(** The state without the subscription registry, the trace of callback
    invocations and the console: what [on], [off], [log] and the
    invocation of a callback as such leave alone. *)
Definition core (st : State) :=
  (static (hc st), eventSource (hc st), reconnectAttempts (hc st),
   isConnected (hc st), sources (env st), timers (env st), emitted (env st)).

(** A property that depends on the [core] only. *)
Definition stable (Q : State → Prop) : Prop :=
  ∀ st st', core st = core st' → Q st → Q st'.

(** A callback action whose calls into the client all satisfy [ok]. *)
Definition ok_action (ok : ApiCall → Prop) (a : Action) : Prop :=
  match a with ActCall c => ok c | _ => True end.

(** The state changes of [disconnectSSE] before it publishes ... *)
Definition teardown (h : nat) (st : State) : State :=
  on_hc (set_isConnected false) (on_hc (set_eventSource None) (close_source h st)).

(** ... and of [connectSSE] when it creates the new handle. *)
Definition open_new (url uid : string) (st : State) : State :=
  on_hc (set_eventSource (Some (length (sources (env st))))) (new_EventSource url uid st).

(** The frame of a call of [connectSSE] or [disconnectSSE], with arbitrary
    callbacks: the configuration, the reconnect counter and the timer queue
    stay as they are, handles are only added, and only [disconnected]
    events are published. *)
Definition frame (st0 st : State) : Prop :=
  static (hc st) = static (hc st0) ∧
  reconnectAttempts (hc st) = reconnectAttempts (hc st0) ∧
  timers (env st) = timers (env st0) ∧
  length (sources (env st0)) ≤ length (sources (env st)) ∧
  ∃ ext, emitted (env st) = emitted (env st0) ++ ext ∧
         Forall (λ e, e.1 = "disconnected") ext.

(** The two errors [connectSSE] raises before it touches anything. *)
Definition ConfigurationError (e : JsError) : Prop :=
  e = Error "userId is required for SSE connection" ∨
  e = Error "profileToken is required for SSE connection".

(** Modelled on the wire format: the discriminant of a parsed message is
    its [type] property when that is a string. *)
Definition discriminant (data : JsValue) : option string :=
  match get_prop data "type" with
  | Some (JStr s) => Some s
  | _ => None
  end.

(** What the dispatch table prescribes for a parsed message: the event to
    publish and its payload, or nothing. *)
Definition dispatch_table (data : JsValue) : list (string * JsValue) :=
  match discriminant data with
  | Some s =>
    if decide (s = "notification") then [("notification", data)]
    else if decide (s = "unread_count") then
      [("unreadCount", default JUndefined (get_prop data "count"))]
    else if decide (s = "connected") then [("connected", data)]
    else []
  | None => []
  end.

(** No callback of the [disconnected] event calls [connectSSE]. *)
Definition quiet (listener : Listeners) : Prop :=
  ∀ cb data st,
    Forall (ok_action (λ c, c = CallDisconnect)) (listener cb "disconnected" data st).

(** The payload of the [disconnected] event of [disconnectSSE]. *)
Definition manual : JsValue := JObj [("reason", JStr "manual")].

(** The state changes of a [disconnectSSE] whose callbacks have no effect
    on the connection. *)
Definition after_disconnect (st : State) : State :=
  match eventSource (hc st) with
  | Some h => record_emit "disconnected" manual (teardown h st)
  | None => st
  end.

(** The callbacks registered for [event] when the publish began are still
    the first entries of its list. *)
Definition still_registered (event : string) (l : list cbid) (st : State) : Prop :=
  ∃ later, listeners (hc st) !! event = Some (l ++ later).

(** An action that removes nothing from the list of [event] and does not
    call back into the client. *)
Definition keeps_list (event : string) (a : Action) : Prop :=
  match a with
  | ActOn _ _ => True
  | ActOff event' _ => event' ≠ event
  | ActThrow _ => True
  | ActCall _ => False
  end.

(** A callback body that is made of such actions up to its first [throw]. *)
Fixpoint keeps_until_throw (event : string) (body : list Action) : Prop :=
  match body with
  | [] => True
  | ActThrow _ :: _ => True
  | a :: rest => keeps_list event a ∧ keeps_until_throw event rest
  end.

(** A transport signal counts when the handle it arrives on is live. *)
Definition error_delivered (t : Turn) (st : State) : bool :=
  match t with
  | EsError h _ => bool_decide (is_Some (live_source h st))
  | _ => false
  end.

(** Likewise for [open]. *)
Definition open_delivered (t : Turn) (st : State) : bool :=
  match t with
  | EsOpen h => bool_decide (is_Some (live_source h st))
  | _ => false
  end.

(** The number of turns of a run that satisfy [p] in the state they start
    from. *)
Fixpoint count_turns (p : Turn → State → bool)
    (JSON_parse : string → option JsValue) (listener : Listeners)
    (fuel : nat) (ts : list Turn) (st : State) : nat :=
  match ts with
  | [] => 0
  | t :: rest =>
    (if p t st then 1 else 0) +
    match exec_turn JSON_parse listener fuel t st with
    | Some (_, st') => count_turns p JSON_parse listener fuel rest st'
    | None => 0
    end
  end.

(** The configured maximum, the reconnect counter, and the number of
    timers ever scheduled. *)
Definition counters (st : State) : Z * Z * nat :=
  (maxReconnectAttempts (hc st), reconnectAttempts (hc st), length (timers (env st))).

(** What one turn does to them. *)
Definition next_counters (t : Turn) (st : State) : Z * Z * nat :=
  let '(m, a, n) := counters st in
  if open_delivered t st then (m, 0%Z, n)
  else if error_delivered t st then
    if (a <? m)%Z then (m, (a + 1)%Z, S n) else (m, a, n)
  else (m, a, n).

(** Every transport handle that is not closed is the one the client
    holds. *)
Definition handles_owned (st : State) : Prop :=
  ∀ h s, sources (env st) !! h = Some s → es_closed s = false →
         eventSource (hc st) = Some h.

(** [isConnected] implies a handle. *)
Definition connected_has_handle (st : State) : Prop :=
  isConnected (hc st) = true → is_Some (eventSource (hc st)).

(** The invariant of the connection. *)
Definition consistent (st : State) : Prop :=
  handles_owned st ∧ connected_has_handle st.

(** The handles that can still deliver signals. *)
Definition open_handles (st : State) : list nat :=
  filter (λ h, is_Some (live_source h st)) (seq 0 (length (sources (env st)))).

(** The events a [connectSSE] publishes itself. *)
Definition teardown_events (st : State) : list (string * JsValue) :=
  match eventSource (hc st) with
  | Some _ => [("disconnected", manual)]
  | None => []
  end.

(** ** Concrete clients, callbacks and messages *)

(** [{profileToken: 'tok', userId: 'u1', reconnectDelay: 10,
    maxReconnectAttempts: 2}]. *)
Definition demo_config : Config :=
  {| cfg_baseUrl := None; cfg_appToken := None;
     cfg_profileToken := Some "tok"; cfg_userId := Some "u1";
     cfg_timeout := None; cfg_debug := None; cfg_sseEnabled := None;
     cfg_reconnectDelay := Some 10%Z; cfg_maxReconnectAttempts := Some 2%Z |}.

(** The same client without a default user identifier. *)
Definition anonymous_config : Config :=
  {| cfg_baseUrl := None; cfg_appToken := None;
     cfg_profileToken := Some "tok"; cfg_userId := None;
     cfg_timeout := None; cfg_debug := None; cfg_sseEnabled := None;
     cfg_reconnectDelay := Some 10%Z; cfg_maxReconnectAttempts := Some 2%Z |}.

(** A client configured with [reconnectDelay: 0, maxReconnectAttempts: 0]. *)
Definition zero_config : Config :=
  {| cfg_baseUrl := None; cfg_appToken := None;
     cfg_profileToken := Some "tok"; cfg_userId := Some "u1";
     cfg_timeout := None; cfg_debug := None; cfg_sseEnabled := None;
     cfg_reconnectDelay := Some 0%Z; cfg_maxReconnectAttempts := Some 0%Z |}.

(** Callbacks that do nothing. *)
Definition silent : Listeners := λ _ _ _ _, [].

(** Callback 0 reconnects: [() => client.connectSSE()]. *)
Definition reconnecting : Listeners :=
  λ cb _ _ _, match cb with 0 => [ActCall (CallConnect None)] | _ => [] end.

(** Every callback of [error] reconnects, the others do nothing:
    [client.on('error', () => client.connectSSE())]. *)
Definition reconnect_on_error : Listeners :=
  λ _ event _ _,
    if String.eqb event "error" then [ActCall (CallConnect None)] else [].

(** Callback 1 is a one-shot listener of [notification]:
    [function once() { client.off('notification', once) }]. *)
Definition one_shot : Listeners :=
  λ cb _ _ _, match cb with 1 => [ActOff "notification" 1] | _ => [] end.

(** Callback 0 throws, callback 3 subscribes callback 4 to the event and
    unsubscribes callback 1 from another one. *)
Definition mixed : Listeners :=
  λ cb _ _ _, match cb with
          | 0 => [ActThrow (Error "boom")]
          | 3 => [ActOn "notification" 4; ActOff "error" 1]
          | _ => []
          end.


(** The double quote character. *)
Definition quote : string := String (Ascii.ascii_of_nat 34) EmptyString.

(** The text [{"type":"unread_count","count":5}]. *)
Definition unread_text : string :=
  "{" +:+ quote +:+ "type" +:+ quote +:+ ":" +:+ quote +:+ "unread_count" +:+ quote
  +:+ "," +:+ quote +:+ "count" +:+ quote +:+ ":5}".

(** ... and what it denotes. *)
Definition unread_message : JsValue :=
  JObj [("type", JStr "unread_count"); ("count", JNum 5)].

(** A [JSON.parse] that knows this one text and rejects everything else. *)
Definition parse_unread (text : string) : option JsValue :=
  if String.eqb text unread_text then Some unread_message else None.

(** [demo_config] with callbacks 1 and 2 subscribed to [notification]. *)
Definition two_subscribers : State :=
  on "notification" 2 (on "notification" 1 (construct demo_config)).

(** [demo_config] with callbacks 0, 3 and 2 subscribed to [notification]. *)
Definition three_subscribers : State :=
  on "notification" 2 (on "notification" 3 (on "notification" 0 (construct demo_config))).

(** The client of [demo_config] after [connectSSE()]. *)
Definition demo_connecting : State :=
  default (construct demo_config)
    (run parse_unread silent 2 [AppConnect None] (construct demo_config)).

(** ... after the handle has opened. *)
Definition demo_connected : State :=
  default (construct demo_config)
    (run parse_unread silent 2 [AppConnect None; EsOpen 0] (construct demo_config)).

(** The client of [demo_config] with a reconnecting [error] callback,
    after a transport error and the opening of the handle that the callback
    created. *)
Definition demo_recovered : State :=
  default (construct demo_config)
    (run parse_unread reconnect_on_error 3
       [AppOn "error" 5; AppConnect None; EsError 0 JNull; EsOpen 1]
       (construct demo_config)).

(** The client of [demo_config] after [connectSSE()] and a transport
    error. *)
Definition demo_errored : State :=
  default (construct demo_config)
    (run parse_unread silent 2 [AppConnect None; EsError 0 JNull] (construct demo_config)).

(** * The rest of the client *)

(** ** Further vocabulary for the connection *)

(** The address [connectSSE] opens:
    [`${this.baseUrl}/sse/notifications/${userId}/?token=${token}`]. *)
Definition sse_url (c : HermesClient) (uid token : string) : string :=
  baseUrl c +:+ "/sse/notifications/" +:+ uid +:+ "/?token=" +:+ token.

(** Callbacks that make no call into the client: they subscribe,
    unsubscribe and throw. *)
Definition passive (listener : Listeners) : Prop :=
  ∀ cb event data st, Forall (ok_action (λ _, False)) (listener cb event data st).

(** Every handle of [st0] is still there in [st], at the same address and
    for the same user, and closed if it was closed. *)
Definition handles_extend (st0 st : State) : Prop :=
  ∀ h s, sources (env st0) !! h = Some s →
    ∃ s', sources (env st) !! h = Some s' ∧
          es_url s' = es_url s ∧ es_userId s' = es_userId s ∧
          (es_closed s = true → es_closed s' = true).

(** Every timer of [st0] is still there in [st], for the same user and
    delay, and fired if it had fired. *)
Definition timers_extend (st0 st : State) : Prop :=
  ∀ i t, timers (env st0) !! i = Some t →
    ∃ t', timers (env st) !! i = Some t' ∧
          tm_userId t' = tm_userId t ∧ tm_delay t' = tm_delay t ∧
          (tm_fired t = true → tm_fired t' = true).

(** Nothing is lost: configuration, handles and timers. *)
Definition extends (st0 st : State) : Prop :=
  static (hc st) = static (hc st0) ∧ handles_extend st0 st ∧ timers_extend st0 st.

(** Every handle was opened at the address of its user with the configured
    credential, and every scheduled reconnect is for a user and after the
    configured delay. *)
Definition well_addressed (st : State) : Prop :=
  (∀ h s, sources (env st) !! h = Some s →
     es_userId s ≠ EmptyString ∧
     ∃ token, truthy_str (profileToken (hc st)) = Some token ∧
              es_url s = sse_url (hc st) (es_userId s) token) ∧
  (∀ i t, timers (env st) !! i = Some t →
     tm_userId t ≠ EmptyString ∧ tm_delay t = reconnectDelay (hc st) ∧
     is_Some (truthy_str (profileToken (hc st)))).

(** Every event that has a callback list in [st0] still has one in [st]. *)
Definition keys_kept (st0 st : State) : Prop :=
  ∀ event, is_Some (listeners (hc st0) !! event) → is_Some (listeners (hc st) !! event).

(** The events the constructor creates a list for. *)
Definition standard_events : list string :=
  ["notification"; "connected"; "disconnected"; "error"; "unreadCount"].

(** An action that leaves the callback list of [event] exactly as it is
    and does not call back into the client. *)
Definition leaves_list (event : string) (a : Action) : Prop :=
  match a with
  | ActOn event' _ | ActOff event' _ => event' ≠ event
  | ActThrow _ => True
  | ActCall _ => False
  end.

(** * The request methods

    [sendNotification], [getNotifications], [getUnreadCount], [markAsRead]
    and [markAllAsRead] are [async]: each returns a promise that is
    eventually fulfilled with a value or rejected with an exception. Every
    one of them reads the fields of [this] before its first [await] and
    only calls [this.log] afterwards, so what it requests and how its
    promise settles do not depend on the turns that run while it waits; a
    call is modelled as one step.

    What the runtime supplies is made explicit:
    - [fetch] is a parameter: for a request, a network failure or a
      response with its status and the result of its [json()];
    - the requests handed to [fetch] are recorded in a trace ([sent]);
    - the body of a request is kept as the value handed to
      [JSON.stringify].

    Arguments have the types of the declaration file ([hermes-client.d.ts]):
    identifiers, titles and the like are strings, [limit] and [offset] are
    integers (safe integers, where their text matters), and an absent or
    [undefined] property is [None]. *)

(** Truthiness of a value. *)
Definition truthy (v : JsValue) : bool :=
  match v with
  | JUndefined | JNull => false
  | JBool b => b
  | JNum n => negb (Z.eqb n 0)
  | JStr s => negb (String.eqb s EmptyString)
  | JArr _ | JObj _ => true
  end.

(** [v || d]. *)
Definition or_val (v d : JsValue) : JsValue := if truthy v then v else d.

(** The two arguments of [fetch]: the address and the [init] object. An
    absent [method] is a [GET]. *)
Record Request : Type := {
  req_url : string;
  req_method : option string;
  req_headers : list (string * string);
  req_body : option JsValue
}.

(** A [Response]: its status and what [response.json()] is fulfilled with,
    [None] when the body is not JSON and [json()] rejects. *)
Record Response : Type := {
  resp_status : Z;
  resp_json : option JsValue
}.

(** [response.ok]. *)
Definition resp_ok (r : Response) : bool :=
  (200 <=? resp_status r)%Z && (resp_status r <=? 299)%Z.

Inductive FetchResult : Type :=
| NetworkError (e : JsError)
| Fetched (r : Response).

(** What a promise is rejected with: [new Error(message)], whose message
    is the string form of the value, or an exception raised by the
    runtime. *)
Inductive Rejection : Type :=
| NewError (message : JsValue)
| Raised (e : JsError).

Inductive Settled (A : Type) : Type :=
| Fulfilled (a : A)
| Rejected (e : Rejection).

Arguments Fulfilled {A} a.
Arguments Rejected {A} e.

(** The client together with the trace of its requests. *)
Record Net : Type := {
  client : State;
  sent : list Request
}.

(** An [async] computation. *)
Definition Async (A : Type) : Type := Net → Settled A * Net.

Definition resolve {A : Type} (a : A) : Async A := λ n, (Fulfilled a, n).

(** [throw e] in an [async] function. *)
Definition reject {A : Type} (e : Rejection) : Async A := λ n, (Rejected e, n).

(** [const x = await m; k]. *)
Definition await {A B : Type} (m : Async A) (k : A → Async B) : Async B :=
  λ n, match m n with
       | (Fulfilled a, n') => k a n'
       | (Rejected e, n') => (Rejected e, n')
       end.

(** [m.catch(handler)]. *)
Definition catch {A : Type} (m : Async A) (handler : Rejection → Async A) : Async A :=
  λ n, match m n with
       | (Fulfilled a, n') => (Fulfilled a, n')
       | (Rejected e, n') => handler e n'
       end.

Notation "'let*' x ':=' m 'in' k" := (await m (λ x, k))
  (at level 10, x name, m at level 100, k at level 200, only parsing).

(** The fields of [this]. *)
Definition this : Async HermesClient := λ n, (Fulfilled (hc (client n)), n).

(** [this.log(msg, ...)]. *)
Definition logA (msg : string) : Async unit :=
  λ n, (Fulfilled tt, {| client := log msg (client n); sent := sent n |}).

(** [response.json()]. *)
Definition json (r : Response) : Async JsValue :=
  match resp_json r with
  | Some v => resolve v
  | None => reject (Raised SyntaxError)
  end.

(** [`HTTP ${response.status}`]. *)
Definition http_status (r : Response) : JsValue :=
  JStr ("HTTP " +:+ pretty (resp_status r)).

(** [`Bearer ${token}`] in the [Authorization] header. *)
Definition bearer (token : string) : string * string :=
  ("Authorization", "Bearer " +:+ token).

(** [a || b] on two string-or-null fields. *)
Definition or_token (a b : option string) : option string :=
  match truthy_str a with
  | Some t => Some t
  | None => truthy_str b
  end.

(** The [options] of [sendNotification]. *)
Record SendOptions : Type := {
  send_userId : option string;
  send_title : option string;
  send_body : option string;
  send_sourceSystem : option string;
  send_priority : option string;
  send_channels : option JsValue;
  send_metadata : option JsValue
}.

(** The [options] of [getNotifications]; an [isRead] that is absent or
    [null] is [None]. *)
Record GetOptions : Type := {
  get_userId : option string;
  get_isRead : option bool;
  get_limit : option Z;
  get_offset : option Z
}.

(** [params.toString()] of the [URLSearchParams] that [getNotifications]
    builds from [limit.toString()], [offset.toString()] and
    [isRead.toString()]. The digits and the minus sign of a safe integer
    pass through the serialisation unchanged; a number beyond the safe
    integers is outside the model (see [number_text]; from 1e21 on its
    text has an exponent, whose plus sign the serialisation escapes). *)
Definition query (limit offset : Z) (isRead : option bool) : string :=
  "limit=" +:+ number_text limit +:+ "&offset=" +:+ number_text offset +:+
  match isRead with
  | Some b => "&is_read=" +:+ (if b then "true" else "false")
  | None => EmptyString
  end.

Section Requests.

Variable fetch : Request → FetchResult.

(** [await fetch(url, init)]. *)
Definition fetchA (req : Request) : Async Response :=
  λ n, let n' := {| client := client n; sent := sent n ++ [req] |} in
       match fetch req with
       | Fetched r => (Fulfilled r, n')
       | NetworkError e => (Rejected (Raised e), n')
       end.

(** [const error = await response.json().catch(() => ({error: 'Unknown error'}));
     throw new Error(error.error || `HTTP ${response.status}`)]. The name
    [error] is, like [type] and [count], no member of a prototype. *)
Definition throw_server_error (response : Response) : Async JsValue :=
  let* error := catch (json response)
                  (λ _, resolve (JObj [("error", JStr "Unknown error")])) in
  match get_prop error "error" with
  | None => reject (Raised TypeError)
  | Some message => reject (NewError (or_val message (http_status response)))
  end.

Definition sendNotification (options : SendOptions) : Async JsValue :=
  let sourceSystem := default "web-app" (send_sourceSystem options) in
  let priority := default "normal" (send_priority options) in
  let channels := default (JArr [JStr "in_app"]) (send_channels options) in
  let metadata := default (JObj []) (send_metadata options) in
  match truthy_str (send_userId options) with
  | None => reject (NewError (JStr "userId is required"))
  | Some userId =>
    match truthy_str (send_title options), truthy_str (send_body options) with
    | Some title, Some body =>
      let* c := this in
      match truthy_str (appToken c) with
      | None => reject (NewError (JStr "appToken is required for sending notifications"))
      | Some token =>
        let* _ := logA "Sending notification" in
        let* response := fetchA
          {| req_url := baseUrl c +:+ "/api/notifications/send";
             req_method := Some "POST";
             req_headers := [("Content-Type", "application/json"); bearer token];
             req_body := Some (JObj
               [("user_id", JStr userId); ("title", JStr title); ("body", JStr body);
                ("source_system", JStr sourceSystem); ("priority", JStr priority);
                ("channels", channels); ("metadata", metadata)]) |} in
        if negb (resp_ok response) then throw_server_error response
        else
          let* result := json response in
          let* _ := logA "Notification sent" in
          resolve result
      end
    | _, _ => reject (NewError (JStr "title and body are required"))
    end
  end.

Definition getNotifications (options : GetOptions) : Async JsValue :=
  let* c := this in
  let userId := match get_userId options with Some u => Some u | None => userId c end in
  let isRead := get_isRead options in
  let limit := default 20%Z (get_limit options) in
  let offset := default 0%Z (get_offset options) in
  match truthy_str userId with
  | None => reject (NewError (JStr "userId is required"))
  | Some userId =>
    match or_token (profileToken c) (appToken c) with
    | None => reject (NewError (JStr "profileToken or appToken is required"))
    | Some token =>
      let params := query limit offset isRead in
      let* _ := logA "Getting notifications" in
      let* response := fetchA
        {| req_url := baseUrl c +:+ "/api/notifications/user/" +:+ userId +:+ "?" +:+ params;
           req_method := None;
           req_headers := [bearer token];
           req_body := None |} in
      if negb (resp_ok response) then throw_server_error response
      else
        let* result := json response in
        let* _ := logA "Notifications received" in
        resolve result
    end
  end.

Definition getUnreadCount (arg : option string) : Async JsValue :=
  let* c := this in
  let userId := match arg with Some u => Some u | None => userId c end in
  match truthy_str userId with
  | None => reject (NewError (JStr "userId is required"))
  | Some userId =>
    match or_token (profileToken c) (appToken c) with
    | None => reject (NewError (JStr "profileToken or appToken is required"))
    | Some token =>
      let* _ := logA "Getting unread count" in
      let* response := fetchA
        {| req_url := baseUrl c +:+ "/api/notifications/user/" +:+ userId +:+ "/unread-count";
           req_method := None;
           req_headers := [bearer token];
           req_body := None |} in
      if negb (resp_ok response) then reject (NewError (http_status response))
      else
        let* result := json response in
        let* _ := logA "Unread count" in
        match get_prop result "count" with
        | None => reject (Raised TypeError)
        | Some count => resolve (or_val count (JNum 0))
        end
    end
  end.

Definition markAsRead (notificationId : option string) : Async JsValue :=
  match truthy_str notificationId with
  | None => reject (NewError (JStr "notificationId is required"))
  | Some notificationId =>
    let* c := this in
    match or_token (profileToken c) (appToken c) with
    | None => reject (NewError (JStr "profileToken or appToken is required"))
    | Some token =>
      let* _ := logA "Marking as read" in
      let* response := fetchA
        {| req_url := baseUrl c +:+ "/api/notifications/" +:+ notificationId +:+ "/read";
           req_method := Some "PATCH";
           req_headers := [bearer token];
           req_body := None |} in
      if negb (resp_ok response) then reject (NewError (http_status response))
      else
        let* result := json response in
        let* _ := logA "Marked as read" in
        resolve result
    end
  end.

Definition markAllAsRead (arg : option string) : Async JsValue :=
  let* c := this in
  let userId := match arg with Some u => Some u | None => userId c end in
  match truthy_str userId with
  | None => reject (NewError (JStr "userId is required"))
  | Some userId =>
    match or_token (profileToken c) (appToken c) with
    | None => reject (NewError (JStr "profileToken or appToken is required"))
    | Some token =>
      let* _ := logA "Marking all as read" in
      let* response := fetchA
        {| req_url := baseUrl c +:+ "/api/notifications/user/" +:+ userId +:+ "/read-all";
           req_method := Some "PATCH";
           req_headers := [bearer token];
           req_body := None |} in
      if negb (resp_ok response) then reject (NewError (http_status response))
      else
        let* result := json response in
        let* _ := logA "All marked as read" in
        resolve result
    end
  end.

End Requests.

(** ** Vocabulary for the request methods *)

(** A call of one of the five methods. *)
Inductive Call : Type :=
| SendNotification (options : SendOptions)
| GetNotifications (options : GetOptions)
| GetUnreadCount (arg : option string)
| MarkAsRead (notificationId : option string)
| MarkAllAsRead (arg : option string).

Definition invoke (fetch : Request → FetchResult) (c : Call) : Async JsValue :=
  match c with
  | SendNotification options => sendNotification fetch options
  | GetNotifications options => getNotifications fetch options
  | GetUnreadCount arg => getUnreadCount fetch arg
  | MarkAsRead notificationId => markAsRead fetch notificationId
  | MarkAllAsRead arg => markAllAsRead fetch arg
  end.

(** The token a call authenticates with: the application token for
    [sendNotification], the profile token or else the application token
    for the others. *)
Definition credential (c : Call) (this : HermesClient) : option string :=
  match c with
  | SendNotification _ => truthy_str (appToken this)
  | _ => or_token (profileToken this) (appToken this)
  end.

(** The three methods that report a failed request by its status alone. *)
Definition status_only (c : Call) : bool :=
  match c with
  | GetUnreadCount _ | MarkAsRead _ | MarkAllAsRead _ => true
  | _ => false
  end.

(** ** Case analysis of a call *)

(** Unfolds the methods and the operations of [Async]. *)
Ltac async_unfold :=
  unfold invoke, sendNotification, getNotifications, getUnreadCount, markAsRead,
    markAllAsRead, throw_server_error, await, catch, this, logA, fetchA, json,
    resolve, reject in *.

(** Every way the call of hypothesis [H] can go. *)
Ltac invoke_cases fetch H :=
  async_unfold;
  repeat match type of H with
    | context [match truthy_str ?x with _ => _ end] => destruct (truthy_str x) eqn:?
    | context [match or_token ?x ?y with _ => _ end] => destruct (or_token x y) eqn:?
    end;
  try match type of H with
    | context [?f ?q] =>
      constr_eq f fetch; destruct (fetch q) as [?|?response] eqn:?; simpl in H;
      try match type of H with
        | context [resp_ok ?r] =>
          destruct (resp_ok r) eqn:?; simpl in H;
          destruct (resp_json r) eqn:?; simpl in H;
          repeat match type of H with
            | context [match ?x with _ => _ end] => destruct x eqn:?
            end; simpl in H
        end
    end;
  injection H as <- <-.

(** ** Concrete clients and servers *)

(** [{appToken: 'app', profileToken: 'tok', userId: 'u1'}]. *)
Definition both_config : Config :=
  {| cfg_baseUrl := None; cfg_appToken := Some "app";
     cfg_profileToken := Some "tok"; cfg_userId := Some "u1";
     cfg_timeout := None; cfg_debug := None; cfg_sseEnabled := None;
     cfg_reconnectDelay := None; cfg_maxReconnectAttempts := None |}.

(** The same with [timeout: 1, reconnectDelay: 1, maxReconnectAttempts: 1,
    sseEnabled: false]. *)
Definition impatient_config : Config :=
  {| cfg_baseUrl := None; cfg_appToken := Some "app";
     cfg_profileToken := Some "tok"; cfg_userId := Some "u1";
     cfg_timeout := Some 1%Z; cfg_debug := None; cfg_sseEnabled := Some false;
     cfg_reconnectDelay := Some 1%Z; cfg_maxReconnectAttempts := Some 1%Z |}.

(** A client that has sent nothing yet. *)
Definition fresh (config : Config) : Net :=
  {| client := construct config; sent := [] |}.

(** A server that answers every request with the same status and body. *)
Definition server (status : Z) (body : option JsValue) : Request → FetchResult :=
  λ _, Fetched {| resp_status := status; resp_json := body |}.

(** No network. *)
Definition offline : Request → FetchResult := λ _, NetworkError TypeError.

(** [{userId: 'u2', title: 'Hi', body: 'there'}]. *)
Definition hello : SendOptions :=
  {| send_userId := Some "u2"; send_title := Some "Hi"; send_body := Some "there";
     send_sourceSystem := None; send_priority := None;
     send_channels := None; send_metadata := None |}.

(** [{}]. *)
Definition no_options : GetOptions :=
  {| get_userId := None; get_isRead := None; get_limit := None; get_offset := None |}.

(** [{isRead: false, limit: 0}]. *)
Definition unread_page : GetOptions :=
  {| get_userId := None; get_isRead := Some false; get_limit := Some 0%Z;
     get_offset := None |}.

(** * Properties *)

(** ** What the bus operations leave alone *)

Lemma core_log msg st : core (log msg st) = core st.
Proof. unfold log. by destruct (debug (hc st)). Qed.

Lemma log_fields msg st :
  hc (log msg st) = hc st ∧
  sources (env (log msg st)) = sources (env st) ∧
  timers (env (log msg st)) = timers (env st) ∧
  emitted (env (log msg st)) = emitted (env st) ∧
  invoked (env (log msg st)) = invoked (env st).
Proof. unfold log. by destruct (debug (hc st)). Qed.

Lemma core_on event cb st : core (on event cb st) = core st.
Proof. unfold on. by rewrite core_log. Qed.

Lemma core_off event cb st : core (off event cb st) = core st.
Proof.
  unfold off. destruct (listeners (hc st) !! event) as [l|]; [|done].
  destruct (indexOf cb l); [|done]. by rewrite core_log.
Qed.

Lemma stable_log Q msg st : stable Q → Q st → Q (log msg st).
Proof. intros HQ. apply HQ. by rewrite core_log. Qed.

(** The projections of [core], for rewriting. *)
Lemma core_fields st st' :
  core st = core st' →
  static (hc st) = static (hc st') ∧
  eventSource (hc st) = eventSource (hc st') ∧
  reconnectAttempts (hc st) = reconnectAttempts (hc st') ∧
  isConnected (hc st) = isConnected (hc st') ∧
  sources (env st) = sources (env st') ∧
  timers (env st) = timers (env st') ∧
  emitted (env st) = emitted (env st').
Proof. unfold core. intros [=]. repeat split; unfold static; congruence. Qed.

Lemma static_fields c c' :
  static c = static c' →
  baseUrl c = baseUrl c' ∧ profileToken c = profileToken c' ∧
  userId c = userId c' ∧ debug c = debug c' ∧
  reconnectDelay c = reconnectDelay c' ∧
  maxReconnectAttempts c = maxReconnectAttempts c'.
Proof. unfold static. intros [=]. by repeat split. Qed.

(** ** A publish preserves what its callbacks preserve *)

Section Preservation.

Variable listener : Listeners.
Variable reenter : ApiCall → State → Outcome.
Variable Q : State → Prop.
Variable ok : ApiCall → Prop.
Variable event : string.

Hypothesis Q_stable : stable Q.
Hypothesis reenter_pres :
  ∀ c st r st', ok c → Q st → reenter c st = Some (r, st') → Q st'.
Hypothesis listener_ok :
  ∀ cb data st, Forall (ok_action ok) (listener cb event data st).

Lemma run_actions_pres body st r st' :
  Forall (ok_action ok) body → Q st →
  run_actions reenter body st = Some (r, st') → Q st'.
Proof.
  intros Hb. revert st. induction Hb as [|a body Ha _ IH]; simpl; intros st HQ Hrun.
  - by simplify_eq.
  - assert (∀ r1 st1, run_action reenter a st = Some (r1, st1) → Q st1) as Hstep.
    { intros r1 st1. destruct a; simpl; intros ?; simplify_eq.
      - eapply Q_stable; [|done]. by rewrite core_on.
      - eapply Q_stable; [|done]. by rewrite core_off.
      - done.
      - by eapply reenter_pres. }
    destruct (run_action reenter a st) as [[[|e] st1]|]; simpl in Hrun; [|simplify_eq|done].
    + eapply IH; [|done]. by eapply Hstep.
    + by eapply Hstep.
Qed.

Lemma guarded_call_pres cb data st r st' :
  Q st → guarded_call listener reenter cb event data st = Some (r, st') →
  r = Normal ∧ Q st'.
Proof.
  unfold guarded_call, call_listener, tryCatch. intros HQ H.
  destruct (run_actions _ _ _) as [[[|e] st1]|] eqn:E; simplify_eq.
  - split; [done|]. eapply run_actions_pres; [apply listener_ok| |done].
    eapply Q_stable; [|done]. done.
  - split; [done|]. apply stable_log; [done|].
    eapply run_actions_pres; [apply listener_ok| |done].
    eapply Q_stable; [|done]. done.
Qed.

Lemma forEach_pres n k data st r st' :
  Q st → forEach listener reenter n k event data st = Some (r, st') →
  r = Normal ∧ Q st'.
Proof.
  revert k st. induction n as [|n IH]; simpl; intros k st HQ H.
  - by simplify_eq.
  - destruct (default [] (listeners (hc st) !! event) !! k) as [cb|]; [|by eapply IH].
    destruct (guarded_call _ _ _ _ _ _) as [[c1 st1]|] eqn:E; [|done].
    destruct (guarded_call_pres _ _ _ _ _ HQ E) as [-> HQ1]. simpl in H.
    by eapply IH.
Qed.

Lemma emit_pres data st r st' :
  Q (record_emit event data st) →
  emit listener reenter event data st = Some (r, st') → r = Normal ∧ Q st'.
Proof.
  unfold emit. intros HQ H.
  destruct (listeners _ !! event) as [l|]; [by eapply forEach_pres|by simplify_eq].
Qed.

(** The same with termination: when the nested calls return, so does the
    publish. *)
Hypothesis reenter_total :
  ∀ c st, ok c → Q st → is_Some (reenter c st).

Lemma run_actions_total body st :
  Forall (ok_action ok) body → Q st → is_Some (run_actions reenter body st).
Proof.
  intros Hb. revert st. induction Hb as [|a body Ha _ IH]; simpl; intros st HQ.
  - done.
  - assert (∃ r1 st1, run_action reenter a st = Some (r1, st1) ∧ Q st1)
      as (r1 & st1 & E & HQ1).
    { destruct a; simpl.
      - eexists _, _. split; [done|]. eapply Q_stable; [|done]. by rewrite core_on.
      - eexists _, _. split; [done|]. eapply Q_stable; [|done]. by rewrite core_off.
      - by eexists _, _.
      - destruct (reenter_total c st Ha HQ) as [[r1 st1] E].
        eexists _, _. split; [done|]. by eapply reenter_pres. }
    rewrite E. destruct r1; simpl; [by apply IH|done].
Qed.

Lemma guarded_call_total cb data st :
  Q st → ∃ st', guarded_call listener reenter cb event data st = Some (Normal, st') ∧ Q st'.
Proof.
  intros HQ.
  assert (is_Some (guarded_call listener reenter cb event data st)) as [[r st'] E].
  { unfold guarded_call, call_listener, tryCatch.
    assert (Q (record_invoke cb event data st)) as HQ1
      by (eapply Q_stable; [|exact HQ]; done).
    destruct (run_actions_total (listener cb event data st) _ (listener_ok cb data st) HQ1)
      as [[[|e] st1] ->]; done. }
  destruct (guarded_call_pres _ _ _ _ _ HQ E) as [-> HQ']. by exists st'.
Qed.

Lemma forEach_total n k data st :
  Q st → ∃ st', forEach listener reenter n k event data st = Some (Normal, st') ∧ Q st'.
Proof.
  revert k st. induction n as [|n IH]; simpl; intros k st HQ.
  - by exists st.
  - destruct (default [] (listeners (hc st) !! event) !! k) as [cb|]; [|by apply IH].
    destruct (guarded_call_total cb data st HQ) as (st1 & -> & HQ1). simpl.
    by apply IH.
Qed.

Lemma emit_total data st :
  Q (record_emit event data st) →
  ∃ st', emit listener reenter event data st = Some (Normal, st') ∧ Q st'.
Proof.
  unfold emit. intros HQ.
  destruct (listeners _ !! event) as [l|]; [by apply forEach_total|by eexists].
Qed.

End Preservation.

(** ** What [connectSSE] and [disconnectSSE] preserve, whatever the
    callbacks do *)

Lemma ok_action_any (body : list Action) : Forall (ok_action (λ _, True)) body.
Proof. apply Forall_forall. by intros []. Qed.

Lemma core_teardown_log h msg st :
  core (teardown h (log msg st)) = core (teardown h st).
Proof. unfold log. by destruct (debug (hc st)). Qed.

Lemma core_open_new_log url uid msg st :
  core (open_new url uid (log msg st)) = core (open_new url uid st).
Proof. unfold log. by destruct (debug (hc st)). Qed.

Lemma core_record_emit event data st st' :
  core st = core st' → core (record_emit event data st) = core (record_emit event data st').
Proof. intros H. apply core_fields in H as (?&?&?&?&?&?&?). unfold core. simpl. congruence. Qed.

Section ApiPreservation.

Variable listener : Listeners.
Variable Q : State → Prop.

Hypothesis Q_stable : stable Q.
Hypothesis Q_teardown :
  ∀ st h data, Q st → eventSource (hc st) = Some h →
    Q (record_emit "disconnected" data (teardown h st)).
Hypothesis Q_open_new : ∀ st url uid, Q st → Q (open_new url uid st).

Section Step.

Variable reenter : ApiCall → State → Outcome.
Hypothesis reenter_pres :
  ∀ c st r st', Q st → reenter c st = Some (r, st') → Q st'.

Lemma disconnectSSE_pres st r st' :
  Q st → disconnectSSE listener reenter st = Some (r, st') → r = Normal ∧ Q st'.
Proof.
  unfold disconnectSSE. intros HQ H.
  destruct (eventSource (hc st)) as [h|] eqn:Hes; [|by simplify_eq].
  eapply (emit_pres listener reenter Q (λ _, True) "disconnected");
    [done| |by intros; apply ok_action_any| |exact H].
  - intros. by eapply reenter_pres.
  - eapply Q_stable; [|by apply (Q_teardown st h)].
    apply core_record_emit. symmetry. apply core_teardown_log.
Qed.

Lemma connectSSE_pres arg st r st' :
  Q st → connectSSE listener reenter arg st = Some (r, st') → Q st'.
Proof.
  unfold connectSSE. intros HQ H.
  destruct (truthy_str (resolve_userId arg st)) as [uid|]; [|by simplify_eq].
  destruct (truthy_str (profileToken (hc st))) as [token|]; [|by simplify_eq].
  assert (∀ st1, Q st1 →
    Q (on_hc (set_eventSource (Some (length (sources (env (log "Connecting to SSE" st1))))))
         (new_EventSource (baseUrl (hc st1) +:+ "/sse/notifications/" +:+ uid +:+
            "/?token=" +:+ token) uid (log "Connecting to SSE" st1)))) as Hopen.
  { intros st1 HQ1. eapply Q_stable; [|by apply (Q_open_new st1)].
    symmetry. apply core_open_new_log. }
  destruct (eventSource (hc st)) as [h|] eqn:Hes; simpl in H.
  - destruct (disconnectSSE _ _ _) as [[r1 st1]|] eqn:E; [|done].
    apply disconnectSSE_pres in E as [-> HQ1]; [|by apply stable_log].
    simpl in H. simplify_eq. by apply Hopen.
  - simplify_eq. by apply Hopen.
Qed.

End Step.

Lemma api_pres fuel c st r st' :
  Q st → api listener fuel c st = Some (r, st') → Q st'.
Proof.
  revert c st r st'. induction fuel as [|fuel IH]; simpl; intros c st r st' HQ H; [done|].
  destruct c.
  - by eapply connectSSE_pres.
  - by eapply disconnectSSE_pres.
Qed.

End ApiPreservation.

Lemma frame_refl st : frame st st.
Proof.
  unfold frame. split_and!; try done. exists []. by rewrite app_nil_r.
Qed.

Lemma frame_trans st0 st1 st2 : frame st0 st1 → frame st1 st2 → frame st0 st2.
Proof.
  intros (?&?&?&?&ext&?&?) (?&?&?&?&ext'&?&?).
  unfold frame. split_and!; try congruence; [lia|].
  exists (ext ++ ext'). split; [|by apply Forall_app].
  rewrite app_assoc. congruence.
Qed.

Lemma frame_stable st0 : stable (frame st0).
Proof.
  intros st st' Hc (?&?&?&?&ext&?&?). apply core_fields in Hc as (?&?&?&?&?&?&?).
  unfold frame. split_and!; try congruence.
  exists ext. split; [congruence|done].
Qed.

Lemma frame_teardown st0 st h data :
  frame st0 st → frame st0 (record_emit "disconnected" data (teardown h st)).
Proof.
  intros (?&?&?&?&ext&?&?). unfold frame. split_and!; simpl; try done.
  - by rewrite length_alter.
  - exists (ext ++ [("disconnected", data)]). split.
    + rewrite app_assoc. congruence.
    + apply Forall_app. split; [done|]. by constructor.
Qed.

Lemma frame_open_new st0 st url uid :
  frame st0 st → frame st0 (open_new url uid st).
Proof.
  intros (?&?&?&?&?). unfold frame. split_and!; simpl; try done.
  rewrite length_app. lia.
Qed.

Lemma frame_api listener fuel c st r st' :
  api listener fuel c st = Some (r, st') → frame st st'.
Proof.
  apply (api_pres listener (frame st)).
  - apply frame_stable.
  - intros. by apply frame_teardown.
  - intros. by apply frame_open_new.
  - apply frame_refl.
Qed.

Lemma emit_frame listener fuel event data st r st' :
  emit listener (api listener fuel) event data st = Some (r, st') →
  r = Normal ∧ frame (record_emit event data st) st'.
Proof.
  apply (emit_pres listener (api listener fuel) (frame (record_emit event data st))
    (λ _, True) event).
  - apply frame_stable.
  - intros c s r1 s1 _ Hf Hc. apply frame_api in Hc. by eapply frame_trans.
  - intros. apply ok_action_any.
  - apply frame_refl.
Qed.

(** [emit] never completes with an exception, whatever [reenter] is. *)
Lemma emit_normal listener reenter event data st r st' :
  emit listener reenter event data st = Some (r, st') → r = Normal.
Proof.
  intros H.
  by destruct (emit_pres listener reenter (λ _, True) (λ _, True) event
    ltac:(done) ltac:(done) ltac:(intros; apply ok_action_any) data st r st' I H).
Qed.

(** ** Callbacks that do not call [connectSSE] *)

Lemma api_disconnect_quiet listener fuel st r st' :
  quiet listener →
  api listener fuel CallDisconnect st = Some (r, st') →
  r = Normal ∧ core st' = core (after_disconnect st).
Proof.
  intros Hq. revert st r st'. induction fuel as [|fuel IH]; intros st r st' H; [done|].
  simpl in H. unfold disconnectSSE in H. unfold after_disconnect.
  destruct (eventSource (hc st)) as [h|] eqn:Hes; [|by simplify_eq].
  set (s1 := teardown h (log "Disconnecting SSE" st)) in *.
  destruct (emit_pres listener (api listener fuel)
    (λ s, core s = core (record_emit "disconnected" manual s1)) (λ c, c = CallDisconnect)
    "disconnected")
    with (data := manual) (st := s1) (r := r) (st' := st')
    as [-> Hc]; try done.
  - intros s s' Hss Hs. congruence.
  - intros c s r1 s' -> Hs Hc. apply IH in Hc as [_ Hc].
    pose proof (core_fields _ _ Hs) as (_&Hnone&_). simpl in Hnone.
    unfold after_disconnect in Hc. rewrite Hnone in Hc. congruence.
  - split; [done|]. rewrite Hc. apply core_record_emit, core_teardown_log.
Qed.

Lemma api_disconnect_quiet_total listener fuel st :
  quiet listener → is_Some (api listener (S (S fuel)) CallDisconnect st).
Proof.
  intros Hq. simpl. unfold disconnectSSE.
  destruct (eventSource (hc st)) as [h|] eqn:Hes; [|done].
  set (s1 := teardown h (log "Disconnecting SSE" st)).
  destruct (emit_total listener (api listener (S fuel))
    (λ s, core s = core (record_emit "disconnected" manual s1)) (λ c, c = CallDisconnect)
    "disconnected")
    with (data := manual) (st := s1)
    as (st' & E & _); try done.
  - intros s s' Hss Hs. congruence.
  - intros c s r1 s' -> Hs Hc. apply api_disconnect_quiet in Hc as [_ Hc]; [|done].
    pose proof (core_fields _ _ Hs) as (_&Hnone&_). simpl in Hnone.
    unfold after_disconnect in Hc. rewrite Hnone in Hc. congruence.
  - intros c s -> Hs. apply core_fields in Hs as (_&Hnone&_). simpl in Hnone.
    simpl. unfold disconnectSSE. by rewrite Hnone.
Qed.

Lemma after_disconnect_log msg st :
  core (after_disconnect (log msg st)) = core (after_disconnect st).
Proof.
  unfold log, after_disconnect.
  destruct (debug (hc st)); simpl; by destruct (eventSource (hc st)).
Qed.

Lemma after_disconnect_fields st :
  eventSource (hc (after_disconnect st)) = None ∧
  (is_Some (eventSource (hc st)) → isConnected (hc (after_disconnect st)) = false).
Proof.
  unfold after_disconnect. destruct (eventSource (hc st)) eqn:E; simpl; [done|].
  split; [done|]. by intros [? ?].
Qed.

(** [connectSSE] when no [disconnected] callback re-enters it: a
    configuration error that changes nothing, or the old handle is torn
    down, the callbacks of [disconnected] run, and the new handle is
    opened. *)
Lemma connectSSE_quiet listener fuel arg st r st' :
  quiet listener →
  connectSSE listener (api listener fuel) arg st = Some (r, st') →
  (truthy_str (resolve_userId arg st) = None ∨ truthy_str (profileToken (hc st)) = None) ∧
    st' = st ∧ r ≠ Normal
  ∨ ∃ uid token st1,
      truthy_str (resolve_userId arg st) = Some uid ∧
      truthy_str (profileToken (hc st)) = Some token ∧
      r = Normal ∧
      core st1 = core (after_disconnect st) ∧
      st' = open_new (baseUrl (hc st) +:+ "/sse/notifications/" +:+ uid +:+
                      "/?token=" +:+ token) uid (log "Connecting to SSE" st1).
Proof.
  intros Hq H. unfold connectSSE in H.
  destruct (truthy_str (resolve_userId arg st)) as [uid|] eqn:Hu;
    [|left; simplify_eq; by eauto].
  destruct (truthy_str (profileToken (hc st))) as [token|] eqn:Ht;
    [|left; simplify_eq; by eauto].
  right. exists uid, token.
  destruct (eventSource (hc st)) as [h|] eqn:Hes; simpl in H.
  - destruct (disconnectSSE _ _ _) as [[r1 st1]|] eqn:E; [|done].
    apply (api_disconnect_quiet listener (S fuel)) in E as [-> Hc]; [|done].
    simpl in H. exists st1.
    assert (baseUrl (hc st1) = baseUrl (hc st)) as Hb.
    { rewrite after_disconnect_log in Hc.
      pose proof (core_fields _ _ Hc) as (Hs&_).
      apply static_fields in Hs as (->&_).
      unfold after_disconnect. by rewrite Hes. }
    rewrite Hb in H.
    split_and!; [done|done|congruence|by rewrite Hc, after_disconnect_log|].
    unfold open_new; congruence.
  - exists st. unfold after_disconnect. rewrite Hes.
    split_and!; [done|done|congruence|done|unfold open_new; congruence].
Qed.

(** An invariant of the connection is preserved by every call, and every
    call returns, when no [disconnected] callback calls [connectSSE]. *)
Section QuietInvariant.

Variable listener : Listeners.
Variable Q : State → Prop.

Hypothesis listener_quiet : quiet listener.
Hypothesis Q_stable : stable Q.
Hypothesis Q_teardown :
  ∀ st h, Q st → eventSource (hc st) = Some h →
    Q (record_emit "disconnected" manual (teardown h st)).
Hypothesis Q_open_new :
  ∀ st url uid, Q st → eventSource (hc st) = None → Q (open_new url uid st).

Lemma after_disconnect_inv st : Q st → Q (after_disconnect st).
Proof.
  intros HQ. unfold after_disconnect.
  destruct (eventSource (hc st)) eqn:E; [|done]. by apply Q_teardown.
Qed.

Lemma api_disconnect_inv fuel st r st' :
  Q st → api listener fuel CallDisconnect st = Some (r, st') → r = Normal ∧ Q st'.
Proof.
  intros HQ H. apply api_disconnect_quiet in H as [-> Hc]; [|done].
  split; [done|]. eapply Q_stable; [symmetry; exact Hc|].
  by apply after_disconnect_inv.
Qed.

Lemma disconnectSSE_quiet_inv fuel st r st' :
  Q st → disconnectSSE listener (api listener fuel) st = Some (r, st') →
  r = Normal ∧ Q st'.
Proof. apply (api_disconnect_inv (S fuel)). Qed.

Lemma connectSSE_quiet_inv fuel arg st r st' :
  Q st → connectSSE listener (api listener fuel) arg st = Some (r, st') → Q st'.
Proof.
  intros HQ H. apply connectSSE_quiet in H
    as [(_&->&_)|(uid&token&st1&_&_&_&Hcore&->)]; [done| |done].
  destruct (after_disconnect_fields st) as [Hnone _].
  pose proof (core_fields _ _ Hcore) as (_&Hes&_).
  eapply Q_stable; [symmetry; apply core_open_new_log|].
  apply Q_open_new; [|congruence].
  eapply Q_stable; [symmetry; exact Hcore|]. by apply after_disconnect_inv.
Qed.

Lemma api_quiet_inv fuel c st r st' :
  Q st → api listener fuel c st = Some (r, st') → Q st'.
Proof.
  destruct fuel as [|fuel]; [done|]. destruct c as [arg|]; simpl.
  - apply connectSSE_quiet_inv.
  - intros HQ H. by apply (api_disconnect_inv (S fuel)) in H as [_ ?].
Qed.

Lemma emit_quiet_inv fuel event data st r st' :
  Q (record_emit event data st) →
  emit listener (api listener fuel) event data st = Some (r, st') →
  r = Normal ∧ Q st'.
Proof.
  apply (emit_pres listener (api listener fuel) Q (λ _, True) event); [done| |].
  - intros c s r1 s1 _. apply api_quiet_inv.
  - intros. apply ok_action_any.
Qed.

Lemma disconnectSSE_quiet_total fuel st :
  Q st →
  ∃ st', disconnectSSE listener (api listener (S fuel)) st = Some (Normal, st') ∧ Q st'.
Proof.
  intros HQ.
  destruct (api_disconnect_quiet_total listener fuel st listener_quiet) as [[r st'] E].
  change (api listener (S (S fuel)) CallDisconnect st)
    with (disconnectSSE listener (api listener (S fuel)) st) in E.
  destruct (disconnectSSE_quiet_inv _ _ _ _ HQ E) as [-> HQ']. by exists st'.
Qed.

Lemma connectSSE_quiet_total_inv fuel arg st :
  Q st →
  ∃ r st', connectSSE listener (api listener (S fuel)) arg st = Some (r, st') ∧ Q st'.
Proof.
  intros HQ.
  assert (is_Some (connectSSE listener (api listener (S fuel)) arg st)) as [[r st'] E].
  { unfold connectSSE.
    destruct (truthy_str (resolve_userId arg st)) as [uid|]; [|done].
    destruct (truthy_str (profileToken (hc st))) as [token|]; [|done].
    destruct (eventSource (hc st)) as [h|]; [|done].
    destruct (disconnectSSE_quiet_total fuel
      (log "SSE already connected, disconnecting first" st)) as (st1 & -> & _);
      [by apply stable_log|done]. }
  exists r, st'. split; [done|]. by eapply connectSSE_quiet_inv.
Qed.

Lemma api_quiet_total fuel c st :
  Q st → is_Some (api listener (S (S fuel)) c st).
Proof.
  intros HQ. destruct c as [arg|].
  - destruct (connectSSE_quiet_total_inv fuel arg st HQ) as (r & st' & E & _).
    exists (r, st'). exact E.
  - destruct (disconnectSSE_quiet_total fuel st HQ) as (st' & E & _).
    exists (Normal, st'). exact E.
Qed.

Lemma emit_quiet_total fuel event data st :
  Q (record_emit event data st) →
  ∃ st', emit listener (api listener (S (S fuel))) event data st = Some (Normal, st') ∧ Q st'.
Proof.
  apply (emit_total listener (api listener (S (S fuel))) Q (λ _, True) event); [done| | |].
  - intros c s r1 s1 _. apply api_quiet_inv.
  - intros. apply ok_action_any.
  - intros c s _. apply api_quiet_total.
Qed.

End QuietInvariant.

(** Termination alone. *)
Lemma disconnectSSE_quiet_returns listener fuel st :
  quiet listener →
  ∃ st', disconnectSSE listener (api listener (S fuel)) st = Some (Normal, st').
Proof.
  intros Hq.
  destruct (disconnectSSE_quiet_total listener (λ _, True) Hq ltac:(done) ltac:(done)
    fuel st I) as (st' & E & _).
  by exists st'.
Qed.

Lemma connectSSE_quiet_total listener fuel arg st :
  quiet listener →
  is_Some (connectSSE listener (api listener (S fuel)) arg st).
Proof.
  intros Hq.
  destruct (connectSSE_quiet_total_inv listener (λ _, True) Hq ltac:(done) ltac:(done)
    ltac:(done) fuel arg st I) as (r & st' & E & _).
  by exists (r, st').
Qed.

Lemma emit_quiet_returns listener fuel event data st :
  quiet listener →
  ∃ st', emit listener (api listener (S (S fuel))) event data st = Some (Normal, st').
Proof.
  intros Hq.
  destruct (emit_quiet_total listener (λ _, True) Hq ltac:(done) ltac:(done) ltac:(done)
    fuel event data st I) as (st' & E & _).
  by exists st'.
Qed.


(** ** Configuration errors of [connectSSE] *)

(** C7. [connectSSE] called without a user identifier (no argument and no
    configured [userId], or an empty one) or without a [profileToken]
    completes at once with a configuration error; the state it leaves is
    the state it was called in, so no [EventSource] has been created and no
    field of the client has changed. *)
Theorem connectSSE_configuration_error
    (listener : Listeners) (reenter : ApiCall → State → Outcome)
    (arg : option string) (st : State) :
  truthy_str (resolve_userId arg st) = None ∨ truthy_str (profileToken (hc st)) = None →
  ∃ e, ConfigurationError e ∧
       connectSSE listener reenter arg st = Some (Throw e, st).
Proof.
  intros [Hu|Ht]; unfold connectSSE, ConfigurationError.
  - rewrite Hu. eauto.
  - destruct (truthy_str (resolve_userId arg st)) as [uid|]; [|eauto].
    rewrite Ht. eauto.
Qed.

(** ** The message handler *)

(** C9. A payload that [JSON.parse] rejects is dropped: the handler
    completes normally, and nothing but the console has changed, so no
    event was published, no callback was called, and the connection state
    and the transport handles are as before. *)
Theorem onmessage_unparseable
    (JSON_parse : string → option JsValue)
    (listener : Listeners) (reenter : ApiCall → State → Outcome)
    (text : string) (st : State) :
  JSON_parse text = None →
  ∃ st', onmessage JSON_parse listener reenter text st = Some (Normal, st') ∧
         hc st' = hc st ∧
         emitted (env st') = emitted (env st) ∧
         invoked (env st') = invoked (env st) ∧
         sources (env st') = sources (env st) ∧
         timers (env st') = timers (env st) ∧
         getStatus st' = getStatus st.
Proof.
  intros Hp. unfold onmessage. rewrite Hp. simpl.
  eexists. split; [done|]. unfold log. by destruct (debug (hc st)).
Qed.

Lemma tryCatch_emit listener reenter event data st handler :
  tryCatch (emit listener reenter event data st) handler
  = emit listener reenter event data st.
Proof.
  destruct (emit _ _ _ _ _) as [[[|e] s]|] eqn:E; try done.
  by apply emit_normal in E.
Qed.

(** The handler on a parsed message: one [emit] as the dispatch table says,
    or nothing at all. *)
Lemma onmessage_cases JSON_parse listener reenter text data st :
  JSON_parse text = Some data →
  match dispatch_table data with
  | (event, payload) :: _ =>
    dispatch_table data = [(event, payload)] ∧
    onmessage JSON_parse listener reenter text st
    = emit listener reenter event payload (log "SSE message received" st)
  | [] =>
    ∃ st', onmessage JSON_parse listener reenter text st = Some (Normal, st') ∧
           core st' = core st ∧ hc st' = hc st ∧
           invoked (env st') = invoked (env st)
  end.
Proof.
  intros Hp. unfold onmessage, dispatch_table, discriminant. rewrite Hp.
  assert (∀ st1, st1 = log "SSE message received" st →
    core st1 = core st ∧ hc st1 = hc st ∧ invoked (env st1) = invoked (env st)) as Hlog.
  { intros st1 ->. rewrite core_log.
    by destruct (log_fields "SSE message received" st) as (?&?&?&?&?). }
  destruct (get_prop data "type") as [ty|] eqn:Hty.
  - destruct ty as [| |b|n|s|items|fields]; simpl;
      try (eexists; split; [done|]; by apply Hlog).
    destruct (String.eqb_spec s "notification") as [->|Hn1].
    { rewrite decide_True by done. by rewrite tryCatch_emit. }
    rewrite (decide_False (P := s = "notification")) by done.
    destruct (String.eqb_spec s "unread_count") as [->|Hn2].
    { rewrite decide_True by done. by rewrite tryCatch_emit. }
    rewrite (decide_False (P := s = "unread_count")) by done.
    destruct (String.eqb_spec s "connected") as [->|Hn3].
    { rewrite decide_True by done. by rewrite tryCatch_emit. }
    rewrite (decide_False (P := s = "connected")) by done.
    simpl. eexists; split; [done|]. by apply Hlog.
  - simpl. eexists; split; [done|].
    destruct (Hlog _ eq_refl) as (Hc & Hh & Hi).
    rewrite core_log.
    destruct (log_fields "Error parsing SSE message" (log "SSE message received" st))
      as (->&_&_&_&->).
    done.
Qed.

(** C8. Dispatch of a parsed message follows its discriminant: the handler
    completes normally and the events published are the one the dispatch
    table prescribes ([notification] with the message, [unreadCount] with
    its [count], [connected] with the message, or none), followed by nothing
    but [disconnected] events of callbacks that disconnect re-entrantly.
    When the table prescribes nothing, nothing is published and no callback
    is called. The handler returns whenever no [disconnected] callback
    calls [connectSSE]. *)
Theorem onmessage_dispatch
    (JSON_parse : string → option JsValue)
    (listener : Listeners)
    (fuel : nat) (text : string) (data : JsValue) (st : State) :
  JSON_parse text = Some data →
  (∀ r st',
     onmessage JSON_parse listener (api listener fuel) text st = Some (r, st') →
     r = Normal ∧
     ∃ ext, emitted (env st') = emitted (env st) ++ dispatch_table data ++ ext ∧
            Forall (λ e, e.1 = "disconnected") ext ∧
            (dispatch_table data = [] →
             ext = [] ∧ invoked (env st') = invoked (env st) ∧ hc st' = hc st)) ∧
  (dispatch_table data = [] →
   is_Some (onmessage JSON_parse listener (api listener fuel) text st)) ∧
  (quiet listener →
   is_Some (onmessage JSON_parse listener (api listener (S (S fuel))) text st)).
Proof.
  intros Hp. split_and!.
  - intros r st' H.
    pose proof (onmessage_cases JSON_parse listener (api listener fuel) text data st Hp) as Hc.
    destruct (dispatch_table data) as [|[event payload] rest].
    + destruct Hc as (st1 & E & Hcore & Hhc & Hinv). rewrite E in H.
      apply core_fields in Hcore as (_&_&_&_&_&_&Hem). simplify_eq.
      split; [done|]. exists []. by rewrite Hem, !app_nil_r.
    + destruct Hc as [Hd E]. simplify_eq. rewrite E in H.
      apply emit_frame in H as [-> (_&_&_&_&ext&Hem&Hext)].
      split; [done|]. exists ext. split_and!; [|done..].
      rewrite Hem. simpl.
      destruct (log_fields "SSE message received" st) as (_&_&_&->&_).
      by rewrite <- app_assoc.
  - intros Hd.
    pose proof (onmessage_cases JSON_parse listener (api listener fuel) text data st Hp) as Hc.
    rewrite Hd in Hc. destruct Hc as (st1 & -> & _). done.
  - intros Hq.
    pose proof (onmessage_cases JSON_parse listener (api listener (S (S fuel))) text data st Hp)
      as Hc.
    destruct (dispatch_table data) as [|[event payload] rest].
    + destruct Hc as (st1 & -> & _). done.
    + destruct Hc as [_ ->].
      destruct (emit_quiet_returns listener fuel event payload
        (log "SSE message received" st) Hq) as (st1 & ->).
      done.
Qed.

(** ** Publishing to callbacks that leave the event's list in place *)

Lemma keeps_list_until_throw event body :
  Forall (keeps_list event) body → keeps_until_throw event body.
Proof. induction 1 as [|[] body]; simpl; auto. Qed.

Lemma still_registered_log event l msg st :
  still_registered event l st → still_registered event l (log msg st).
Proof. unfold still_registered. by destruct (log_fields msg st) as (->&_). Qed.

Lemma on_fields event cb st :
  listeners (hc (on event cb st))
  = <[event := default [] (listeners (hc st) !! event) ++ [cb]]> (listeners (hc st)) ∧
  invoked (env (on event cb st)) = invoked (env st).
Proof. unfold on. by destruct (log_fields ("Listener added for event: " +:+ event)
  (on_hc (set_listeners (<[event := default [] (listeners (hc st) !! event) ++ [cb]]>
     (listeners (hc st)))) st)) as (->&_&_&_&->). Qed.

Lemma off_other event event' cb st :
  event' ≠ event →
  listeners (hc (off event' cb st)) !! event = listeners (hc st) !! event ∧
  invoked (env (off event' cb st)) = invoked (env st).
Proof.
  intros Hne. unfold off.
  destruct (listeners (hc st) !! event') as [l|]; [|done].
  destruct (indexOf cb l) as [i|]; [|done].
  match goal with |- context [log ?m ?s] => destruct (log_fields m s) as (->&_&_&_&->) end.
  simpl. by rewrite lookup_insert_ne.
Qed.

Lemma run_actions_keeps reenter event l body st :
  keeps_until_throw event body → still_registered event l st →
  ∃ r st', run_actions reenter body st = Some (r, st') ∧
           invoked (env st') = invoked (env st) ∧
           still_registered event l st'.
Proof.
  revert st. induction body as [|a body IH]; simpl; intros st Hb Hl; [by eauto|].
  destruct a as [event' cb|event' cb|e|c]; simpl.
  - destruct Hb as [_ Hb].
    destruct (on_fields event' cb st) as [Hls Hinv].
    destruct (IH (on event' cb st) Hb) as (r & st' & E & Hi & Hl').
    { destruct Hl as [later Hl]. unfold still_registered. rewrite Hls.
      destruct (decide (event' = event)) as [->|Hne].
      - rewrite lookup_insert_eq, Hl. simpl. exists (later ++ [cb]). by rewrite app_assoc.
      - rewrite lookup_insert_ne by done. by exists later. }
    exists r, st'. split_and!; [done|congruence|done].
  - destruct Hb as [Hne Hb].
    destruct (off_other event event' cb st Hne) as [Hls Hinv].
    destruct (IH (off event' cb st) Hb) as (r & st' & E & Hi & Hl').
    { unfold still_registered. by rewrite Hls. }
    exists r, st'. split_and!; [done|congruence|done].
  - by eauto.
  - by destruct Hb.
Qed.

Lemma forEach_visits_all listener reenter event data l n k st :
  (∀ cb st', cb ∈ l → keeps_until_throw event (listener cb event data st')) →
  still_registered event l st → k + n = length l →
  ∃ st', forEach listener reenter n k event data st = Some (Normal, st') ∧
         invoked (env st')
         = invoked (env st) ++ map (λ cb, (cb, event, data)) (drop k l).
Proof.
  intros Hl. revert k st. induction n as [|n IH]; simpl; intros k st Hreg Hk.
  - exists st. split; [done|]. rewrite drop_ge by lia. by rewrite app_nil_r.
  - destruct Hreg as [later Hreg]. rewrite Hreg. simpl.
    destruct (lookup_lt_is_Some_2 l k ltac:(lia)) as [cb Hcb].
    rewrite (lookup_app_l_Some _ _ _ _ Hcb).
    destruct (run_actions_keeps reenter event l (listener cb event data st)
      (record_invoke cb event data st)) as (r & st1 & E & Hi & Hreg1).
    { apply Hl. by eapply list_elem_of_lookup_2. }
    { by exists later. }
    assert (∃ st2, guarded_call listener reenter cb event data st = Some (Normal, st2) ∧
                   invoked (env st2) = invoked (env st) ++ [(cb, event, data)] ∧
                   still_registered event l st2) as (st2 & -> & Hi2 & Hreg2).
    { unfold guarded_call, call_listener. rewrite E. destruct r; simpl.
      - by exists st1.
      - eexists. split; [done|]. split; [|by apply still_registered_log].
        match goal with |- context [log ?m ?s] => destruct (log_fields m s) as (_&_&_&_&->) end.
        done. }
    simpl. destruct (IH (S k) st2 Hreg2 ltac:(lia)) as (st' & -> & Hi').
    exists st'. split; [done|]. rewrite Hi', Hi2, <- app_assoc. simpl.
    by rewrite (drop_S _ _ _ Hcb).
Qed.

Lemma emit_visits_all listener reenter event data l st :
  listeners (hc st) !! event = Some l →
  (∀ cb st', cb ∈ l → keeps_until_throw event (listener cb event data st')) →
  ∃ st', emit listener reenter event data st = Some (Normal, st') ∧
         invoked (env st') = invoked (env st) ++ map (λ cb, (cb, event, data)) l.
Proof.
  intros Hreg Hl. unfold emit. simpl. rewrite Hreg.
  destruct (forEach_visits_all listener reenter event data l (length l) 0
    (record_emit event data st) Hl) as (st' & E & Hi); [|done|by exists st'].
  exists []. by rewrite app_nil_r.
Qed.


(** C4, as the code has it. [emit] walks the live list, so the claim holds
    for a publish during which the callbacks only subscribe (to any event),
    unsubscribe from events other than the published one, or throw: the
    publish returns, and the callbacks it has called are exactly those
    registered when it began, each once, in registration order. *)
Theorem emit_exactly_once_in_order
    (listener : Listeners) (reenter : ApiCall → State → Outcome)
    (event : string) (data : JsValue) (st : State) (l : list cbid) :
  listeners (hc st) !! event = Some l →
  (∀ cb st', cb ∈ l → Forall (keeps_list event) (listener cb event data st')) →
  ∃ st', emit listener reenter event data st = Some (Normal, st') ∧
         invoked (env st') = invoked (env st) ++ map (λ cb, (cb, event, data)) l.
Proof.
  intros Hreg Hl. apply emit_visits_all; [done|].
  intros cb st' Hcb. by apply keeps_list_until_throw, Hl.
Qed.

(** ** What a successful [connectSSE] leaves *)

Lemma connectSSE_opens listener fuel arg st r st' uid token :
  truthy_str (resolve_userId arg st) = Some uid →
  truthy_str (profileToken (hc st)) = Some token →
  connectSSE listener (api listener fuel) arg st = Some (r, st') →
  r = Normal ∧
  ∃ st1, frame st st1 ∧
         st' = open_new (baseUrl (hc st) +:+ "/sse/notifications/" +:+ uid +:+
                         "/?token=" +:+ token) uid (log "Connecting to SSE" st1) ∧
         (eventSource (hc st) = None → st1 = st).
Proof.
  unfold connectSSE. intros -> -> H.
  destruct (eventSource (hc st)) as [h|] eqn:Hes; simpl in H.
  - destruct (disconnectSSE _ _ _) as [[r1 st1]|] eqn:E; [|done].
    apply (disconnectSSE_pres listener (frame st)) in E as [-> Hf].
    + simpl in H. simplify_eq. split; [done|]. exists st1. split; [|split; [|done]].
      * done.
      * destruct Hf as (Hs&_). apply static_fields in Hs as (->&_). done.
    + apply frame_stable.
    + intros. by apply frame_teardown.
    + intros c s r2 s2 Hfs Hc. apply frame_api in Hc. by eapply frame_trans.
    + apply (frame_stable st st); [by rewrite core_log|apply frame_refl].
  - simplify_eq. split; [done|]. exists st. split; [apply frame_refl|done].
Qed.

Lemma disconnectSSE_frame listener fuel st r st' :
  disconnectSSE listener (api listener fuel) st = Some (r, st') →
  r = Normal ∧ frame st st'.
Proof.
  intros H. split; [|by apply (frame_api listener (S fuel) CallDisconnect st r)].
  apply (disconnectSSE_pres listener (λ _, True)) in H as [-> _]; done.
Qed.

Lemma truthy_str_Some s : s ≠ EmptyString → truthy_str (Some s) = Some s.
Proof. intros Hs. simpl. by destruct (String.eqb_spec s EmptyString). Qed.

Lemma live_source_open_new url uid st :
  live_source (length (sources (env st))) (open_new url uid st)
  = Some {| es_url := url; es_userId := uid; es_closed := false |}.
Proof.
  unfold live_source, open_new. simpl.
  rewrite lookup_app_r by lia. by rewrite Nat.sub_diag.
Qed.

(** C1, as the code has it. [disconnectSSE] leaves the timer queue alone:
    when the application disconnects after a transport error and the timer
    of the reconnect scheduled by that error fires afterwards, the reconnect
    runs [connectSSE] for the same user and opens a transport handle that
    did not exist before, which becomes the client's handle. Both turns
    return whenever no [disconnected] callback calls [connectSSE]. *)
Theorem pending_reconnect_survives_disconnect
    (JSON_parse : string → option JsValue)
    (listener : Listeners)
    (fuel : nat) (st : State) (i : nat) (t : Timer) :
  pending_timer i st = Some t →
  tm_userId t ≠ EmptyString →
  is_Some (truthy_str (profileToken (hc st))) →
  (∀ r1 st1 r2 st2,
     exec_turn JSON_parse listener fuel AppDisconnect st = Some (r1, st1) →
     exec_turn JSON_parse listener fuel (TimerFire i) st1 = Some (r2, st2) →
     r2 = Normal ∧
     ∃ h s, length (sources (env st1)) ≤ h ∧
            eventSource (hc st2) = Some h ∧
            live_source h st2 = Some s ∧
            es_userId s = tm_userId t) ∧
  (quiet listener →
   ∃ r1 st1 r2 st2,
     exec_turn JSON_parse listener (S (S fuel)) AppDisconnect st = Some (r1, st1) ∧
     exec_turn JSON_parse listener (S (S fuel)) (TimerFire i) st1 = Some (r2, st2)).
Proof.
  intros Hpend Huid [token Htok]. split.
  - intros r1 st1 r2 st2 H1 H2. simpl in H1, H2.
    apply disconnectSSE_frame in H1 as [-> (Hs&_&Ht&_)].
    assert (pending_timer i st1 = Some t) as Hpend1.
    { unfold pending_timer in *. by rewrite Ht. }
    rewrite Hpend1 in H2.
    apply static_fields in Hs as (_&Htk&_).
    eapply (connectSSE_opens _ _ _ _ _ _ (tm_userId t) token) in H2
      as [-> (st1' & Hf & -> & _)]; [|by apply truthy_str_Some|simpl; congruence].
    split; [done|]. eexists _, _. split_and!; [|done|apply live_source_open_new|done].
    destruct Hf as (_&_&_&Hlen&_). simpl in Hlen.
    by destruct (log_fields "Connecting to SSE" st1') as (_&->&_).
  - intros Hq.
    destruct (disconnectSSE_quiet_returns listener (S fuel) st Hq) as (st1 & E).
    exists Normal, st1.
    assert (is_Some (exec_turn JSON_parse listener (S (S fuel)) (TimerFire i) st1))
      as [[r2 st2] E2].
    { unfold exec_turn. destruct (pending_timer i st1); [|done].
      by apply connectSSE_quiet_total. }
    exists r2, st2. split; [exact E|exact E2].
Qed.

(** ** The reconnect counter *)

Lemma frame_counters st0 st : frame st0 st → counters st = counters st0.
Proof.
  intros (Hs&Ha&Ht&_). apply static_fields in Hs as (_&_&_&_&_&Hm).
  unfold counters. by rewrite Hm, Ha, Ht.
Qed.

Lemma core_counters st0 st : core st = core st0 → counters st = counters st0.
Proof.
  intros Hc. apply core_fields in Hc as (Hs&_&Ha&_&_&Ht&_).
  apply static_fields in Hs as (_&_&_&_&_&Hm).
  unfold counters. by rewrite Hm, Ha, Ht.
Qed.

Lemma emit_counters listener fuel event data st r st' :
  emit listener (api listener fuel) event data st = Some (r, st') →
  r = Normal ∧ counters st' = counters st.
Proof.
  intros H. apply emit_frame in H as [-> Hf]. split; [done|].
  by rewrite (frame_counters _ _ Hf).
Qed.

Lemma onmessage_counters JSON_parse listener fuel text st r st' :
  onmessage JSON_parse listener (api listener fuel) text st = Some (r, st') →
  counters st' = counters st.
Proof.
  intros H. destruct (JSON_parse text) as [data|] eqn:Hp.
  - pose proof (onmessage_cases JSON_parse listener (api listener fuel) text data st Hp) as Hc.
    destruct (dispatch_table data) as [|[event payload] rest].
    + destruct Hc as (st1 & E & Hcore & _). rewrite E in H.
      assert (st1 = st') as <- by congruence. by apply core_counters.
    + destruct Hc as [_ E]. rewrite E in H. apply emit_counters in H as [_ ->].
      by apply core_counters, core_log.
  - unfold onmessage in H. rewrite Hp in H. simpl in H. simplify_eq.
    by apply core_counters, core_log.
Qed.

Lemma onopen_counters listener fuel uid st r st' :
  onopen listener (api listener fuel) uid st = Some (r, st') →
  counters st' = (maxReconnectAttempts (hc st), 0%Z, length (timers (env st))).
Proof.
  unfold onopen. intros H. apply emit_counters in H as [_ ->].
  unfold counters. simpl.
  by destruct (log_fields "SSE connection opened" st) as (->&_&->&_).
Qed.

Lemma onerror_counters listener fuel uid error st r st' :
  onerror listener (api listener fuel) uid error st = Some (r, st') →
  counters st' =
    if (reconnectAttempts (hc st) <? maxReconnectAttempts (hc st))%Z
    then (maxReconnectAttempts (hc st), (reconnectAttempts (hc st) + 1)%Z,
          S (length (timers (env st))))
    else counters st.
Proof.
  unfold onerror. intros H.
  destruct (emit _ _ "error" _ _) as [[r1 st1]|] eqn:E1; [|done].
  apply emit_counters in E1 as [-> H1]. simpl in H.
  destruct (emit _ _ "disconnected" _ _) as [[r2 st2]|] eqn:E2; [|done].
  apply emit_counters in E2 as [-> H2]. simpl in H.
  assert (counters st2 = counters st) as Hc.
  { rewrite H2, H1. unfold counters. simpl.
    by destruct (log_fields "SSE error" st) as (->&_&->&_). }
  unfold counters in Hc. injection Hc as Hm Ha Ht.
  rewrite Hm, Ha in H.
  destruct (_ <? _)%Z; simplify_eq.
  - unfold counters, setTimeout. simpl.
    match goal with |- context [log ?m ?s] => destruct (log_fields m s) as (->&_&->&_) end.
    simpl. rewrite length_app. simpl. f_equal; [by f_equal|lia].
  - unfold counters.
    match goal with |- context [log ?m ?s] => destruct (log_fields m s) as (->&_&->&_) end.
    f_equal; [by f_equal|done].
Qed.

Lemma turn_counters JSON_parse listener fuel t st r st' :
  exec_turn JSON_parse listener fuel t st = Some (r, st') →
  counters st' = next_counters t st.
Proof.
  unfold next_counters. destruct t as [event cb|event cb|arg| |h|h text|h error|i]; simpl.
  - intros [= <- <-]. apply core_counters, core_on.
  - intros [= <- <-]. apply core_counters, core_off.
  - intros H. by apply (frame_api listener (S fuel) (CallConnect arg)), frame_counters in H.
  - intros H. by apply (frame_api listener (S fuel) CallDisconnect), frame_counters in H.
  - destruct (live_source h st) as [s|].
    + rewrite bool_decide_eq_true_2 by done. apply onopen_counters.
    + rewrite bool_decide_eq_false_2 by (by intros [? ?]). by intros [= <- <-].
  - destruct (live_source h st) as [s|]; [apply onmessage_counters|by intros [= <- <-]].
  - destruct (live_source h st) as [s|].
    + rewrite bool_decide_eq_true_2 by done. intros H.
      apply onerror_counters in H. rewrite H. unfold counters. by destruct (_ <? _)%Z.
    + rewrite bool_decide_eq_false_2 by (by intros [? ?]). by intros [= <- <-].
  - destruct (pending_timer i st) as [t|]; [|by intros [= <- <-]].
    intros H. apply (frame_api listener (S fuel) (CallConnect (Some (tm_userId t)))),
      frame_counters in H.
    rewrite H. unfold counters. simpl. by rewrite length_alter.
Qed.

(** A run without a delivered [open]: the counter climbs by one per
    delivered error until it reaches the maximum, and one timer is scheduled
    per increment. *)
Lemma run_counters JSON_parse listener fuel ts st st' :
  run JSON_parse listener fuel ts st = Some st' →
  count_turns open_delivered JSON_parse listener fuel ts st = 0 →
  (0 ≤ reconnectAttempts (hc st) ≤ maxReconnectAttempts (hc st))%Z →
  let k := count_turns error_delivered JSON_parse listener fuel ts st in
  maxReconnectAttempts (hc st') = maxReconnectAttempts (hc st) ∧
  reconnectAttempts (hc st')
  = Z.min (maxReconnectAttempts (hc st)) (reconnectAttempts (hc st) + Z.of_nat k) ∧
  Z.of_nat (length (timers (env st')))
  = (Z.of_nat (length (timers (env st)))
     + (reconnectAttempts (hc st') - reconnectAttempts (hc st)))%Z.
Proof.
  revert st. induction ts as [|t ts IH]; simpl; intros st Hrun Hopen Hr.
  - simplify_eq. split_and!; [done|lia|lia].
  - destruct (exec_turn JSON_parse listener fuel t st) as [[r st1]|] eqn:E; [|done].
    pose proof (turn_counters _ _ _ _ _ _ _ E) as Hc.
    unfold next_counters, counters in Hc.
    destruct (open_delivered t st); [done|]. simpl in Hopen.
    destruct (error_delivered t st).
    + destruct (Z.ltb_spec (reconnectAttempts (hc st)) (maxReconnectAttempts (hc st)));
        injection Hc as Hm Ha Ht;
        destruct (IH st1 Hrun Hopen ltac:(lia)) as (Hm' & Ha' & Ht');
        rewrite Hm', Ht', Ha', Hm, Ha, Ht; split_and!; lia.
    + injection Hc as Hm Ha Ht.
      destruct (IH st1 Hrun Hopen ltac:(lia)) as (Hm' & Ha' & Ht').
      rewrite Hm', Ht', Ha', Hm, Ha, Ht. split_and!; lia.
Qed.

Lemma run_counter_bounds JSON_parse listener fuel ts st st' :
  run JSON_parse listener fuel ts st = Some st' →
  (0 ≤ reconnectAttempts (hc st) ≤ maxReconnectAttempts (hc st))%Z →
  maxReconnectAttempts (hc st') = maxReconnectAttempts (hc st) ∧
  (0 ≤ reconnectAttempts (hc st') ≤ maxReconnectAttempts (hc st))%Z.
Proof.
  revert st. induction ts as [|t ts IH]; simpl; intros st Hrun Hr.
  - by simplify_eq.
  - destruct (exec_turn JSON_parse listener fuel t st) as [[r st1]|] eqn:E; [|done].
    pose proof (turn_counters _ _ _ _ _ _ _ E) as Hc.
    unfold next_counters, counters in Hc.
    destruct (open_delivered t st); [|destruct (error_delivered t st);
      [destruct (Z.ltb_spec (reconnectAttempts (hc st)) (maxReconnectAttempts (hc st)))|]];
      injection Hc as Hm Ha Ht;
      destruct (IH st1 Hrun ltac:(lia)) as (Hm' & Ha'); split; lia.
Qed.

Lemma construct_counters cfg :
  counters (construct cfg) = (or_num (cfg_maxReconnectAttempts cfg) 10, 0%Z, 0).
Proof.
  unfold construct, counters.
  by match goal with |- context [log ?m ?s] => destruct (log_fields m s) as (->&_&->&_) end.
Qed.

(** C5. With [maxReconnectAttempts] configured to [N ≥ 1], in every state
    the client can reach the reconnect counter lies between 0 and [N]; a
    delivered [open] sets it to 0; and starting from a state where it is 0,
    once [N] transport errors have been delivered with no [open] in
    between, [getStatus().reconnectAttempts] is [N], exactly [N] reconnects
    have been scheduled, and as long as no [open] is delivered no further
    reconnect is scheduled and the counter stays at [N]. *)
Theorem reconnect_attempts_bounded
    (JSON_parse : string → option JsValue)
    (listener : Listeners)
    (fuel : nat) (cfg : Config) (N : Z) (ts0 : list Turn) (st0 : State) :
  (1 ≤ N)%Z →
  cfg_maxReconnectAttempts cfg = Some N →
  run JSON_parse listener fuel ts0 (construct cfg) = Some st0 →
  (0 ≤ st_reconnectAttempts (getStatus st0) ≤ N)%Z ∧
  (∀ h r st1,
     is_Some (live_source h st0) →
     exec_turn JSON_parse listener fuel (EsOpen h) st0 = Some (r, st1) →
     st_reconnectAttempts (getStatus st1) = 0%Z) ∧
  (st_reconnectAttempts (getStatus st0) = 0%Z →
   ∀ ts st,
     run JSON_parse listener fuel ts st0 = Some st →
     count_turns open_delivered JSON_parse listener fuel ts st0 = 0 →
     count_turns error_delivered JSON_parse listener fuel ts st0 = Z.to_nat N →
     st_reconnectAttempts (getStatus st) = N ∧
     length (timers (env st)) = length (timers (env st0)) + Z.to_nat N ∧
     ∀ ts' st',
       run JSON_parse listener fuel ts' st = Some st' →
       count_turns open_delivered JSON_parse listener fuel ts' st = 0 →
       st_reconnectAttempts (getStatus st') = N ∧
       length (timers (env st')) = length (timers (env st))).
Proof.
  intros HN Hcfg Hrun0.
  pose proof (construct_counters cfg) as Hc. rewrite Hcfg in Hc.
  unfold counters, or_num in Hc. destruct (Z.eqb_spec N 0) as [?|_]; [lia|].
  injection Hc as Hm Ha _.
  destruct (run_counter_bounds _ _ _ _ _ _ Hrun0 ltac:(lia)) as [Hm0 Ha0].
  rewrite Hm in Hm0, Ha0.
  split; [exact Ha0|split].
  - intros h r st1 [s Hs] H. apply turn_counters in H.
    unfold next_counters, counters in H. simpl in H. rewrite Hs in H.
    rewrite bool_decide_eq_true_2 in H by done. by injection H.
  - intros Hzero ts st Hrun Hopen Herr. simpl in Hzero |- *.
    destruct (run_counters _ _ _ _ _ _ Hrun Hopen ltac:(lia)) as (Hm1 & Ha1 & Ht1).
    simpl in Ha1. rewrite Herr, Hm0, Hzero in Ha1. rewrite Hzero in Ht1.
    assert (reconnectAttempts (hc st) = N) as HaN by lia.
    split; [done|split; [lia|]].
    intros ts' st' Hrun' Hopen'.
    destruct (run_counters _ _ _ _ _ _ Hrun' Hopen' ltac:(lia)) as (Hm2 & Ha2 & Ht2).
    simpl in Ha2. split; lia.
Qed.

(** ** One handle at a time *)

Lemma consistent_ext st st' :
  eventSource (hc st') = eventSource (hc st) →
  isConnected (hc st') = isConnected (hc st) →
  sources (env st') = sources (env st) →
  consistent st → consistent st'.
Proof.
  unfold consistent, handles_owned, connected_has_handle.
  intros -> -> ->. done.
Qed.

Lemma consistent_stable : stable consistent.
Proof.
  intros st st' Hc. apply core_fields in Hc as (_&?&_&?&?&_).
  by apply consistent_ext.
Qed.

Lemma consistent_teardown st h :
  consistent st → eventSource (hc st) = Some h →
  consistent (record_emit "disconnected" manual (teardown h st)).
Proof.
  intros [Hown _] Hes. split; [|done].
  intros h' s'. simpl. intros Hl Hopen. exfalso.
  destruct (decide (h' = h)) as [->|Hne].
  - rewrite list_lookup_alter_eq in Hl.
    destruct (sources (env st) !! h) as [s|]; simpl in Hl; [|done].
    injection Hl as <-. done.
  - rewrite list_lookup_alter_ne in Hl by done.
    specialize (Hown h' s' Hl Hopen). congruence.
Qed.

Lemma consistent_open_new st url uid :
  consistent st → eventSource (hc st) = None → consistent (open_new url uid st).
Proof.
  intros [Hown _] Hes. split; [|by intros _; eexists].
  intros h s. simpl. intros Hl Hopen.
  destruct (decide (h < length (sources (env st)))) as [Hlt|Hge].
  - rewrite lookup_app_l in Hl by done. specialize (Hown h s Hl Hopen). congruence.
  - apply lookup_lt_Some in Hl as Hlen. rewrite length_app in Hlen. simpl in Hlen.
    f_equal. lia.
Qed.

Section QuietConsistency.

Variable JSON_parse : string → option JsValue.
Variable listener : Listeners.
Hypothesis listener_quiet : quiet listener.

Lemma connectSSE_consistent fuel arg st r st' :
  consistent st →
  connectSSE listener (api listener fuel) arg st = Some (r, st') → consistent st'.
Proof.
  apply (connectSSE_quiet_inv listener consistent listener_quiet consistent_stable).
  - intros. by apply consistent_teardown.
  - intros. by apply consistent_open_new.
Qed.

Lemma emit_consistent fuel event data st r st' :
  consistent st →
  emit listener (api listener fuel) event data st = Some (r, st') →
  r = Normal ∧ consistent st'.
Proof.
  intros Hc. apply (emit_quiet_inv listener consistent listener_quiet consistent_stable).
  - intros. by apply consistent_teardown.
  - intros. by apply consistent_open_new.
  - by eapply consistent_ext.
Qed.

Lemma exec_turn_consistent fuel t st r st' :
  consistent st →
  exec_turn JSON_parse listener fuel t st = Some (r, st') → consistent st'.
Proof.
  intros Hc. destruct t as [event cb|event cb|arg| |h|h text|h error|i]; simpl.
  - intros [= <- <-]. eapply consistent_stable; [|done]. by rewrite core_on.
  - intros [= <- <-]. eapply consistent_stable; [|done]. by rewrite core_off.
  - by apply connectSSE_consistent.
  - intros H. eapply (disconnectSSE_quiet_inv listener consistent); try done.
    + apply consistent_stable.
    + intros. by apply consistent_teardown.
  - destruct (live_source h st) as [s|] eqn:Hl; [|by intros [= <- <-]].
    unfold onopen. intros H. eapply emit_consistent in H as [_ ?]; [done|].
    destruct Hc as [Hown _].
    destruct (log_fields "SSE connection opened" st) as (Hh&Hs&_).
    split.
    + intros h' s'. simpl. rewrite Hh, Hs. apply Hown.
    + intros _. simpl. rewrite Hh. unfold live_source in Hl.
      destruct (sources (env st) !! h) as [s0|] eqn:E; [|done].
      destruct (es_closed s0) eqn:Ec; [done|]. rewrite (Hown h s0 E Ec). by eexists.
  - destruct (live_source h st) as [s|] eqn:Hl; [|by intros [= <- <-]].
    intros H. destruct (JSON_parse text) as [data|] eqn:Hp.
    + pose proof (onmessage_cases JSON_parse listener (api listener fuel) text data st Hp) as Hcs.
      destruct (dispatch_table data) as [|[event payload] rest].
      * destruct Hcs as (st1 & E & Hcore & _). rewrite E in H.
        assert (st1 = st') as <- by congruence.
        eapply consistent_stable; [symmetry; exact Hcore|done].
      * destruct Hcs as [_ E]. rewrite E in H.
        eapply emit_consistent in H as [_ ?]; [done|].
        eapply consistent_stable; [|exact Hc]. by rewrite core_log.
    + unfold onmessage in H. rewrite Hp in H. simpl in H.
      assert (log "Error parsing SSE message" st = st') as <- by congruence.
      eapply consistent_stable; [|exact Hc]. by rewrite core_log.
  - destruct (live_source h st) as [s|] eqn:Hl; [|by intros [= <- <-]].
    unfold onerror. intros H.
    destruct (emit _ _ "error" _ _) as [[r1 st1]|] eqn:E1; [|done].
    apply emit_consistent in E1 as [-> Hc1].
    2:{ destruct Hc as [Hown _].
        destruct (log_fields "SSE error" st) as (Hh&Hs&_).
        split; [|done]. intros h' s'. simpl. rewrite Hh, Hs. apply Hown. }
    simpl in H.
    destruct (emit _ _ "disconnected" _ _) as [[r2 st2]|] eqn:E2; [|done].
    apply emit_consistent in E2 as [-> Hc2]; [|done]. simpl in H.
    destruct (_ <? _)%Z.
    + match type of H with
      | Some (_, ?x) = _ => assert (x = st') as <- by congruence
      end.
      eapply consistent_ext; [..|exact Hc2]; simpl;
        match goal with |- context [log ?m ?s] =>
          destruct (log_fields m s) as (Hh&Hs&_); by rewrite ?Hh, ?Hs end.
    + assert (log "Max reconnect attempts reached" st2 = st') as <- by congruence.
      eapply consistent_stable; [|exact Hc2]. by rewrite core_log.
  - destruct (pending_timer i st) as [t|]; [|by intros [= <- <-]].
    apply connectSSE_consistent. by eapply consistent_ext.
Qed.

Lemma run_consistent fuel ts st st' :
  consistent st → run JSON_parse listener fuel ts st = Some st' → consistent st'.
Proof.
  revert st. induction ts as [|t ts IH]; simpl; intros st Hc H; [by simplify_eq|].
  destruct (exec_turn JSON_parse listener fuel t st) as [[r st1]|] eqn:E; [|done].
  eapply IH; [|done]. by eapply exec_turn_consistent.
Qed.

End QuietConsistency.

Lemma construct_consistent cfg : consistent (construct cfg).
Proof.
  unfold construct.
  match goal with |- consistent (log ?m ?s) =>
    apply (consistent_stable s); [by rewrite core_log|] end.
  split; [|done]. intros h s. simpl. by rewrite lookup_nil.
Qed.

Lemma open_handles_spec st h :
  h ∈ open_handles st ↔ is_Some (live_source h st).
Proof.
  unfold open_handles. rewrite list_elem_of_filter, elem_of_seq. split; [by intros [? _]|].
  intros Hl. split; [done|]. split; [lia|]. simpl.
  unfold live_source in Hl. destruct (sources (env st) !! h) eqn:E; [|by destruct Hl].
  by apply lookup_lt_Some in E.
Qed.

Lemma open_handles_NoDup st : NoDup (open_handles st).
Proof. apply NoDup_filter, NoDup_seq. Qed.

Lemma open_handles_owned st h :
  handles_owned st → h ∈ open_handles st → eventSource (hc st) = Some h.
Proof.
  intros Hown Hin. apply open_handles_spec in Hin as [s Hl].
  unfold live_source in Hl. destruct (sources (env st) !! h) as [s0|] eqn:E; [|done].
  destruct (es_closed s0) eqn:Ec; [done|]. by eapply Hown.
Qed.

Lemma open_handles_at_most_one st :
  handles_owned st → length (open_handles st) ≤ 1.
Proof.
  intros Hown. pose proof (open_handles_NoDup st) as Hnd.
  destruct (open_handles st) as [|a [|b l]] eqn:E; simpl; [lia|lia|exfalso].
  assert (eventSource (hc st) = Some a) as Ha
    by (apply open_handles_owned; [done|rewrite E; set_solver]).
  assert (eventSource (hc st) = Some b) as Hb
    by (apply open_handles_owned; [done|rewrite E; set_solver]).
  assert (a = b) as -> by congruence.
  apply NoDup_cons in Hnd as [Hnd _]. set_solver.
Qed.

Lemma open_handles_the_one st h :
  handles_owned st → is_Some (live_source h st) → open_handles st = [h].
Proof.
  intros Hown Hlive. pose proof (open_handles_at_most_one st Hown) as Hlen.
  apply open_handles_spec in Hlive.
  destruct (open_handles st) as [|a [|b l]]; simpl in Hlen; [|f_equal|lia].
  - by apply elem_of_nil in Hlive.
  - apply list_elem_of_singleton in Hlive. congruence.
Qed.

(** C10, as the code has it. When no callback of the [disconnected] event
    calls [connectSSE], in every state the client can reach, whatever the
    turns that led there, [getStatus().isConnected] implies
    [getStatus().hasEventSource]. *)
Theorem connected_implies_handle
    (JSON_parse : string → option JsValue)
    (listener : Listeners)
    (fuel : nat) (cfg : Config) (ts : list Turn) (st : State) :
  quiet listener →
  run JSON_parse listener fuel ts (construct cfg) = Some st →
  st_isConnected (getStatus st) = true →
  st_hasEventSource (getStatus st) = true.
Proof.
  intros Hq Hrun Hconn.
  destruct (run_consistent JSON_parse listener Hq fuel ts _ _
    (construct_consistent cfg) Hrun) as [_ Hc].
  simpl in *. by apply bool_decide_eq_true_2, Hc.
Qed.

Lemma after_disconnect_world st :
  length (sources (env (after_disconnect st))) = length (sources (env st)) ∧
  emitted (env (after_disconnect st)) = emitted (env st) ++ teardown_events st.
Proof.
  unfold after_disconnect, teardown_events.
  destruct (eventSource (hc st)); simpl; [|by rewrite app_nil_r].
  by rewrite length_alter.
Qed.

(** What a successful [connectSSE] leaves when no [disconnected] callback
    re-enters it. *)
Lemma connectSSE_quiet_fields listener fuel arg st st' uid token :
  quiet listener →
  truthy_str (resolve_userId arg st) = Some uid →
  truthy_str (profileToken (hc st)) = Some token →
  ∀ r, connectSSE listener (api listener fuel) arg st = Some (r, st') →
  r = Normal ∧
  eventSource (hc st') = Some (length (sources (env st))) ∧
  (∃ s, live_source (length (sources (env st))) st' = Some s ∧ es_userId s = uid) ∧
  length (sources (env st')) = S (length (sources (env st))) ∧
  (∀ h s, eventSource (hc st) = Some h → sources (env st) !! h = Some s →
          sources (env st') !! h = Some (close_obj s)) ∧
  emitted (env st') = emitted (env st) ++ teardown_events st ∧
  static (hc st') = static (hc st).
Proof.
  intros Hq Hu Ht r H.
  apply connectSSE_quiet in H as [([?|?]&_)|(uid'&token'&st1&Hu'&Ht'&->&Hcore&->)];
    [congruence|congruence| |done].
  assert (uid' = uid) as -> by congruence. clear Hu' Ht'.
  pose proof (core_fields _ _ Hcore) as (Hs&_&_&_&Hsrc&_&Hem).
  destruct (after_disconnect_world st) as [Hlen Hem'].
  destruct (log_fields "Connecting to SSE" st1) as (Hh&Hs1&_&He1&_).
  assert (length (sources (env (log "Connecting to SSE" st1))) = length (sources (env st)))
    as Hl by congruence.
  split_and!; try done.
  - simpl. by rewrite Hl.
  - rewrite <- Hl. rewrite live_source_open_new. by eexists.
  - simpl. rewrite length_app. simpl. lia.
  - intros h s Hes E. simpl. rewrite Hs1, Hsrc. unfold after_disconnect. rewrite Hes. simpl.
    rewrite lookup_app_l by (rewrite length_alter; by eapply lookup_lt_Some).
    rewrite list_lookup_alter_eq, E. done.
  - simpl. by rewrite He1, Hem, Hem'.
  - simpl. rewrite Hh. etrans; [exact Hs|]. unfold after_disconnect.
    by destruct (eventSource (hc st)).
Qed.

Lemma onopen_events listener fuel uid st r st' :
  onopen listener (api listener fuel) uid st = Some (r, st') →
  r = Normal ∧
  ∃ ext, emitted (env st')
         = emitted (env st) ++ ("connected", JObj [("userId", JStr uid)]) :: ext ∧
         Forall (λ e, e.1 = "disconnected") ext.
Proof.
  unfold onopen. intros H. apply emit_frame in H as [-> (_&_&_&_&ext&Hem&Hext)].
  split; [done|]. exists ext. split; [|done]. rewrite Hem. simpl.
  destruct (log_fields "SSE connection opened" st) as (_&_&_&->&_).
  by rewrite <- app_assoc.
Qed.

(** C2, as the code has it. When no callback of the [disconnected] event
    calls [connectSSE]: in every
    state the client can reach at most one transport handle is open; and
    two calls of [connectSSE] in succession leave exactly one open handle,
    the one of the second call, the handle of the first call having been
    closed and a [disconnected] event published in between; when the second
    handle then opens, exactly one [connected] event is published, carrying
    the user identifier of the second call. The three turns return. *)
Theorem connect_twice_one_handle
    (JSON_parse : string → option JsValue)
    (listener : Listeners)
    (fuel : nat) (cfg : Config) (ts : list Turn) (st : State)
    (arg1 arg2 : option string) (uid1 uid2 token : string) :
  quiet listener →
  run JSON_parse listener fuel ts (construct cfg) = Some st →
  truthy_str (resolve_userId arg1 st) = Some uid1 →
  truthy_str (resolve_userId arg2 st) = Some uid2 →
  truthy_str (profileToken (hc st)) = Some token →
  let h1 := length (sources (env st)) in
  let h2 := S h1 in
  length (open_handles st) ≤ 1 ∧
  (∀ fuel' r1 st1 r2 st2,
     exec_turn JSON_parse listener fuel' (AppConnect arg1) st = Some (r1, st1) →
     exec_turn JSON_parse listener fuel' (AppConnect arg2) st1 = Some (r2, st2) →
     r1 = Normal ∧ r2 = Normal ∧
     open_handles st1 = [h1] ∧
     (es_closed <$> sources (env st2) !! h1) = Some true ∧
     open_handles st2 = [h2] ∧
     eventSource (hc st2) = Some h2 ∧
     emitted (env st2)
     = emitted (env st) ++ teardown_events st ++ [("disconnected", manual)] ∧
     ∀ r3 st3,
       exec_turn JSON_parse listener fuel' (EsOpen h2) st2 = Some (r3, st3) →
       r3 = Normal ∧
       ∃ ext, emitted (env st3)
              = emitted (env st2) ++ ("connected", JObj [("userId", JStr uid2)]) :: ext ∧
              Forall (λ e, e.1 = "disconnected") ext) ∧
  (∀ fuel', ∃ st1 st2 st3,
     exec_turn JSON_parse listener (S (S fuel')) (AppConnect arg1) st = Some (Normal, st1) ∧
     exec_turn JSON_parse listener (S (S fuel')) (AppConnect arg2) st1 = Some (Normal, st2) ∧
     exec_turn JSON_parse listener (S (S fuel')) (EsOpen h2) st2 = Some (Normal, st3)).
Proof.
  intros Hq Hrun Hu1 Hu2 Ht h1 h2.
  pose proof (run_consistent JSON_parse listener Hq fuel ts _ _
    (construct_consistent cfg) Hrun) as Hc.
  assert (∀ fuel' r1 st1 r2 st2,
     exec_turn JSON_parse listener fuel' (AppConnect arg1) st = Some (r1, st1) →
     exec_turn JSON_parse listener fuel' (AppConnect arg2) st1 = Some (r2, st2) →
     r1 = Normal ∧ r2 = Normal ∧
     open_handles st1 = [h1] ∧
     (es_closed <$> sources (env st2) !! h1) = Some true ∧
     open_handles st2 = [h2] ∧
     eventSource (hc st2) = Some h2 ∧
     emitted (env st2)
     = emitted (env st) ++ teardown_events st ++ [("disconnected", manual)] ∧
     ∃ s, live_source h2 st2 = Some s ∧ es_userId s = uid2) as Htwice.
  { intros fuel' r1 st1 r2 st2 H1 H2.
    pose proof (exec_turn_consistent JSON_parse listener Hq _ _ _ _ _ Hc H1) as Hc1.
    pose proof (exec_turn_consistent JSON_parse listener Hq _ _ _ _ _ Hc1 H2) as Hc2.
    simpl in H1, H2.
    destruct (connectSSE_quiet_fields listener fuel' arg1 st st1 uid1 token Hq Hu1 Ht r1 H1)
      as (-> & Hes1 & (s1 & Hl1 & _) & Hlen1 & _ & Hem1 & Hs1).
    apply static_fields in Hs1 as (_&Htok1&Huid1&_).
    assert (truthy_str (resolve_userId arg2 st1) = Some uid2) as Hu2'.
    { rewrite <- Hu2. unfold resolve_userId. by rewrite Huid1. }
    rewrite <- Htok1 in Ht.
    destruct (connectSSE_quiet_fields listener fuel' arg2 st1 st2 uid2 token Hq Hu2' Ht r2 H2)
      as (-> & Hes2 & (s2 & Hl2 & Hs2u) & Hlen2 & Hcl2 & Hem2 & _).
    fold h1 in Hes1, Hl1, Hlen1. rewrite Hlen1 in Hes2, Hl2. fold h2 in Hes2, Hl2.
    split_and!; try done.
    - apply open_handles_the_one; [by destruct Hc1|by eexists].
    - unfold live_source in Hl1.
      destruct (sources (env st1) !! h1) as [s|] eqn:E; [|done].
      by rewrite (Hcl2 h1 s Hes1 E).
    - apply open_handles_the_one; [by destruct Hc2|by eexists].
    - rewrite Hem2, Hem1. unfold teardown_events at 2. rewrite Hes1.
      by rewrite <- app_assoc.
    - by exists s2. }
  split_and!.
  - apply open_handles_at_most_one. by destruct Hc.
  - intros fuel' r1 st1 r2 st2 H1 H2.
    destruct (Htwice fuel' r1 st1 r2 st2 H1 H2) as (?&?&?&?&?&?&?&s&Hl&Hu).
    split_and!; try done.
    intros r3 st3 Hopen. simpl in Hopen. rewrite Hl, Hu in Hopen.
    by apply onopen_events in Hopen.
  - intros fuel'.
    destruct (connectSSE_quiet_total listener (S fuel') arg1 st Hq) as [[r1 st1] H1].
    destruct (connectSSE_quiet_total listener (S fuel') arg2 st1 Hq) as [[r2 st2] H2].
    destruct (Htwice (S (S fuel')) r1 st1 r2 st2 H1 H2) as (->&->&_&_&_&_&_&s&Hl&Hu).
    exists st1, st2.
    destruct (emit_quiet_returns listener fuel'
      "connected" (JObj [("userId", JStr uid2)])
      (on_hc (set_reconnectAttempts 0) (on_hc (set_isConnected true)
         (log "SSE connection opened" st2))) Hq) as (st3 & H3).
    exists st3. split_and!; [exact H1|exact H2|].
    unfold exec_turn. rewrite Hl, Hu. exact H3.
Qed.

(** * The claims on concrete clients *)

(** C6: a client constructed with [maxReconnectAttempts: 0] and
    [reconnectDelay: 0] gets the defaults 10 and 5000 instead, and its
    first transport error schedules a reconnect after 5000 ms. *)
Theorem zero_attempts_replaced_by_default :
  maxReconnectAttempts (hc (construct zero_config)) = 10%Z ∧
  reconnectDelay (hc (construct zero_config)) = 5000%Z ∧
  (timers ∘ env) <$> run parse_unread silent 2 [AppConnect None; EsError 0 JNull]
                       (construct zero_config)
  = Some [{| tm_userId := "u1"; tm_delay := 5000; tm_fired := false |}].
Proof. by vm_compute. Qed.

(** C1 fails: after [connectSSE()], a transport error and a manual
    [disconnectSSE()], the reconnect timer of the error is still pending
    and no handle is open; the timer then fires and opens handle 1. *)
Lemma reconnect_fires_after_manual_disconnect :
  let before := [AppConnect None; EsError 0 JNull; AppDisconnect] in
  (λ st, (open_handles st, getStatus st, tm_fired <$> timers (env st))) <$>
    run parse_unread silent 2 before (construct demo_config)
  = Some ([], {| st_isConnected := false; st_reconnectAttempts := 1;
                 st_hasEventSource := false |}, [false]) ∧
  (λ st, (open_handles st, eventSource (hc st), length (sources (env st)))) <$>
    run parse_unread silent 2 (before ++ [TimerFire 0]) (construct demo_config)
  = Some ([1], Some 1, 2).
Proof.
  split; by vm_compute.
Qed.

(** C2 fails: with a [disconnected] callback that reconnects, two calls of
    [connectSSE] in succession leave two open handles. *)
Lemma reentrant_connect_leaks_handle :
  open_handles <$>
    run parse_unread reconnecting 3
      [AppOn "disconnected" 0; AppConnect None; AppConnect None]
      (construct demo_config)
  = Some [1; 2].
Proof. by vm_compute. Qed.

(** C10 fails: the handle leaked by a reconnecting [disconnected] callback
    opens after the application has disconnected, and the client reports
    [isConnected] without a handle. *)
Lemma connected_without_handle :
  getStatus <$>
    run parse_unread reconnecting 3
      [AppOn "disconnected" 0; AppConnect None; AppConnect None;
       AppOff "disconnected" 0; AppDisconnect; EsOpen 1]
      (construct demo_config)
  = Some {| st_isConnected := true; st_reconnectAttempts := 0;
            st_hasEventSource := false |}.
Proof. by vm_compute. Qed.

(** C4 fails: callbacks 1 and 2 are registered for [notification] when the
    publish begins; callback 1 unsubscribes itself while it runs, and
    callback 2 is never called. *)
Lemma self_unsubscribe_skips_next :
  listeners (hc two_subscribers) !! "notification" = Some [1; 2] ∧
  (invoked ∘ env ∘ snd) <$>
    emit one_shot (api one_shot 2) "notification" JNull two_subscribers
  = Some [(1, "notification", JNull)].
Proof. split; by vm_compute. Qed.


(** ** The theorems at concrete inputs *)

Lemma quiet_silent : quiet silent.
Proof. intros cb data st. constructor. Qed.

(** [connectSSE()] on a client constructed without a [userId]. *)
Lemma connectSSE_configuration_error_witness :
  (truthy_str (resolve_userId None (construct anonymous_config)) = None ∨
   truthy_str (profileToken (hc (construct anonymous_config))) = None) ∧
  ∃ e, ConfigurationError e ∧
       connectSSE silent (api silent 1) None (construct anonymous_config)
       = Some (Throw e, construct anonymous_config).
Proof.
  split; [left; vm_compute; reflexivity|].
  apply connectSSE_configuration_error. left; vm_compute; reflexivity.
Defined.

(** A truncated payload arriving on an open connection. *)
Lemma onmessage_unparseable_witness :
  parse_unread "{type:" = None ∧
  ∃ st', onmessage parse_unread silent (api silent 1) "{type:" demo_connected
         = Some (Normal, st') ∧
         hc st' = hc demo_connected ∧
         emitted (env st') = emitted (env demo_connected) ∧
         invoked (env st') = invoked (env demo_connected) ∧
         sources (env st') = sources (env demo_connected) ∧
         timers (env st') = timers (env demo_connected) ∧
         getStatus st' = getStatus demo_connected.
Proof.
  split; [vm_compute; reflexivity|].
  apply onmessage_unparseable. vm_compute; reflexivity.
Defined.

(** The payload [{"type":"unread_count","count":5}] arriving on an open
    connection. *)
Lemma onmessage_dispatch_witness :
  parse_unread unread_text = Some unread_message ∧
  dispatch_table unread_message = [("unreadCount", JNum 5)] ∧
  (∀ r st',
     onmessage parse_unread silent (api silent 2) unread_text demo_connected
     = Some (r, st') →
     r = Normal ∧
     ∃ ext, emitted (env st')
            = emitted (env demo_connected) ++ dispatch_table unread_message ++ ext ∧
            Forall (λ e, e.1 = "disconnected") ext ∧
            (dispatch_table unread_message = [] →
             ext = [] ∧ invoked (env st') = invoked (env demo_connected) ∧
             hc st' = hc demo_connected)) ∧
  is_Some (onmessage parse_unread silent (api silent 2) unread_text demo_connected).
Proof.
  split; [vm_compute; reflexivity|]. split; [vm_compute; reflexivity|].
  destruct (onmessage_dispatch parse_unread silent 0 unread_text unread_message
    demo_connected ltac:(vm_compute; reflexivity)) as (_ & _ & Htotal).
  split; [|exact (Htotal quiet_silent)].
  exact (proj1 (onmessage_dispatch parse_unread silent 2 unread_text unread_message
    demo_connected ltac:(vm_compute; reflexivity))).
Defined.


(** Callback 3 subscribes callback 4 during the publish; the callbacks
    called are 0, 3 and 2. *)
Lemma emit_exactly_once_in_order_witness :
  listeners (hc three_subscribers) !! "notification" = Some [0; 3; 2] ∧
  ∃ st', emit mixed (api mixed 1) "notification" JNull three_subscribers
         = Some (Normal, st') ∧
         invoked (env st')
         = invoked (env three_subscribers)
           ++ map (λ cb, (cb, "notification", JNull)) [0; 3; 2].
Proof.
  split; [vm_compute; reflexivity|].
  apply emit_exactly_once_in_order; [vm_compute; reflexivity|].
  intros [|[|[|[|cb]]]] ? _; simpl; repeat constructor; discriminate.
Defined.

(** [maxReconnectAttempts: 2] and two transport errors in a row. *)
Lemma reconnect_attempts_bounded_witness :
  (1 ≤ 2)%Z ∧
  cfg_maxReconnectAttempts demo_config = Some 2%Z ∧
  run parse_unread silent 2 [AppConnect None] (construct demo_config)
  = Some demo_connecting ∧
  st_reconnectAttempts (getStatus demo_connecting) = 0%Z ∧
  count_turns open_delivered parse_unread silent 2
    [EsError 0 JNull; EsError 0 JNull] demo_connecting = 0 ∧
  count_turns error_delivered parse_unread silent 2
    [EsError 0 JNull; EsError 0 JNull] demo_connecting = Z.to_nat 2 ∧
  ∃ st, run parse_unread silent 2 [EsError 0 JNull; EsError 0 JNull] demo_connecting
        = Some st ∧
        st_reconnectAttempts (getStatus st) = 2%Z ∧
        length (timers (env st)) = length (timers (env demo_connecting)) + Z.to_nat 2 ∧
        ∀ ts' st',
          run parse_unread silent 2 ts' st = Some st' →
          count_turns open_delivered parse_unread silent 2 ts' st = 0 →
          st_reconnectAttempts (getStatus st') = 2%Z ∧
          length (timers (env st')) = length (timers (env st)).
Proof.
  split; [lia|]. do 5 (split; [vm_compute; reflexivity|]).
  eexists. split; [vm_compute; reflexivity|].
  destruct (reconnect_attempts_bounded parse_unread silent 2 demo_config 2
    [AppConnect None] demo_connecting ltac:(lia)
    ltac:(vm_compute; reflexivity) ltac:(vm_compute; reflexivity))
    as (_ & _ & Herrors).
  apply (Herrors ltac:(vm_compute; reflexivity) [EsError 0 JNull; EsError 0 JNull]);
    vm_compute; reflexivity.
Defined.

(** The reconnect scheduled by the error of [demo_errored]. *)
Lemma pending_reconnect_survives_disconnect_witness :
  pending_timer 0 demo_errored
  = Some {| tm_userId := "u1"; tm_delay := 10; tm_fired := false |} ∧
  "u1" ≠ EmptyString ∧
  is_Some (truthy_str (profileToken (hc demo_errored))) ∧
  ∃ r1 st1 r2 st2,
    exec_turn parse_unread silent 2 AppDisconnect demo_errored = Some (r1, st1) ∧
    exec_turn parse_unread silent 2 (TimerFire 0) st1 = Some (r2, st2) ∧
    r2 = Normal ∧
    ∃ h s, length (sources (env st1)) ≤ h ∧
           eventSource (hc st2) = Some h ∧
           live_source h st2 = Some s ∧
           es_userId s = "u1".
Proof.
  split; [vm_compute; reflexivity|]. split; [discriminate|]. split; [by eexists|].
  destruct (pending_reconnect_survives_disconnect parse_unread silent 0 demo_errored 0
    {| tm_userId := "u1"; tm_delay := 10; tm_fired := false |}
    ltac:(vm_compute; reflexivity) ltac:(discriminate) ltac:(by eexists)) as [_ Htotal].
  destruct (Htotal quiet_silent) as (r1 & st1 & r2 & st2 & H1 & H2).
  exists r1, st1, r2, st2. split; [exact H1|]. split; [exact H2|].
  exact (proj1 (pending_reconnect_survives_disconnect parse_unread silent 2 demo_errored 0
    {| tm_userId := "u1"; tm_delay := 10; tm_fired := false |}
    ltac:(vm_compute; reflexivity) ltac:(discriminate) ltac:(by eexists)) r1 st1 r2 st2 H1 H2).
Defined.

(** [connectSSE()] then [connectSSE('u2')] on a fresh client. *)
Lemma connect_twice_one_handle_witness :
  quiet silent ∧
  run parse_unread silent 2 [] (construct demo_config) = Some (construct demo_config) ∧
  truthy_str (resolve_userId None (construct demo_config)) = Some "u1" ∧
  truthy_str (resolve_userId (Some "u2") (construct demo_config)) = Some "u2" ∧
  truthy_str (profileToken (hc (construct demo_config))) = Some "tok" ∧
  length (open_handles (construct demo_config)) ≤ 1 ∧
  ∃ st1 st2 st3,
    exec_turn parse_unread silent 2 (AppConnect None) (construct demo_config)
    = Some (Normal, st1) ∧
    exec_turn parse_unread silent 2 (AppConnect (Some "u2")) st1 = Some (Normal, st2) ∧
    exec_turn parse_unread silent 2 (EsOpen 1) st2 = Some (Normal, st3) ∧
    open_handles st2 = [1] ∧
    ∃ ext, emitted (env st3)
           = emitted (env st2) ++ ("connected", JObj [("userId", JStr "u2")]) :: ext ∧
           Forall (λ e, e.1 = "disconnected") ext.
Proof.
  split; [exact quiet_silent|]. do 4 (split; [vm_compute; reflexivity|]).
  destruct (connect_twice_one_handle parse_unread silent 2 demo_config []
    (construct demo_config) None (Some "u2") "u1" "u2" "tok"
    quiet_silent ltac:(vm_compute; reflexivity) ltac:(vm_compute; reflexivity)
    ltac:(vm_compute; reflexivity) ltac:(vm_compute; reflexivity))
    as (Hone & Htwice & Htotal).
  split; [exact Hone|].
  destruct (Htotal 0) as (st1 & st2 & st3 & H1 & H2 & H3).
  exists st1, st2, st3. split; [exact H1|]. split; [exact H2|]. split; [exact H3|].
  destruct (Htwice 2 _ _ _ _ H1 H2) as (_ & _ & _ & _ & Hopen & _ & _ & Hev).
  split; [exact Hopen|]. exact (proj2 (Hev _ _ H3)).
Defined.

Lemma quiet_reconnect_on_error : quiet reconnect_on_error.
Proof. intros cb data st. simpl. constructor. Qed.

(** A client whose [error] callback reconnects, once the handle created by
    the callback has opened. *)
Lemma connected_implies_handle_witness :
  quiet reconnect_on_error ∧
  run parse_unread reconnect_on_error 3
    [AppOn "error" 5; AppConnect None; EsError 0 JNull; EsOpen 1]
    (construct demo_config)
  = Some demo_recovered ∧
  st_isConnected (getStatus demo_recovered) = true ∧
  st_hasEventSource (getStatus demo_recovered) = true.
Proof.
  split; [exact quiet_reconnect_on_error|].
  split; [vm_compute; reflexivity|]. split; [vm_compute; reflexivity|].
  apply (connected_implies_handle parse_unread reconnect_on_error 3 demo_config
    [AppOn "error" 5; AppConnect None; EsError 0 JNull; EsOpen 1] demo_recovered
    quiet_reconnect_on_error); vm_compute; reflexivity.
Defined.

(** * Further properties *)

(** ** Nothing is lost *)

Lemma extends_refl st : extends st st.
Proof.
  split_and!; [done| |].
  - intros h s Hs. by exists s.
  - intros i t Ht. by exists t.
Qed.

Lemma extends_trans st0 st1 st2 : extends st0 st1 → extends st1 st2 → extends st0 st2.
Proof.
  intros (Hs1&Hh1&Ht1) (Hs2&Hh2&Ht2). split_and!; [congruence| |].
  - intros h s Hs. destruct (Hh1 h s Hs) as (s1&Hl1&?&?&?).
    destruct (Hh2 h s1 Hl1) as (s2&Hl2&?&?&?).
    exists s2. split_and!; [done|congruence|congruence|auto].
  - intros i t Ht. destruct (Ht1 i t Ht) as (t1&Hl1&?&?&?).
    destruct (Ht2 i t1 Hl1) as (t2&Hl2&?&?&?).
    exists t2. split_and!; [done|congruence|congruence|auto].
Qed.

Lemma extends_same st st' :
  static (hc st) = static (hc st') → sources (env st) = sources (env st') →
  timers (env st) = timers (env st') → extends st st'.
Proof.
  intros Hs Hsrc Htm.
  unfold extends, handles_extend, timers_extend. rewrite <- Hs, <- Hsrc, <- Htm.
  apply extends_refl.
Qed.

Lemma extends_core st st' : core st = core st' → extends st st'.
Proof.
  intros Hc. apply core_fields in Hc as (Hs&_&_&_&Hsrc&Htm&_). by apply extends_same.
Qed.

Lemma extends_record_emit event data st : extends st (record_emit event data st).
Proof. by apply extends_same. Qed.

Lemma extends_stable st0 : stable (extends st0).
Proof. intros st st' Hc H. eapply extends_trans; [exact H|by apply extends_core]. Qed.

Lemma extends_teardown st h : extends st (teardown h st).
Proof.
  split_and!; [done| |by intros i t Ht; exists t].
  intros h' s Hs. simpl. destruct (decide (h' = h)) as [->|Hne].
  - exists (close_obj s). rewrite list_lookup_alter_eq, Hs. done.
  - exists s. by rewrite list_lookup_alter_ne.
Qed.

Lemma extends_open_new st url uid : extends st (open_new url uid st).
Proof.
  split_and!; [done| |by intros i t Ht; exists t].
  intros h s Hs. exists s. simpl. split; [|done].
  apply lookup_app_l_Some. done.
Qed.

Lemma extends_setTimeout st uid delay : extends st (setTimeout uid delay st).
Proof.
  split_and!; [done|by intros h s Hs; exists s|].
  intros i t Ht. exists t. simpl. split; [|done]. by apply lookup_app_l_Some.
Qed.

Lemma extends_mark_fired st i : extends st (mark_fired i st).
Proof.
  split_and!; [done|by intros h s Hs; exists s|].
  intros j t Ht. simpl. destruct (decide (j = i)) as [->|Hne].
  - exists (fire_obj t). by rewrite list_lookup_alter_eq, Ht.
  - exists t. by rewrite list_lookup_alter_ne.
Qed.

Lemma api_extends listener fuel c st r st' :
  api listener fuel c st = Some (r, st') → extends st st'.
Proof.
  apply (api_pres listener (extends st)).
  - apply extends_stable.
  - intros s h data Hs _. eapply extends_trans; [exact Hs|].
    eapply extends_trans; [apply (extends_teardown s h)|]. apply extends_record_emit.
  - intros s url uid Hs. eapply extends_trans; [exact Hs|apply extends_open_new].
  - apply extends_refl.
Qed.

Lemma emit_extends listener fuel event data st r st' :
  emit listener (api listener fuel) event data st = Some (r, st') → extends st st'.
Proof.
  intros H.
  apply (emit_pres listener (api listener fuel) (extends st) (λ _, True) event) in H
    as [_ ?]; [done|apply extends_stable| |intros; apply ok_action_any|apply extends_record_emit].
  intros c s r1 s1 _ Hs Hc. apply api_extends in Hc. eapply extends_trans; [exact Hs|exact Hc].
Qed.

(** ** A property kept by every state change is kept by every run *)

Lemma truthy_str_nonempty o s : truthy_str o = Some s → o = Some s ∧ s ≠ EmptyString.
Proof.
  destruct o as [s'|]; simpl; [|done].
  destruct (String.eqb_spec s' EmptyString); [done|]. by intros [= ->].
Qed.

Section EveryStep.

Variable JSON_parse : string → option JsValue.
Variable listener : Listeners.
Variable Q : State → Prop.

Hypothesis Q_on : ∀ st event cb, Q st → Q (on event cb st).
Hypothesis Q_off : ∀ st event cb, Q st → Q (off event cb st).
Hypothesis Q_log : ∀ st msg, Q st → Q (log msg st).
Hypothesis Q_invoke : ∀ st cb event data, Q st → Q (record_invoke cb event data st).
Hypothesis Q_emit : ∀ st event data, Q st → Q (record_emit event data st).
Hypothesis Q_teardown :
  ∀ st h, Q st → eventSource (hc st) = Some h → Q (teardown h st).
Hypothesis Q_open_new :
  ∀ st uid token, Q st → uid ≠ EmptyString →
    truthy_str (profileToken (hc st)) = Some token →
    Q (open_new (sse_url (hc st) uid token) uid st).
Hypothesis Q_connected : ∀ st b, Q st → Q (on_hc (set_isConnected b) st).
Hypothesis Q_attempts : ∀ st n, Q st → Q (on_hc (set_reconnectAttempts n) st).
Hypothesis Q_timer :
  ∀ st h s, Q st → sources (env st) !! h = Some s →
    Q (setTimeout (es_userId s) (reconnectDelay (hc st)) st).
Hypothesis Q_fired : ∀ st i, Q st → Q (mark_fired i st).

Section Callee.

Variable reenter : ApiCall → State → Outcome.
Hypothesis reenter_every :
  ∀ c st r st', Q st → reenter c st = Some (r, st') → Q st'.

Lemma run_actions_every body st r st' :
  Q st → run_actions reenter body st = Some (r, st') → Q st'.
Proof.
  revert st. induction body as [|a body IH]; simpl; intros st HQ H.
  - by simplify_eq.
  - destruct (run_action reenter a st) as [[r1 st1]|] eqn:E; [|done].
    assert (Q st1) as HQ1.
    { destruct a; simpl in E; simplify_eq; eauto. }
    destruct r1; simpl in H; [by eapply IH|by simplify_eq].
Qed.

Lemma forEach_every n k event data st r st' :
  Q st → forEach listener reenter n k event data st = Some (r, st') → Q st'.
Proof.
  revert k st. induction n as [|n IH]; simpl; intros k st HQ H.
  - by simplify_eq.
  - destruct (default [] (listeners (hc st) !! event) !! k) as [cb|]; [|by eapply IH].
    unfold guarded_call, call_listener, tryCatch in H.
    destruct (run_actions _ _ _) as [[[|e] st1]|] eqn:E; simpl in H; [| |done].
    + eapply IH; [|done]. eapply run_actions_every; [|done]. by apply Q_invoke.
    + eapply IH; [|done]. apply Q_log. eapply run_actions_every; [|done].
      by apply Q_invoke.
Qed.

Lemma emit_every event data st r st' :
  Q st → emit listener reenter event data st = Some (r, st') → Q st'.
Proof.
  unfold emit. intros HQ H.
  destruct (listeners _ !! event) as [l|].
  - eapply forEach_every; [|done]. by apply Q_emit.
  - simplify_eq. by apply Q_emit.
Qed.

Lemma disconnectSSE_every st r st' :
  Q st → disconnectSSE listener reenter st = Some (r, st') → Q st'.
Proof.
  unfold disconnectSSE. intros HQ H.
  destruct (eventSource (hc st)) as [h|] eqn:Hes; [|by simplify_eq].
  eapply emit_every; [|done].
  apply (Q_teardown (log "Disconnecting SSE" st) h); [by apply Q_log|].
  by destruct (log_fields "Disconnecting SSE" st) as (->&_).
Qed.

End Callee.

Lemma connectSSE_every fuel arg st r st' :
  (∀ c st r st', Q st → api listener fuel c st = Some (r, st') → Q st') →
  Q st → connectSSE listener (api listener fuel) arg st = Some (r, st') → Q st'.
Proof.
  intros IH HQ H. unfold connectSSE in H.
  destruct (truthy_str (resolve_userId arg st)) as [uid|] eqn:Hu; [|by simplify_eq].
  destruct (truthy_str (profileToken (hc st))) as [token|] eqn:Ht; [|by simplify_eq].
  apply truthy_str_nonempty in Hu as [_ Hu].
  assert (∀ st1, Q st1 → profileToken (hc st1) = profileToken (hc st) →
    Q (on_hc (set_eventSource (Some (length (sources (env (log "Connecting to SSE" st1))))))
         (new_EventSource (baseUrl (hc st1) +:+ "/sse/notifications/" +:+ uid +:+
            "/?token=" +:+ token) uid (log "Connecting to SSE" st1)))) as Hopen.
  { intros st1 HQ1 Htok.
    pose proof (Q_open_new (log "Connecting to SSE" st1) uid token) as Hn.
    destruct (log_fields "Connecting to SSE" st1) as (Hh&_).
    unfold open_new, sse_url in Hn. rewrite Hh in Hn.
    apply Hn; [by apply Q_log|done|congruence]. }
  destruct (eventSource (hc st)) as [h|] eqn:Hes; simpl in H.
  - destruct (disconnectSSE _ _ _) as [[r1 st1]|] eqn:E; [|done].
    pose proof (disconnectSSE_frame _ _ _ _ _ E) as [-> (Hs&_)].
    apply static_fields in Hs as (_&Htok&_).
    apply (disconnectSSE_every _ IH) in E; [|by apply Q_log].
    simpl in H. assert (st' = on_hc (set_eventSource (Some (length (sources (env
      (log "Connecting to SSE" st1)))))) (new_EventSource (baseUrl (hc st1) +:+
      "/sse/notifications/" +:+ uid +:+ "/?token=" +:+ token) uid
      (log "Connecting to SSE" st1))) as -> by congruence.
    apply Hopen; [done|]. rewrite Htok.
    by destruct (log_fields "SSE already connected, disconnecting first" st) as (->&_).
  - simplify_eq. by apply Hopen.
Qed.

Lemma api_every fuel c st r st' :
  Q st → api listener fuel c st = Some (r, st') → Q st'.
Proof.
  revert c st r st'. induction fuel as [|fuel IH]; simpl; intros c st r st' HQ H; [done|].
  destruct c.
  - by eapply connectSSE_every.
  - by eapply disconnectSSE_every.
Qed.

Lemma onerror_every fuel h s error st r st' :
  Q st → sources (env st) !! h = Some s →
  onerror listener (api listener fuel) (es_userId s) error st = Some (r, st') → Q st'.
Proof.
  unfold onerror. intros HQ Hs H.
  set (st0 := on_hc (set_isConnected false) (log "SSE error" st)) in *.
  assert (Q st0) as HQ0 by (by apply Q_connected, Q_log).
  assert (extends st st0) as Hx0.
  { destruct (log_fields "SSE error" st) as (Hh&Hsrc&Htm&_).
    apply extends_same; unfold st0; simpl; [by rewrite Hh|done|done]. }
  destruct (emit _ _ "error" _ _) as [[r1 st1]|] eqn:E1; [|done].
  pose proof (emit_normal _ _ _ _ _ _ _ E1) as ->.
  pose proof (emit_extends _ _ _ _ _ _ _ E1) as Hx1.
  apply (emit_every _ (api_every fuel)) in E1; [|done]. simpl in H.
  destruct (emit _ _ "disconnected" _ _) as [[r2 st2]|] eqn:E2; [|done].
  pose proof (emit_normal _ _ _ _ _ _ _ E2) as ->.
  pose proof (emit_extends _ _ _ _ _ _ _ E2) as Hx2.
  apply (emit_every _ (api_every fuel)) in E2; [|done]. simpl in H.
  destruct (_ <? _)%Z.
  - match type of H with
    | context [setTimeout _ _ ?x] => set (st3 := x) in *
    end.
    assert (st' = setTimeout (es_userId s) (reconnectDelay (hc st3)) st3) as -> by congruence.
    destruct (extends_trans _ _ _ (extends_trans _ _ _ Hx0 Hx1) Hx2) as (_&Hh&_).
    destruct (Hh h s Hs) as (s'&Hs'&_&Hu&_). rewrite <- Hu.
    apply (Q_timer st3 h s'); [by apply Q_log, Q_attempts|].
    unfold st3.
    match goal with |- context [log ?m ?x] =>
      by destruct (log_fields m x) as (_&->&_) end.
  - assert (st' = log "Max reconnect attempts reached" st2) as -> by congruence.
    by apply Q_log.
Qed.

Lemma exec_turn_every fuel t st r st' :
  Q st → exec_turn JSON_parse listener fuel t st = Some (r, st') → Q st'.
Proof.
  intros HQ. destruct t as [event cb|event cb|arg| |h|h text|h error|i]; simpl.
  - intros [= <- <-]. by apply Q_on.
  - intros [= <- <-]. by apply Q_off.
  - apply connectSSE_every; [apply api_every|done].
  - apply disconnectSSE_every; [apply api_every|done].
  - destruct (live_source h st) as [s|]; [|by intros [= <- <-]].
    unfold onopen. apply emit_every; [apply api_every|].
    by apply Q_attempts, Q_connected, Q_log.
  - destruct (live_source h st) as [s|]; [|by intros [= <- <-]].
    unfold onmessage, tryCatch. intros H.
    destruct (JSON_parse text) as [data|]; [|simplify_eq; by apply Q_log].
    destruct (get_prop data "type") as [ty|]; [|simplify_eq; by apply Q_log, Q_log].
    assert (∀ event payload r1 st1,
      emit listener (api listener fuel) event payload (log "SSE message received" st)
      = Some (r1, st1) → r1 = Normal ∧ Q st1) as Hemit.
    { intros event payload r1 st1 E. split; [by eapply emit_normal|].
      eapply emit_every; [apply api_every| |done]. by apply Q_log. }
    repeat case_match; simplify_eq;
      try (by apply Q_log);
      match goal with
      | E : emit _ _ _ _ _ = Some (Normal, _) |- _ => by apply Hemit in E as [_ ?]
      | E : emit _ _ _ _ _ = Some (Throw _, _) |- _ => by apply Hemit in E as [? _]
      end.
  - destruct (live_source h st) as [s|] eqn:Hl; [|by intros [= <- <-]].
    unfold live_source in Hl. destruct (sources (env st) !! h) as [s0|] eqn:Hs; [|done].
    destruct (es_closed s0); [done|]. injection Hl as <-.
    by eapply onerror_every.
  - destruct (pending_timer i st) as [t|]; [|by intros [= <- <-]].
    apply connectSSE_every; [apply api_every|]. by apply Q_fired.
Qed.

Lemma run_every fuel ts st st' :
  Q st → run JSON_parse listener fuel ts st = Some st' → Q st'.
Proof.
  revert st. induction ts as [|t ts IH]; simpl; intros st HQ H; [by simplify_eq|].
  destruct (exec_turn JSON_parse listener fuel t st) as [[r st1]|] eqn:E; [|done].
  eapply IH; [|done]. by eapply exec_turn_every.
Qed.

End EveryStep.

Lemma extends_step st0 st st' : extends st st' → extends st0 st → extends st0 st'.
Proof. intros H1 H2. by eapply extends_trans. Qed.

Lemma run_extends_all JSON_parse listener fuel ts st st' :
  run JSON_parse listener fuel ts st = Some st' → extends st st'.
Proof.
  apply (run_every JSON_parse listener (extends st)); try apply extends_refl;
    intros; (eapply extends_step; [|eassumption]).
  - apply extends_core. symmetry. apply core_on.
  - apply extends_core. symmetry. apply core_off.
  - apply extends_core. symmetry. apply core_log.
  - by apply extends_same.
  - apply extends_record_emit.
  - apply extends_teardown.
  - apply extends_open_new.
  - by apply extends_same.
  - by apply extends_same.
  - apply extends_setTimeout.
  - apply extends_mark_fired.
Qed.

(** X1. Nothing is ever lost or rewritten: over every sequence of turns,
    with arbitrary callbacks, the configuration stays as constructed, every
    transport handle and every timer stays in place with its address, user
    and delay, a closed handle stays closed and a fired timer stays
    fired. *)
Theorem run_extends JSON_parse listener fuel ts st st' :
  run JSON_parse listener fuel ts st = Some st' → extends st st'.
Proof. apply run_extends_all. Qed.

Lemma run_extends_witness :
  run parse_unread silent 2 [AppConnect None; EsError 0 JNull] (construct demo_config)
  = Some demo_errored ∧
  extends (construct demo_config) demo_errored.
Proof.
  split; [vm_compute; reflexivity|].
  apply (run_extends parse_unread silent 2 [AppConnect None; EsError 0 JNull]).
  vm_compute; reflexivity.
Defined.

(** ** Addresses *)

Lemma well_addressed_same st st' :
  static (hc st) = static (hc st') → sources (env st) = sources (env st') →
  timers (env st) = timers (env st') → well_addressed st → well_addressed st'.
Proof.
  intros Hs Hsrc Htm. apply static_fields in Hs as (Hb&Hp&_&_&Hd&_).
  unfold well_addressed, sse_url. by rewrite <- Hsrc, <- Htm, <- Hb, <- Hp, <- Hd.
Qed.

Lemma well_addressed_core st st' :
  core st = core st' → well_addressed st → well_addressed st'.
Proof.
  intros Hc. apply core_fields in Hc as (Hs&_&_&_&Hsrc&Htm&_). by apply well_addressed_same.
Qed.

Lemma well_addressed_teardown st h : well_addressed st → well_addressed (teardown h st).
Proof.
  intros [Hsrc Htm]. split; [|exact Htm].
  intros h' s. simpl. intros Hs. destruct (decide (h' = h)) as [->|Hne].
  - rewrite list_lookup_alter_eq in Hs.
    destruct (sources (env st) !! h) as [s0|] eqn:E; [|done].
    injection Hs as <-. exact (Hsrc h s0 E).
  - rewrite list_lookup_alter_ne in Hs by done. exact (Hsrc h' s Hs).
Qed.

Lemma well_addressed_open_new st uid token :
  well_addressed st → uid ≠ EmptyString →
  truthy_str (profileToken (hc st)) = Some token →
  well_addressed (open_new (sse_url (hc st) uid token) uid st).
Proof.
  intros [Hsrc Htm] Hu Ht. split; [|exact Htm].
  intros h s. simpl. intros [Hs|[_ Hs]]%lookup_app_Some; [by apply (Hsrc h)|].
  apply list_lookup_singleton_Some in Hs as [_ <-]. simpl. split; [done|by exists token].
Qed.

Lemma well_addressed_setTimeout st h s :
  well_addressed st → sources (env st) !! h = Some s →
  well_addressed (setTimeout (es_userId s) (reconnectDelay (hc st)) st).
Proof.
  intros [Hsrc Htm] Hs. split; [exact Hsrc|].
  intros i t. simpl. intros [Ht|[_ Ht]]%lookup_app_Some; [by apply (Htm i)|].
  apply list_lookup_singleton_Some in Ht as [_ <-]. simpl.
  destruct (Hsrc h s Hs) as (Hu&token&Htok&_). split_and!; [done|done|by exists token].
Qed.

Lemma well_addressed_mark_fired st i : well_addressed st → well_addressed (mark_fired i st).
Proof.
  intros [Hsrc Htm]. split; [exact Hsrc|].
  intros j t. simpl. intros Ht. destruct (decide (j = i)) as [->|Hne].
  - rewrite list_lookup_alter_eq in Ht.
    destruct (timers (env st) !! i) as [t0|] eqn:E; [|done].
    injection Ht as <-. exact (Htm i t0 E).
  - rewrite list_lookup_alter_ne in Ht by done. exact (Htm j t Ht).
Qed.

Lemma run_well_addressed JSON_parse listener fuel ts st st' :
  well_addressed st →
  run JSON_parse listener fuel ts st = Some st' → well_addressed st'.
Proof.
  apply (run_every JSON_parse listener well_addressed); intros.
  - eapply well_addressed_core; [|eassumption]. symmetry. apply core_on.
  - eapply well_addressed_core; [|eassumption]. symmetry. apply core_off.
  - eapply well_addressed_core; [|eassumption]. symmetry. apply core_log.
  - by eapply well_addressed_same; [..|eassumption].
  - by eapply well_addressed_same; [..|eassumption].
  - by apply well_addressed_teardown.
  - by apply well_addressed_open_new.
  - by eapply well_addressed_same; [..|eassumption].
  - by eapply well_addressed_same; [..|eassumption].
  - by eapply well_addressed_setTimeout.
  - by apply well_addressed_mark_fired.
Qed.

Lemma construct_well_addressed config : well_addressed (construct config).
Proof.
  eapply well_addressed_core; [symmetry; apply core_log|].
  split; intros ? ? Hl; simpl in Hl; by rewrite lookup_nil in Hl.
Qed.

(** X2. Whatever has happened to a client since its construction, every
    transport handle it ever opened is for a non-empty user identifier and
    at [baseUrl/sse/notifications/<user>/?token=<profileToken>] for the
    configured non-empty profile token, and every reconnect it scheduled is
    for a non-empty user identifier after the configured delay. *)
Theorem reachable_well_addressed JSON_parse listener fuel ts config st :
  run JSON_parse listener fuel ts (construct config) = Some st → well_addressed st.
Proof. apply run_well_addressed, construct_well_addressed. Qed.

Lemma reachable_well_addressed_witness :
  run parse_unread silent 2 [AppConnect None; EsError 0 JNull] (construct demo_config)
  = Some demo_errored ∧
  well_addressed demo_errored.
Proof.
  split; [vm_compute; reflexivity|].
  apply (reachable_well_addressed parse_unread silent 2
           [AppConnect None; EsError 0 JNull] demo_config).
  vm_compute; reflexivity.
Defined.

(** X3. A scheduled reconnect that fires in a state the client can reach
    never fails with a configuration error: whatever the callbacks do, it
    completes normally and leaves the client holding a fresh open handle,
    one that did not exist before the timer fired, for the user of the
    timer at that user's address; and it does return when no
    [disconnected] callback calls [connectSSE]. *)
Theorem scheduled_reconnect_connects JSON_parse listener fuel ts config st i t :
  run JSON_parse listener fuel ts (construct config) = Some st →
  pending_timer i st = Some t →
  (quiet listener →
   ∀ fuel', is_Some (exec_turn JSON_parse listener (S fuel') (TimerFire i) st)) ∧
  ∀ fuel' r st',
    exec_turn JSON_parse listener fuel' (TimerFire i) st = Some (r, st') →
    r = Normal ∧
    ∃ h token,
      eventSource (hc st') = Some h ∧
      length (sources (env st)) ≤ h ∧
      sources (env st) !! h = None ∧
      truthy_str (profileToken (hc st)) = Some token ∧
      live_source h st'
      = Some {| es_url := sse_url (hc st) (tm_userId t) token;
                es_userId := tm_userId t; es_closed := false |}.
Proof.
  intros Hrun Ht.
  apply run_well_addressed in Hrun; [|apply construct_well_addressed].
  destruct Hrun as [_ Htm].
  assert (timers (env st) !! i = Some t) as Hi.
  { unfold pending_timer in Ht. destruct (timers (env st) !! i) as [t0|]; [|done].
    destruct (tm_fired t0); [done|]. by injection Ht as <-. }
  destruct (Htm i t Hi) as (Hu&_&[token Htok]).
  split.
  - intros Hq fuel'. simpl. rewrite Ht. by apply connectSSE_quiet_total.
  - intros fuel' r st'. simpl. rewrite Ht. intros H.
    apply (connectSSE_opens _ _ _ _ _ _ (tm_userId t) token) in H
      as (-> & st1 & (_&_&_&Hlen&_) & -> & _); [|by apply truthy_str_Some|done].
    split; [done|].
    assert (length (sources (env st))
            ≤ length (sources (env (log "Connecting to SSE" st1)))) as Hfresh.
    { destruct (log_fields "Connecting to SSE" st1) as (_&->&_). exact Hlen. }
    exists (length (sources (env (log "Connecting to SSE" st1)))), token.
    split_and!; [done|exact Hfresh|by apply lookup_ge_None|done|].
    apply live_source_open_new.
Qed.

Lemma scheduled_reconnect_connects_witness :
  run parse_unread silent 2 [AppConnect None; EsError 0 JNull] (construct demo_config)
  = Some demo_errored ∧
  pending_timer 0 demo_errored
  = Some {| tm_userId := "u1"; tm_delay := 10; tm_fired := false |} ∧
  ∃ st' h, exec_turn parse_unread silent 2 (TimerFire 0) demo_errored
           = Some (Normal, st') ∧
           eventSource (hc st') = Some h ∧
           length (sources (env demo_errored)) ≤ h.
Proof.
  split; [vm_compute; reflexivity|]. split; [vm_compute; reflexivity|].
  destruct (scheduled_reconnect_connects parse_unread silent 2
    [AppConnect None; EsError 0 JNull] demo_config demo_errored 0
    {| tm_userId := "u1"; tm_delay := 10; tm_fired := false |}
    ltac:(vm_compute; reflexivity) ltac:(vm_compute; reflexivity)) as [Hret H].
  destruct (Hret quiet_silent 1) as [[r st'] E].
  destruct (H 2 r st' E) as (-> & h & token & Hes & Hfresh & _).
  by exists st', h.
Defined.

(** ** The subscription registry *)

Lemma indexOf_first cb l1 l2 : cb ∉ l1 → indexOf cb (l1 ++ cb :: l2) = Some (length l1).
Proof.
  induction l1 as [|x l1 IH]; simpl; intros Hn.
  - by rewrite Nat.eqb_refl.
  - apply not_elem_of_cons in Hn as [Hx Hn].
    destruct (Nat.eqb_spec x cb) as [->|_]; [done|]. by rewrite IH.
Qed.

Lemma indexOf_absent cb l : cb ∉ l → indexOf cb l = None.
Proof.
  induction l as [|x l IH]; simpl; intros Hn; [done|].
  apply not_elem_of_cons in Hn as [Hx Hn].
  destruct (Nat.eqb_spec x cb) as [->|_]; [done|]. by rewrite IH.
Qed.

Lemma splice1_middle (l1 : list cbid) x l2 : splice1 (length l1) (l1 ++ x :: l2) = l1 ++ l2.
Proof.
  unfold splice1. rewrite take_app_length, drop_app_ge by lia.
  by replace (S (length l1) - length l1) with 1 by lia.
Qed.

Lemma hc_log msg st : hc (log msg st) = hc st.
Proof. by destruct (log_fields msg st) as [-> _]. Qed.

Lemma off_first event cb st l1 l2 :
  listeners (hc st) !! event = Some (l1 ++ cb :: l2) → cb ∉ l1 →
  listeners (hc (off event cb st)) = <[event := l1 ++ l2]> (listeners (hc st)) ∧
  invoked (env (off event cb st)) = invoked (env st).
Proof.
  intros Hl Hn. unfold off. rewrite Hl, (indexOf_first _ _ _ Hn).
  match goal with |- context [log ?m ?s] => destruct (log_fields m s) as (->&_&_&_&->) end.
  simpl. by rewrite splice1_middle.
Qed.

(** X4. [off] removes exactly one registration of the callback, the oldest
    one, and keeps every other entry of the list in place. *)
Theorem off_removes_oldest event cb st l1 l2 :
  listeners (hc st) !! event = Some (l1 ++ cb :: l2) → cb ∉ l1 →
  listeners (hc (off event cb st)) = <[event := l1 ++ l2]> (listeners (hc st)).
Proof. intros Hl Hn. by destruct (off_first event cb st l1 l2 Hl Hn). Qed.

Lemma off_removes_oldest_witness :
  listeners (hc two_subscribers) !! "notification" = Some ([] ++ 1 :: [2]) ∧
  (1 ∉ ([] : list cbid)) ∧
  listeners (hc (off "notification" 1 two_subscribers))
  = <["notification" := [] ++ [2]]> (listeners (hc two_subscribers)).
Proof.
  assert (listeners (hc two_subscribers) !! "notification" = Some ([] ++ 1 :: [2])) as H1
    by (vm_compute; reflexivity).
  assert (1 ∉ ([] : list cbid)) as H2 by apply not_elem_of_nil.
  split; [exact H1|]. split; [exact H2|].
  exact (off_removes_oldest "notification" 1 two_subscribers [] [2] H1 H2).
Defined.

(** X5. [off] for a callback that is not registered for the event, or for
    an event without a list, changes nothing at all: no list is touched
    and nothing is logged. *)
Theorem off_unregistered_noop event cb st :
  cb ∉ default [] (listeners (hc st) !! event) → off event cb st = st.
Proof.
  unfold off. destruct (listeners (hc st) !! event) as [l|]; simpl; [|done].
  intros Hn. by rewrite (indexOf_absent _ _ Hn).
Qed.

Lemma off_unregistered_noop_witness :
  (7 ∉ default [] (listeners (hc two_subscribers) !! "notification")) ∧
  off "notification" 7 two_subscribers = two_subscribers.
Proof.
  assert (7 ∉ default [] (listeners (hc two_subscribers) !! "notification")) as H.
  { replace (default [] (listeners (hc two_subscribers) !! "notification"))
      with [1; 2] by (vm_compute; reflexivity).
    intros Hin. repeat (apply elem_of_cons in Hin as [Hin|Hin]; [lia|]).
    by apply elem_of_nil in Hin. }
  split; [exact H|]. exact (off_unregistered_noop "notification" 7 two_subscribers H).
Defined.

(** X6. Subscribing a callback that was not registered for an event that
    has a list, and unsubscribing it again, restores the client: only the
    console can tell. *)
Theorem on_off_round_trip event cb st l :
  listeners (hc st) !! event = Some l → cb ∉ l →
  hc (off event cb (on event cb st)) = hc st ∧
  core (off event cb (on event cb st)) = core st.
Proof.
  intros Hl Hn. split; [|by rewrite core_off, core_on].
  unfold off, on. rewrite !hc_log. simpl. rewrite Hl. simpl.
  rewrite lookup_insert_eq.
  replace (l ++ [cb]) with (l ++ cb :: []) by done.
  rewrite (indexOf_first _ _ _ Hn), hc_log. simpl.
  rewrite splice1_middle, app_nil_r, insert_insert_eq, (insert_id _ _ _ Hl), hc_log.
  destruct st as [c w]. by destruct c.
Qed.

Lemma on_off_round_trip_witness :
  listeners (hc two_subscribers) !! "error" = Some [] ∧
  (3 ∉ ([] : list cbid)) ∧
  hc (off "error" 3 (on "error" 3 two_subscribers)) = hc two_subscribers.
Proof.
  assert (listeners (hc two_subscribers) !! "error" = Some []) as H1
    by (vm_compute; reflexivity).
  assert (3 ∉ ([] : list cbid)) as H2 by apply not_elem_of_nil.
  split; [exact H1|]. split; [exact H2|].
  exact (proj1 (on_off_round_trip "error" 3 two_subscribers [] H1 H2)).
Defined.

Lemma keys_kept_refl st : keys_kept st st.
Proof. by intros event. Qed.

Lemma keys_kept_same st0 st st' :
  listeners (hc st') = listeners (hc st) → keys_kept st0 st → keys_kept st0 st'.
Proof. unfold keys_kept. by intros ->. Qed.

Lemma keys_kept_insert st0 st st' event l :
  listeners (hc st') = <[event := l]> (listeners (hc st)) →
  keys_kept st0 st → keys_kept st0 st'.
Proof.
  unfold keys_kept. intros -> H ev Hev. destruct (decide (ev = event)) as [->|Hne].
  - by rewrite lookup_insert_eq.
  - rewrite lookup_insert_ne by done. by apply H.
Qed.

Lemma keys_kept_on st0 st event cb : keys_kept st0 st → keys_kept st0 (on event cb st).
Proof.
  apply (keys_kept_insert _ _ _ event (default [] (listeners (hc st) !! event) ++ [cb])).
  unfold on. by rewrite hc_log.
Qed.

Lemma keys_kept_off st0 st event cb : keys_kept st0 st → keys_kept st0 (off event cb st).
Proof.
  unfold off. destruct (listeners (hc st) !! event) as [l|]; [|done].
  destruct (indexOf cb l) as [index|]; [|done].
  apply (keys_kept_insert _ _ _ event (splice1 index l)). by rewrite hc_log.
Qed.

Lemma run_keys_kept JSON_parse listener fuel ts st st' :
  run JSON_parse listener fuel ts st = Some st' → keys_kept st st'.
Proof.
  apply (run_every JSON_parse listener (keys_kept st)); try apply keys_kept_refl; intros;
    try (by apply keys_kept_on); try (by apply keys_kept_off);
    (eapply keys_kept_same; [|eassumption]); try done.
  by rewrite hc_log.
Qed.

(** X7. No callback list is ever deleted: whatever has happened to a
    client since its construction, each of the five events of the
    constructor still has its list, so a publish of one of them always
    walks a list. *)
Theorem standard_events_registered JSON_parse listener fuel ts config st event :
  run JSON_parse listener fuel ts (construct config) = Some st →
  event ∈ standard_events → is_Some (listeners (hc st) !! event).
Proof.
  intros Hrun Hev. apply run_keys_kept in Hrun. apply Hrun.
  unfold construct. rewrite hc_log. simpl.
  unfold standard_events in Hev.
  repeat (apply elem_of_cons in Hev as [->|Hev]; [by eexists|]).
  by apply elem_of_nil in Hev.
Qed.

Lemma standard_events_registered_witness :
  run parse_unread one_shot 2
    [AppOn "unreadCount" 1; AppOff "unreadCount" 1; AppConnect None; AppDisconnect]
    (construct demo_config)
  = Some (default (construct demo_config)
      (run parse_unread one_shot 2
         [AppOn "unreadCount" 1; AppOff "unreadCount" 1; AppConnect None; AppDisconnect]
         (construct demo_config))) ∧
  "unreadCount" ∈ standard_events ∧
  is_Some (listeners (hc (default (construct demo_config)
      (run parse_unread one_shot 2
         [AppOn "unreadCount" 1; AppOff "unreadCount" 1; AppConnect None; AppDisconnect]
         (construct demo_config)))) !! "unreadCount").
Proof.
  assert ("unreadCount" ∈ standard_events) as Hin
    by (apply (bool_decide_unpack _); vm_compute; reflexivity).
  split; [vm_compute; reflexivity|]. split; [exact Hin|].
  apply (standard_events_registered parse_unread one_shot 2
    [AppOn "unreadCount" 1; AppOff "unreadCount" 1; AppConnect None; AppDisconnect]
    demo_config); [vm_compute; reflexivity|exact Hin].
Defined.

(** ** The console *)

Lemma run_debug_off JSON_parse listener fuel ts st st' :
  debug (hc st) = false →
  run JSON_parse listener fuel ts st = Some st' →
  debug (hc st') = false ∧ console (env st') = console (env st).
Proof.
  intros Hd.
  apply (run_every JSON_parse listener
    (λ s, debug (hc s) = false ∧ console (env s) = console (env st)));
    try done; try (by intros ? ? [? ?]); try (by intros ? ? ? [? ?]);
    try (by intros ? ? ? ? [? ?]).
  - intros s event cb [Hds Hc]. unfold on, log. simpl. by rewrite Hds.
  - intros s event cb [Hds Hc]. unfold off.
    destruct (listeners (hc s) !! event) as [l|]; [|done].
    destruct (indexOf cb l) as [index|]; [|done].
    unfold log. simpl. by rewrite Hds.
  - intros s msg [Hds Hc]. unfold log. by rewrite Hds.
Qed.

(** X8. With [debug] off the client never writes to the console, over any
    sequence of turns and with arbitrary callbacks. *)
Theorem silent_without_debug JSON_parse listener fuel ts st st' :
  debug (hc st) = false →
  run JSON_parse listener fuel ts st = Some st' →
  console (env st') = console (env st).
Proof. intros Hd Hrun. by destruct (run_debug_off _ _ _ _ _ _ Hd Hrun). Qed.

Lemma silent_without_debug_witness :
  debug (hc (construct demo_config)) = false ∧
  run parse_unread silent 2 [AppConnect None; EsError 0 JNull] (construct demo_config)
  = Some demo_errored ∧
  console (env demo_errored) = console (env (construct demo_config)).
Proof.
  split; [vm_compute; reflexivity|]. split; [vm_compute; reflexivity|].
  apply (silent_without_debug parse_unread silent 2 [AppConnect None; EsError 0 JNull]);
    vm_compute; reflexivity.
Defined.

(** ** Handlers with callbacks that do not call into the client *)

Lemma emit_passive listener reenter event data st :
  passive listener →
  ∃ st', emit listener reenter event data st = Some (Normal, st') ∧
         core st' = core (record_emit event data st).
Proof.
  intros Hp.
  apply (emit_total listener reenter
    (λ s, core s = core (record_emit event data st)) (λ _, False) event).
  - intros s s' Hc Hs. congruence.
  - by intros c s r s' [].
  - intros cb d s. apply Hp.
  - by intros c s [].
  - done.
Qed.

Lemma core_status st st' :
  core st = core st' →
  getStatus st = getStatus st' ∧ static (hc st) = static (hc st') ∧
  sources (env st) = sources (env st') ∧ timers (env st) = timers (env st') ∧
  emitted (env st) = emitted (env st').
Proof.
  intros Hc. apply core_fields in Hc as (Hs&He&Ha&Hi&Hsrc&Htm&Hem).
  unfold getStatus. by rewrite He, Ha, Hi.
Qed.

(** X9. A transport error, when the callbacks do not call into the client:
    the handler returns, has published [error] with the error and then
    [disconnected] with reason [error], and reports the client as not
    connected; it neither closes nor drops the failed handle, so
    [hasEventSource] stays as it was; and it schedules one reconnect for the
    handler's user after [reconnectDelay], counting it, exactly when the
    counter is below [maxReconnectAttempts]. *)
Theorem transport_error_keeps_handle listener reenter uid error st :
  passive listener →
  ∃ st', onerror listener reenter uid error st = Some (Normal, st') ∧
    emitted (env st')
    = emitted (env st) ++
      [("error", error); ("disconnected", JObj [("reason", JStr "error")])] ∧
    st_isConnected (getStatus st') = false ∧
    st_hasEventSource (getStatus st') = st_hasEventSource (getStatus st) ∧
    sources (env st') = sources (env st) ∧
    (timers (env st'), reconnectAttempts (hc st'))
    = if (reconnectAttempts (hc st) <? maxReconnectAttempts (hc st))%Z
      then (timers (env st) ++
              [{| tm_userId := uid; tm_delay := reconnectDelay (hc st);
                  tm_fired := false |}],
            (reconnectAttempts (hc st) + 1)%Z)
      else (timers (env st), reconnectAttempts (hc st)).
Proof.
  intros Hp. unfold onerror.
  set (st0 := on_hc (set_isConnected false) (log "SSE error" st)).
  destruct (emit_passive listener reenter "error" error st0 Hp) as (st1 & -> & H1).
  simpl.
  destruct (emit_passive listener reenter "disconnected"
    (JObj [("reason", JStr "error")]) st1 Hp) as (st2 & -> & H2).
  simpl.
  apply core_fields in H1 as (Hs1&He1&Ha1&Hi1&Hsrc1&Htm1&Hem1).
  apply core_fields in H2 as (Hs2&He2&Ha2&Hi2&Hsrc2&Htm2&Hem2).
  apply static_fields in Hs1 as (_&_&_&_&Hd1&Hm1).
  apply static_fields in Hs2 as (_&_&_&_&Hd2&Hm2).
  destruct (log_fields "SSE error" st) as (Hh0&Hsrc0&Htm0&Hem0&_).
  simpl in *. rewrite Hh0 in *.
  assert (emitted (env st2) = emitted (env st) ++
    [("error", error); ("disconnected", JObj [("reason", JStr "error")])]) as Hem.
  { rewrite Hem2, Hem1, Hem0, <- app_assoc. done. }
  assert (sources (env st2) = sources (env st)) as Hsrc by congruence.
  assert (timers (env st2) = timers (env st)) as Htm by congruence.
  rewrite Ha2, Ha1, Hm2, Hm1.
  destruct (_ <? _)%Z; eexists; (split; [done|]).
  - set (s3 := on_hc _ st2).
    match goal with |- context [log ?m s3] =>
      destruct (log_fields m s3) as (Hh3&Hsrc3&Htm3&Hem3&_) end.
    unfold getStatus. simpl. rewrite Hh3, Hsrc3, Htm3, Hem3. simpl.
    rewrite Hem, Hsrc, Htm, He2, He1, Hi2, Hi1, Hd2, Hd1. done.
  - destruct (log_fields "Max reconnect attempts reached" st2) as (Hh3&Hsrc3&Htm3&Hem3&_).
    unfold getStatus. rewrite Hh3, Hsrc3, Htm3, Hem3.
    rewrite Hem, Hsrc, Htm, He2, He1, Hi2, Hi1, Ha2, Ha1. done.
Qed.

Lemma passive_silent : passive silent.
Proof. intros cb event data st. constructor. Qed.

Lemma transport_error_keeps_handle_witness :
  passive silent ∧
  ∃ st', onerror silent (api silent 1) "u1" JNull demo_connected = Some (Normal, st') ∧
         st_hasEventSource (getStatus st') = true ∧
         st_isConnected (getStatus st') = false.
Proof.
  split; [exact passive_silent|].
  destruct (transport_error_keeps_handle silent (api silent 1) "u1" JNull demo_connected
    passive_silent) as (st' & E & _ & Hc & Hh & _).
  exists st'. split; [exact E|]. split; [|exact Hc].
  rewrite Hh. vm_compute; reflexivity.
Defined.

(** X10. The opening of a handle, when the callbacks do not call into the
    client: the handler returns, the client reports itself connected with
    the reconnect counter back at zero, and exactly one [connected] event
    was published, carrying the handler's user identifier. *)
Theorem open_reports_connected listener reenter uid st :
  passive listener →
  ∃ st', onopen listener reenter uid st = Some (Normal, st') ∧
    getStatus st'
    = {| st_isConnected := true; st_reconnectAttempts := 0;
         st_hasEventSource := st_hasEventSource (getStatus st) |} ∧
    emitted (env st') = emitted (env st) ++ [("connected", JObj [("userId", JStr uid)])] ∧
    sources (env st') = sources (env st) ∧ timers (env st') = timers (env st).
Proof.
  intros Hp. unfold onopen.
  destruct (emit_passive listener reenter "connected" (JObj [("userId", JStr uid)])
    (on_hc (set_reconnectAttempts 0) (on_hc (set_isConnected true)
       (log "SSE connection opened" st))) Hp) as (st1 & -> & H1).
  exists st1. split; [done|].
  apply core_status in H1 as (Hst&_&Hsrc&Htm&Hem).
  destruct (log_fields "SSE connection opened" st) as (Hh0&Hsrc0&Htm0&Hem0&_).
  rewrite Hst, Hsrc, Htm, Hem. unfold getStatus. simpl. by rewrite Hh0, Hsrc0, Htm0, Hem0.
Qed.

Lemma open_reports_connected_witness :
  passive silent ∧
  ∃ st', onopen silent (api silent 1) "u1" demo_connecting = Some (Normal, st') ∧
         getStatus st'
         = {| st_isConnected := true; st_reconnectAttempts := 0;
              st_hasEventSource := true |}.
Proof.
  split; [exact passive_silent|].
  destruct (open_reports_connected silent (api silent 1) "u1" demo_connecting
    passive_silent) as (st' & E & Hs & _).
  exists st'. split; [exact E|]. rewrite Hs. vm_compute; reflexivity.
Defined.

(** X11. A message, whatever its text, when the callbacks do not call into
    the client: the handler returns and the connection is as before, with
    the same status, handles, timers and configuration. *)
Theorem message_leaves_connection JSON_parse listener reenter text st :
  passive listener →
  ∃ st', onmessage JSON_parse listener reenter text st = Some (Normal, st') ∧
    getStatus st' = getStatus st ∧
    static (hc st') = static (hc st) ∧
    sources (env st') = sources (env st) ∧
    timers (env st') = timers (env st).
Proof.
  intros Hp. unfold onmessage.
  assert (∀ msg s, getStatus (log msg s) = getStatus s ∧
    static (hc (log msg s)) = static (hc s) ∧
    sources (env (log msg s)) = sources (env s) ∧
    timers (env (log msg s)) = timers (env s)) as Hlog.
  { intros msg s. destruct (log_fields msg s) as (Hh&Hsrc&Htm&_).
    unfold getStatus. by rewrite Hh, Hsrc, Htm. }
  assert (∀ event data,
    ∃ st', tryCatch (emit listener reenter event data (log "SSE message received" st))
             (λ _ st', Some (Normal, log "Error parsing SSE message" st'))
           = Some (Normal, st') ∧
      getStatus st' = getStatus st ∧ static (hc st') = static (hc st) ∧
      sources (env st') = sources (env st) ∧ timers (env st') = timers (env st)) as Hemit.
  { intros event data.
    destruct (emit_passive listener reenter event data
      (log "SSE message received" st) Hp) as (st1 & -> & H1).
    exists st1. split; [done|].
    apply core_status in H1 as (Hst&Hs&Hsrc&Htm&_).
    destruct (Hlog "SSE message received" st) as (Hst0&Hs0&Hsrc0&Htm0).
    rewrite Hst, Hs, Hsrc, Htm. done. }
  destruct (JSON_parse text) as [data|]; simpl; [|by eexists].
  destruct (get_prop data "type") as [ty|]; simpl.
  - repeat (case_match; [by apply Hemit|]).
    eexists. split; [done|]. apply Hlog.
  - eexists. split; [done|].
    destruct (Hlog "Error parsing SSE message" (log "SSE message received" st))
      as (->&->&->&->). apply Hlog.
Qed.

Lemma message_leaves_connection_witness :
  passive silent ∧
  ∃ st', onmessage parse_unread silent (api silent 1) unread_text demo_connected
         = Some (Normal, st') ∧
         getStatus st' = getStatus demo_connected.
Proof.
  split; [exact passive_silent|].
  destruct (message_leaves_connection parse_unread silent (api silent 1) unread_text
    demo_connected passive_silent) as (st' & E & Hs & _).
  by exists st'.
Defined.

(** ** Manual disconnect *)

(** X12. [disconnectSSE], when no [disconnected] callback calls
    [connectSSE]: it returns, the handle the client held is closed and
    dropped, one [disconnected] event with reason [manual] is published if
    there was a handle and nothing otherwise, the reconnect counter and the
    timers stay as they are, and calling it again changes nothing. *)
Theorem disconnect_twice listener fuel st :
  quiet listener →
  ∃ st', disconnectSSE listener (api listener (S fuel)) st = Some (Normal, st') ∧
    st_hasEventSource (getStatus st') = false ∧
    st_reconnectAttempts (getStatus st') = st_reconnectAttempts (getStatus st) ∧
    timers (env st') = timers (env st) ∧
    emitted (env st') = emitted (env st) ++ teardown_events st ∧
    (∀ h s, eventSource (hc st) = Some h → sources (env st) !! h = Some s →
            sources (env st') !! h = Some (close_obj s) ∧
            st_isConnected (getStatus st') = false) ∧
    ∀ reenter, disconnectSSE listener reenter st' = Some (Normal, st').
Proof.
  intros Hq. destruct (disconnectSSE_quiet_returns listener fuel st Hq) as [st' E].
  exists st'. split; [exact E|].
  destruct (api_disconnect_quiet listener (S (S fuel)) st Normal st' Hq E) as [_ Hc].
  apply core_fields in Hc as (_&He&Ha&Hi&Hsrc&Htm&Hem).
  destruct (after_disconnect_fields st) as [Hnone Hconn].
  destruct (after_disconnect_world st) as [_ Hev].
  unfold getStatus. simpl. rewrite He, Ha, Hi, Hsrc, Htm, Hem, Hnone, Hev.
  split_and!; [done| | |done| |].
  - unfold after_disconnect. by destruct (eventSource (hc st)).
  - unfold after_disconnect. by destruct (eventSource (hc st)).
  - intros h s Hh Hs. split; [|apply Hconn; by rewrite Hh].
    unfold after_disconnect. rewrite Hh. simpl. by rewrite list_lookup_alter_eq, Hs.
  - intros reenter. unfold disconnectSSE. by rewrite He, Hnone.
Qed.

Lemma disconnect_twice_witness :
  quiet silent ∧
  ∃ st', disconnectSSE silent (api silent 1) demo_connected = Some (Normal, st') ∧
         disconnectSSE silent (api silent 1) st' = Some (Normal, st') ∧
         emitted (env st')
         = emitted (env demo_connected) ++ [("disconnected", manual)].
Proof.
  split; [exact quiet_silent|].
  destruct (disconnect_twice silent 0 demo_connected quiet_silent)
    as (st' & E & _ & _ & _ & Hem & _ & Hagain).
  exists st'. split; [exact E|]. split; [apply Hagain|].
  rewrite Hem. vm_compute; reflexivity.
Defined.

(** ** A callback that unsubscribes itself *)

Lemma andThen_assoc r f g :
  andThen (andThen r f) g = andThen r (λ st, andThen (f st) g).
Proof. by destruct r as [[[|e] st]|]. Qed.

Lemma forEach_split listener reenter event data n1 n2 k st :
  forEach listener reenter (n1 + n2) k event data st
  = andThen (forEach listener reenter n1 k event data st)
            (forEach listener reenter n2 (k + n1) event data).
Proof.
  revert k st. induction n1 as [|n1 IH]; simpl; intros k st.
  - by rewrite Nat.add_0_r.
  - replace (k + S n1) with (S k + n1) by lia.
    destruct (default [] (listeners (hc st) !! event) !! k) as [cb|]; [|apply IH].
    rewrite andThen_assoc.
    destruct (guarded_call listener reenter cb event data st) as [[[|e] st1]|]; simpl;
      [apply IH|done|done].
Qed.

Lemma run_actions_leaves reenter event l body st :
  Forall (leaves_list event) body → listeners (hc st) !! event = Some l →
  ∃ r st', run_actions reenter body st = Some (r, st') ∧
           invoked (env st') = invoked (env st) ∧
           listeners (hc st') !! event = Some l.
Proof.
  intros Hb. revert st. induction Hb as [|a body Ha _ IH]; simpl; intros st Hl; [by eauto|].
  destruct a as [event' cb|event' cb|e|c]; simpl in *.
  - destruct (on_fields event' cb st) as [Hls Hinv].
    destruct (IH (on event' cb st)) as (r & st' & E & Hi & Hl').
    { rewrite Hls. by rewrite lookup_insert_ne. }
    exists r, st'. split; [done|]. split; [congruence|done].
  - destruct (off_other event event' cb st Ha) as [Hls Hinv].
    destruct (IH (off event' cb st)) as (r & st' & E & Hi & Hl'); [congruence|].
    exists r, st'. split; [done|]. split; [congruence|done].
  - by eauto.
  - done.
Qed.

Lemma forEach_fixed listener reenter event data l n k st :
  (∀ c d s, c ∈ take n (drop k l) → Forall (leaves_list event) (listener c event d s)) →
  listeners (hc st) !! event = Some l →
  ∃ st', forEach listener reenter n k event data st = Some (Normal, st') ∧
         invoked (env st')
         = invoked (env st) ++ map (λ c, (c, event, data)) (take n (drop k l)) ∧
         listeners (hc st') !! event = Some l.
Proof.
  revert k st. induction n as [|n IH]; simpl; intros k st Hb Hl.
  - exists st. by rewrite app_nil_r.
  - rewrite Hl. simpl. destruct (l !! k) as [cb|] eqn:Hk.
    + rewrite (drop_S _ _ _ Hk) in Hb |- *. simpl in *.
      destruct (run_actions_leaves reenter event l (listener cb event data st)
        (record_invoke cb event data st)) as (r & st1 & E & Hi & Hl1); [|done|].
      { apply Hb. apply list_elem_of_here. }
      assert (∃ st2, guarded_call listener reenter cb event data st = Some (Normal, st2) ∧
                     invoked (env st2) = invoked (env st) ++ [(cb, event, data)] ∧
                     listeners (hc st2) !! event = Some l) as (st2 & -> & Hi2 & Hl2).
      { unfold guarded_call, call_listener. rewrite E. destruct r; simpl.
        - by exists st1.
        - eexists. split; [done|].
          match goal with |- context [log ?m ?s] =>
            destruct (log_fields m s) as (->&_&_&_&->) end.
          done. }
      simpl. destruct (IH (S k) st2) as (st' & -> & Hi' & Hl'); [|done|].
      { intros c d s Hc. apply Hb. by apply list_elem_of_further. }
      exists st'. split; [done|]. split; [|done].
      rewrite Hi', Hi2, <- app_assoc. done.
    + apply lookup_ge_None in Hk. rewrite drop_ge in Hb |- * by lia.
      destruct (IH (S k) st) as (st' & -> & Hi' & Hl'); [|done|].
      { intros c d s Hc. rewrite drop_ge, take_nil in Hc by lia.
        by apply elem_of_nil in Hc. }
      exists st'. split; [done|]. split; [|done].
      rewrite Hi'. rewrite drop_ge by lia. by rewrite !take_nil.
Qed.

(** X13. A callback that unsubscribes itself while it runs makes the
    publish skip exactly the callback registered right after it: with the
    other callbacks leaving the list of the event alone, a publish on the
    list [l1 ++ cb :: l2] calls [l1], then [cb], then [l2] without its
    first entry, in that order, and leaves the list [l1 ++ l2]. *)
Theorem self_unsubscribe_skips_successor listener reenter event data cb l1 l2 st :
  listeners (hc st) !! event = Some (l1 ++ cb :: l2) →
  cb ∉ l1 → cb ∉ l2 →
  (∀ d s, listener cb event d s = [ActOff event cb]) →
  (∀ c d s, c ≠ cb → Forall (leaves_list event) (listener c event d s)) →
  ∃ st', emit listener reenter event data st = Some (Normal, st') ∧
    invoked (env st')
    = invoked (env st) ++ map (λ c, (c, event, data)) (l1 ++ cb :: drop 1 l2) ∧
    listeners (hc st') !! event = Some (l1 ++ l2).
Proof.
  intros Hl Hn1 Hn2 Hcb Hothers. unfold emit. simpl. rewrite Hl.
  rewrite length_app. simpl.
  rewrite forEach_split.
  destruct (forEach_fixed listener reenter event data (l1 ++ cb :: l2) (length l1) 0
    (record_emit event data st)) as (st1 & -> & Hi1 & Hl1); [|done|].
  { intros c d s Hc. apply Hothers. intros ->.
    by rewrite drop_0, take_app_length in Hc. }
  rewrite drop_0, take_app_length in Hi1.
  simpl. rewrite Hl1. simpl.
  rewrite list_lookup_middle by done.
  unfold guarded_call at 1, call_listener. rewrite Hcb. simpl.
  destruct (off_first event cb (record_invoke cb event data st1) l1 l2 Hl1 Hn1)
    as [Hoff Hoffi].
  set (st2 := off event cb (record_invoke cb event data st1)) in *.
  assert (listeners (hc st2) !! event = Some (l1 ++ l2)) as Hl2
    by (rewrite Hoff; apply lookup_insert_eq).
  assert (take (length l2) (drop (S (length l1)) (l1 ++ l2)) = drop 1 l2) as Hrest.
  { rewrite drop_app_ge by lia. replace (S (length l1) - length l1) with 1 by lia.
    apply take_ge. rewrite length_drop. lia. }
  destruct (forEach_fixed listener reenter event data (l1 ++ l2) (length l2)
    (S (length l1)) st2) as (st3 & E3 & Hi3 & Hl3); [|done|].
  { intros c d s Hc. rewrite Hrest in Hc. apply Hothers. intros ->.
    apply Hn2. by apply (subseteq_drop 1 l2). }
  exists st3. split_and!; [|rewrite Hi3, Hrest, Hoffi; simpl; rewrite Hi1|done].
  - by replace (0 + length l1) with (length l1) in * by lia.
  - rewrite map_app. simpl. by rewrite <- !app_assoc.
Qed.

Lemma self_unsubscribe_skips_successor_witness :
  listeners (hc two_subscribers) !! "notification" = Some ([] ++ 1 :: [2]) ∧
  ∃ st', emit one_shot (api one_shot 1) "notification" JNull two_subscribers
         = Some (Normal, st') ∧
         invoked (env st') = [(1, "notification", JNull)] ∧
         listeners (hc st') !! "notification" = Some [2].
Proof.
  assert (listeners (hc two_subscribers) !! "notification" = Some ([] ++ 1 :: [2])) as H1
    by (vm_compute; reflexivity).
  split; [exact H1|].
  destruct (self_unsubscribe_skips_successor one_shot (api one_shot 1) "notification"
    JNull 1 [] [2] two_subscribers H1) as (st' & E & Hi & Hl).
  - apply not_elem_of_nil.
  - intros Hin. apply elem_of_cons in Hin as [Hin|Hin]; [lia|by apply elem_of_nil in Hin].
  - intros d s. reflexivity.
  - intros c d s Hc. destruct c as [|[|c]]; [constructor|lia|constructor].
  - exists st'. split; [exact E|]. split; [|exact Hl].
    rewrite Hi. vm_compute; reflexivity.
Defined.

(** * The request methods *)

(** X14. [sendNotification] validates in a fixed order and sends nothing
    until everything is there: a missing [userId] is reported first, then a
    missing [title] or [body], then a missing application token, each time
    leaving the client untouched; with all four present exactly one request
    is sent, a [POST] to [baseUrl/api/notifications/send] that carries the
    application token and the three fields as given. *)
Theorem sendNotification_validation_order fetch options n :
  let uid := truthy_str (send_userId options) in
  let title := truthy_str (send_title options) in
  let body := truthy_str (send_body options) in
  let token := truthy_str (appToken (hc (client n))) in
  (uid = None →
   sendNotification fetch options n
   = (Rejected (NewError (JStr "userId is required")), n)) ∧
  (is_Some uid → title = None ∨ body = None →
   sendNotification fetch options n
   = (Rejected (NewError (JStr "title and body are required")), n)) ∧
  (is_Some uid → is_Some title → is_Some body → token = None →
   sendNotification fetch options n
   = (Rejected (NewError (JStr "appToken is required for sending notifications")), n)) ∧
  (∀ u t b k, uid = Some u → title = Some t → body = Some b → token = Some k →
   ∃ req payload,
     sent (sendNotification fetch options n).2 = sent n ++ [req] ∧
     req_url req = baseUrl (hc (client n)) +:+ "/api/notifications/send" ∧
     req_method req = Some "POST" ∧
     bearer k ∈ req_headers req ∧
     req_body req = Some payload ∧
     get_prop payload "user_id" = Some (JStr u) ∧
     get_prop payload "title" = Some (JStr t) ∧
     get_prop payload "body" = Some (JStr b)).
Proof.
  intros uid title body token. subst uid title body token. split_and!.
  - intros Hu. async_unfold. by rewrite Hu.
  - intros [u Hu] Htb. async_unfold. rewrite Hu.
    destruct Htb as [-> | ->]; [done|]. by destruct (truthy_str (send_title options)).
  - intros [u Hu] [t Ht] [b Hb] Hk. async_unfold. by rewrite Hu, Ht, Hb, Hk.
  - intros u t b k Hu Ht Hb Hk. async_unfold. rewrite Hu, Ht, Hb, Hk.
    eexists _, _. split.
    { simpl. destruct (fetch _) as [e|response]; [reflexivity|].
      destruct (negb (resp_ok response)); simpl;
        destruct (resp_json response); reflexivity || (simpl; by case_match). }
    split_and!; [reflexivity|reflexivity| |reflexivity|done|done|done].
    apply list_elem_of_further, list_elem_of_here.
Qed.

Lemma sent_unchanged (l : list Request) req : l ≠ l ++ [req].
Proof.
  intros H. apply (f_equal length) in H. rewrite length_app in H. simpl in H. lia.
Qed.

Lemma sent_one (l : list Request) req req' : l ++ [req] = l ++ [req'] → req = req'.
Proof. intros H. apply app_inv_head in H. by injection H. Qed.

(** What a call that has sent a request settles with. *)
Lemma invoke_request fetch c n r n' req :
  invoke fetch c n = (r, n') → sent n' = sent n ++ [req] →
  match fetch req with
  | NetworkError e => r = Rejected (Raised e)
  | Fetched response =>
    if resp_ok response then
      match resp_json response with
      | None => r = Rejected (Raised SyntaxError)
      | Some body =>
        match c with
        | GetUnreadCount _ =>
          match get_prop body "count" with
          | None => r = Rejected (Raised TypeError)
          | Some count => r = Fulfilled (or_val count (JNum 0))
          end
        | _ => r = Fulfilled body
        end
      end
    else if status_only c then r = Rejected (NewError (http_status response))
    else
      match resp_json response with
      | None => r = Rejected (NewError (JStr "Unknown error"))
      | Some body =>
        match get_prop body "error" with
        | None => r = Rejected (Raised TypeError)
        | Some message => r = Rejected (NewError (or_val message (http_status response)))
        end
      end
  end.
Proof.
  intros H Hs. destruct c; async_unfold.
  all: repeat match type of H with
    | (_, _) = (_, _) => injection H as <- <-; by apply sent_unchanged in Hs
    | context [match truthy_str ?x with _ => _ end] => destruct (truthy_str x) eqn:?
    | context [match or_token ?x ?y with _ => _ end] => destruct (or_token x y) eqn:?
    end.
  all: match type of H with
    | context [?f ?q] => constr_eq f fetch; destruct (fetch q) as [e|response] eqn:Hf
    end; simpl in H.
  all: try (injection H as <- <-; simpl in Hs; apply sent_one in Hs; subst req;
            by rewrite Hf).
  all: destruct (resp_ok response) eqn:Hok; simpl in H.
  all: destruct (resp_json response) as [body|] eqn:Hbody; simpl in H.
  all: repeat match type of H with
    | context [match ?x with _ => _ end] => destruct x eqn:?
    end; simpl in H.
  all: injection H as <- <-; simpl in Hs; apply sent_one in Hs; subst req.
  all: rewrite Hf, Hok; simpl.
  all: repeat match goal with
    | E : ?x = _ |- context [match ?x with _ => _ end] => rewrite E
    end; try done.
Qed.

(** A call either fails its validation, and then nothing has happened, or
    sends one request. *)
Lemma invoke_sent fetch c n r n' :
  invoke fetch c n = (r, n') →
  (n' = n ∧ ∃ message, r = Rejected (NewError (JStr message))) ∨
  ∃ token path req,
    credential c (hc (client n)) = Some token ∧
    sent n' = sent n ++ [req] ∧
    req_url req = baseUrl (hc (client n)) +:+ "/api/notifications/" +:+ path ∧
    bearer token ∈ req_headers req.
Proof.
  intros H. destruct c; invoke_cases fetch H;
    try (left; split; [done|by eexists]);
    right; eexists _, _, _; simpl;
    (split; [eassumption|]); (split; [reflexivity|]);
    (split; [simpl; reflexivity|]);
    repeat first [apply list_elem_of_here|apply list_elem_of_further].
Qed.

(** X15. Without the token it needs a call sends nothing: it is rejected
    with an error before any request, and the client is as before. The
    token of [sendNotification] is the application token alone; that of the
    other methods is the profile token or else the application token. *)
Theorem no_request_without_credential fetch c n :
  credential c (hc (client n)) = None →
  ∃ message, invoke fetch c n = (Rejected (NewError (JStr message)), n).
Proof.
  intros Hc. destruct (invoke fetch c n) as [r n'] eqn:H.
  apply invoke_sent in H as [[-> [message ->]]|(token&?&?&Ht&_)]; [by eexists|congruence].
Qed.

Lemma no_request_without_credential_witness :
  credential (SendNotification hello) (hc (client (fresh demo_config))) = None ∧
  ∃ message,
    invoke offline (SendNotification hello) (fresh demo_config)
    = (Rejected (NewError (JStr message)), fresh demo_config).
Proof.
  split; [vm_compute; reflexivity|].
  apply (no_request_without_credential offline (SendNotification hello) (fresh demo_config)).
  vm_compute; reflexivity.
Defined.

(** X16. A call sends at most one request; the request goes to an address
    under [baseUrl/api/notifications/] and carries, as a bearer token, the
    token of the call. *)
Theorem requests_carry_credential fetch c n r n' :
  invoke fetch c n = (r, n') →
  ∃ new, sent n' = sent n ++ new ∧ length new ≤ 1 ∧
    ∀ req, req ∈ new →
      ∃ token path,
        credential c (hc (client n)) = Some token ∧
        req_url req = baseUrl (hc (client n)) +:+ "/api/notifications/" +:+ path ∧
        bearer token ∈ req_headers req.
Proof.
  intros H. apply invoke_sent in H as [[-> _]|(token&path&req&Ht&Hs&Hu&Hb)].
  - exists []. rewrite app_nil_r. split_and!; [done|simpl; lia|].
    intros req Hin. by apply elem_of_nil in Hin.
  - exists [req]. split_and!; [done|simpl; lia|].
    intros req' Hin. apply list_elem_of_singleton in Hin as ->. by exists token, path.
Qed.

Lemma requests_carry_credential_witness :
  invoke offline (GetUnreadCount None) (fresh both_config)
  = (Rejected (Raised TypeError),
     {| client := construct both_config;
        sent := [{| req_url := "http://localhost:8000/api/notifications/user/u1/unread-count";
                    req_method := None;
                    req_headers := [("Authorization", "Bearer tok")];
                    req_body := None |}] |}) ∧
  ∃ new, [{| req_url := "http://localhost:8000/api/notifications/user/u1/unread-count";
             req_method := None;
             req_headers := [("Authorization", "Bearer tok")];
             req_body := None |}] = [] ++ new ∧ length new ≤ 1.
Proof.
  split; [vm_compute; reflexivity|].
  destruct (requests_carry_credential offline (GetUnreadCount None) (fresh both_config)
    _ _ ltac:(vm_compute; reflexivity)) as (new & Hs & Hl & _).
  by exists new.
Defined.

(** X17. [getUnreadCount], [markAsRead] and [markAllAsRead] report a
    response outside 200-299 by its status alone: the promise is rejected
    with [HTTP <status>] and the body of the response is not looked at. *)
Theorem failed_request_reports_status fetch c n r n' req response :
  status_only c = true →
  invoke fetch c n = (r, n') → sent n' = sent n ++ [req] →
  fetch req = Fetched response → resp_ok response = false →
  r = Rejected (NewError (http_status response)).
Proof.
  intros Hc H Hs Hf Hok. pose proof (invoke_request fetch c n r n' req H Hs) as Hr.
  by rewrite Hf, Hok, Hc in Hr.
Qed.

Lemma failed_request_reports_status_witness :
  status_only (MarkAsRead (Some "n1")) = true ∧
  resp_ok {| resp_status := 404; resp_json := Some (JObj [("error", JStr "gone")]) |} = false ∧
  (invoke (server 404 (Some (JObj [("error", JStr "gone")]))) (MarkAsRead (Some "n1"))
     (fresh both_config)).1
  = Rejected (NewError (JStr "HTTP 404")).
Proof.
  split; [vm_compute; reflexivity|]. split; [vm_compute; reflexivity|].
  destruct (invoke (server 404 (Some (JObj [("error", JStr "gone")])))
    (MarkAsRead (Some "n1")) (fresh both_config)) as [r n'] eqn:E.
  rewrite (failed_request_reports_status
    (server 404 (Some (JObj [("error", JStr "gone")]))) (MarkAsRead (Some "n1"))
    (fresh both_config) r n'
    {| req_url := "http://localhost:8000/api/notifications/n1/read";
       req_method := Some "PATCH";
       req_headers := [("Authorization", "Bearer tok")];
       req_body := None |}
    {| resp_status := 404; resp_json := Some (JObj [("error", JStr "gone")]) |}
    ltac:(vm_compute; reflexivity) E
    ltac:(vm_compute in E; injection E as _ <-; vm_compute; reflexivity)
    ltac:(vm_compute; reflexivity) ltac:(vm_compute; reflexivity)).
  vm_compute; reflexivity.
Defined.

(** X18. [sendNotification] and [getNotifications] report a response
    outside 200-299 with the server's message: the [error] property of the
    JSON body when it is truthy, [HTTP <status>] when it is not,
    [Unknown error] when the body is not JSON; a body that is [null] makes
    the property read fail with a TypeError. The promise is rejected in
    every case. *)
Theorem failed_request_reports_server_error fetch c n r n' req response :
  status_only c = false →
  invoke fetch c n = (r, n') → sent n' = sent n ++ [req] →
  fetch req = Fetched response → resp_ok response = false →
  r = Rejected
        match resp_json response with
        | None => NewError (JStr "Unknown error")
        | Some body =>
          match get_prop body "error" with
          | None => Raised TypeError
          | Some message =>
            NewError (if truthy message then message else http_status response)
          end
        end.
Proof.
  intros Hc H Hs Hf Hok. pose proof (invoke_request fetch c n r n' req H Hs) as Hr.
  rewrite Hf, Hok, Hc in Hr. destruct (resp_json response) as [body|]; [|done].
  by destruct (get_prop body "error").
Qed.

Lemma failed_request_reports_server_error_witness :
  status_only (GetNotifications no_options) = false ∧
  resp_ok {| resp_status := 502; resp_json := None |} = false ∧
  (invoke (server 502 None) (GetNotifications no_options) (fresh both_config)).1
  = Rejected (NewError (JStr "Unknown error")).
Proof.
  split; [vm_compute; reflexivity|]. split; [vm_compute; reflexivity|].
  destruct (invoke (server 502 None) (GetNotifications no_options) (fresh both_config))
    as [r n'] eqn:E.
  rewrite (failed_request_reports_server_error
    (server 502 None) (GetNotifications no_options) (fresh both_config) r n'
    {| req_url := "http://localhost:8000/api/notifications/user/u1?limit=20&offset=0";
       req_method := None;
       req_headers := [("Authorization", "Bearer tok")];
       req_body := None |}
    {| resp_status := 502; resp_json := None |}
    ltac:(vm_compute; reflexivity) E
    ltac:(vm_compute in E; injection E as _ <-; vm_compute; reflexivity)
    ltac:(vm_compute; reflexivity) ltac:(vm_compute; reflexivity)).
  vm_compute; reflexivity.
Defined.

(** X19. A response in 200-299 with a JSON body: [sendNotification],
    [getNotifications], [markAsRead] and [markAllAsRead] are fulfilled with
    the body as it is, [getUnreadCount] with its [count], or [0] when the
    count is falsy or missing. *)
Theorem successful_request_returns_body fetch c n r n' req response body :
  invoke fetch c n = (r, n') → sent n' = sent n ++ [req] →
  fetch req = Fetched response → resp_ok response = true →
  resp_json response = Some body →
  match c with
  | GetUnreadCount _ =>
    match get_prop body "count" with
    | None => r = Rejected (Raised TypeError)
    | Some count => r = Fulfilled (if truthy count then count else JNum 0)
    end
  | _ => r = Fulfilled body
  end.
Proof.
  intros H Hs Hf Hok Hb. pose proof (invoke_request fetch c n r n' req H Hs) as Hr.
  by rewrite Hf, Hok, Hb in Hr.
Qed.

Lemma successful_request_returns_body_witness :
  resp_ok {| resp_status := 200; resp_json := Some (JObj [("count", JNum 0)]) |} = true ∧
  (invoke (server 200 (Some (JObj [("count", JNum 0)]))) (MarkAllAsRead None)
     (fresh both_config)).1
  = Fulfilled (JObj [("count", JNum 0)]).
Proof.
  split; [vm_compute; reflexivity|].
  destruct (invoke (server 200 (Some (JObj [("count", JNum 0)]))) (MarkAllAsRead None)
    (fresh both_config)) as [r n'] eqn:E.
  exact (successful_request_returns_body
    (server 200 (Some (JObj [("count", JNum 0)]))) (MarkAllAsRead None)
    (fresh both_config) r n'
    {| req_url := "http://localhost:8000/api/notifications/user/u1/read-all";
       req_method := Some "PATCH";
       req_headers := [("Authorization", "Bearer tok")];
       req_body := None |}
    {| resp_status := 200; resp_json := Some (JObj [("count", JNum 0)]) |}
    (JObj [("count", JNum 0)]) E
    ltac:(vm_compute in E; injection E as _ <-; vm_compute; reflexivity)
    ltac:(vm_compute; reflexivity) ltac:(vm_compute; reflexivity)
    ltac:(vm_compute; reflexivity)).
Defined.

(** X20. Whatever the server answers, [getUnreadCount] is never fulfilled
    with a falsy value other than the number zero. *)
Theorem unread_count_zero_or_truthy fetch arg n count n' :
  getUnreadCount fetch arg n = (Fulfilled count, n') →
  truthy count = true ∨ count = JNum 0.
Proof.
  intros H. change (invoke fetch (GetUnreadCount arg) n = (Fulfilled count, n')) in H.
  pose proof H as H0. apply invoke_sent in H0 as [[_ [? ?]]|(_&_&req&_&Hs&_)]; [done|].
  pose proof (invoke_request fetch _ n _ n' req H Hs) as Hr.
  destruct (fetch req) as [e|response]; [done|].
  destruct (resp_ok response); [|done].
  destruct (resp_json response) as [body|]; [|done].
  destruct (get_prop body "count") as [v|]; [|done].
  injection Hr as ->. unfold or_val. destruct (truthy v) eqn:E; [by left|by right].
Qed.

Lemma unread_count_zero_or_truthy_witness :
  getUnreadCount (server 200 (Some (JObj [("count", JNull)]))) None (fresh both_config)
  = (Fulfilled (JNum 0),
     (getUnreadCount (server 200 (Some (JObj [("count", JNull)]))) None
        (fresh both_config)).2) ∧
  (truthy (JNum 0) = true ∨ JNum 0 = JNum 0).
Proof.
  split; [vm_compute; reflexivity|].
  apply (unread_count_zero_or_truthy (server 200 (Some (JObj [("count", JNull)]))) None
    (fresh both_config) (JNum 0)
    (getUnreadCount (server 200 (Some (JObj [("count", JNull)]))) None
        (fresh both_config)).2).
  vm_compute; reflexivity.
Defined.

(** X21. A failure of [fetch] itself is not handled: the promise of the
    call is rejected with the very exception [fetch] was rejected with. *)
Theorem network_failure_propagates fetch c n r n' req e :
  invoke fetch c n = (r, n') → sent n' = sent n ++ [req] →
  fetch req = NetworkError e →
  r = Rejected (Raised e).
Proof.
  intros H Hs Hf. pose proof (invoke_request fetch c n r n' req H Hs) as Hr.
  by rewrite Hf in Hr.
Qed.

Lemma network_failure_propagates_witness :
  (invoke offline (SendNotification hello) (fresh both_config)).1
  = Rejected (Raised TypeError).
Proof.
  destruct (invoke offline (SendNotification hello) (fresh both_config)) as [r n'] eqn:E.
  exact (network_failure_propagates offline (SendNotification hello) (fresh both_config)
    r n'
    {| req_url := "http://localhost:8000/api/notifications/send";
       req_method := Some "POST";
       req_headers := [("Content-Type", "application/json"); ("Authorization", "Bearer app")];
       req_body := Some (JObj
         [("user_id", JStr "u2"); ("title", JStr "Hi"); ("body", JStr "there");
          ("source_system", JStr "web-app"); ("priority", JStr "normal");
          ("channels", JArr [JStr "in_app"]); ("metadata", JObj [])]) |}
    TypeError E
    ltac:(vm_compute in E; injection E as _ <-; vm_compute; reflexivity)
    ltac:(vm_compute; reflexivity)).
Defined.

(** X22. The request of [getNotifications], for a [limit] and an [offset]
    that are safe integers: a [GET] without body to
    [baseUrl/api/notifications/user/<user>] for the user of the options or
    else the configured one, with [limit] and [offset] in decimal in the
    query, defaulting to 20 and 0, followed by [is_read] exactly when
    [isRead] is given. A [limit] or [offset] of zero and an [isRead] of
    [false] are sent as they are. *)
Theorem getNotifications_query fetch options n uid token :
  truthy_str (match get_userId options with
              | Some u => Some u
              | None => userId (hc (client n))
              end) = Some uid →
  or_token (profileToken (hc (client n))) (appToken (hc (client n))) = Some token →
  safe_integer (default 20%Z (get_limit options)) →
  safe_integer (default 0%Z (get_offset options)) →
  ∃ req,
    sent (getNotifications fetch options n).2 = sent n ++ [req] ∧
    req_method req = None ∧ req_body req = None ∧
    req_headers req = [bearer token] ∧
    req_url req
    = baseUrl (hc (client n)) +:+ "/api/notifications/user/" +:+ uid +:+
      "?limit=" +:+ pretty (default 20%Z (get_limit options)) +:+
      "&offset=" +:+ pretty (default 0%Z (get_offset options)) +:+
      match get_isRead options with
      | Some true => "&is_read=true"
      | Some false => "&is_read=false"
      | None => EmptyString
      end.
Proof.
  intros Hu Ht _ _. async_unfold. simpl. rewrite Hu, Ht. simpl.
  eexists. split.
  { destruct (fetch _) as [e|response]; [reflexivity|]. simpl.
    destruct (resp_ok response); simpl; destruct (resp_json response); simpl;
      repeat case_match; reflexivity. }
  simpl. split_and!; [done..|]. unfold query, number_text.
  by destruct (get_isRead options) as [[|]|].
Qed.

Lemma getNotifications_query_witness :
  safe_integer (default 20%Z (get_limit unread_page)) ∧
  safe_integer (default 0%Z (get_offset unread_page)) ∧
  ∃ req, sent (getNotifications offline unread_page (fresh both_config)).2 = [] ++ [req] ∧
         req_url req
         = "http://localhost:8000/api/notifications/user/u1?limit=0&offset=0&is_read=false".
Proof.
  assert (safe_integer (default 20%Z (get_limit unread_page))) as Hl
    by (unfold safe_integer; simpl; lia).
  assert (safe_integer (default 0%Z (get_offset unread_page))) as Ho
    by (unfold safe_integer; simpl; lia).
  split; [exact Hl|]. split; [exact Ho|].
  destruct (getNotifications_query offline unread_page (fresh both_config) "u1" "tok"
    ltac:(vm_compute; reflexivity) ltac:(vm_compute; reflexivity) Hl Ho)
    as (req & Hs & _ & _ & _ & Hurl).
  exists req. split; [exact Hs|]. rewrite Hurl. vm_compute; reflexivity.
Defined.

Lemma log_keeps msg st :
  hc (log msg st) = hc st ∧ core (log msg st) = core st ∧
  invoked (env (log msg st)) = invoked (env st) ∧
  (debug (hc st) = false → log msg st = st).
Proof. unfold log. by destruct (debug (hc st)). Qed.

(** X23. The request methods leave the connection alone: whatever the
    outcome of a call, the fields of the client, the transport handles, the
    timers and the events published are as before, no callback has been
    called, and with [debug] off nothing at all has changed. *)
Theorem requests_leave_connection fetch c n r n' :
  invoke fetch c n = (r, n') →
  hc (client n') = hc (client n) ∧
  core (client n') = core (client n) ∧
  invoked (env (client n')) = invoked (env (client n)) ∧
  (debug (hc (client n)) = false → client n' = client n).
Proof.
  intros H.
  assert (∀ m1 m2, let st := log m2 (log m1 (client n)) in
    hc st = hc (client n) ∧ core st = core (client n) ∧
    invoked (env st) = invoked (env (client n)) ∧
    (debug (hc (client n)) = false → st = client n)) as H2.
  { intros m1 m2. simpl.
    destruct (log_keeps m1 (client n)) as (Hh1&Hc1&Hi1&Hd1).
    destruct (log_keeps m2 (log m1 (client n))) as (Hh2&Hc2&Hi2&Hd2).
    rewrite Hh2, Hc2, Hi2. split_and!; [done..|].
    intros Hd. rewrite Hd2 by (by rewrite Hh1). by apply Hd1. }
  destruct c; invoke_cases fetch H; simpl;
    first [done | apply log_keeps | apply H2].
Qed.

Lemma requests_leave_connection_witness :
  debug (hc (client (fresh both_config))) = false ∧
  client (invoke (server 200 (Some JNull)) (MarkAsRead (Some "n1")) (fresh both_config)).2
  = client (fresh both_config).
Proof.
  split; [vm_compute; reflexivity|].
  destruct (invoke (server 200 (Some JNull)) (MarkAsRead (Some "n1")) (fresh both_config))
    as [r n'] eqn:E.
  destruct (requests_leave_connection _ _ _ _ _ E) as (_&_&_&Hd).
  apply Hd. vm_compute; reflexivity.
Defined.

(** X24. The request methods read four fields of the client and nothing
    else: two clients with the same [baseUrl], tokens and [userId] send the
    same request and settle alike, whatever their [timeout], their
    reconnect settings and the state of their connection. The configured
    [timeout] in particular has no effect on any request. *)
Theorem requests_ignore_connection fetch c n1 n2 :
  baseUrl (hc (client n1)) = baseUrl (hc (client n2)) →
  appToken (hc (client n1)) = appToken (hc (client n2)) →
  profileToken (hc (client n1)) = profileToken (hc (client n2)) →
  userId (hc (client n1)) = userId (hc (client n2)) →
  (invoke fetch c n1).1 = (invoke fetch c n2).1 ∧
  ∃ new, sent (invoke fetch c n1).2 = sent n1 ++ new ∧
         sent (invoke fetch c n2).2 = sent n2 ++ new.
Proof.
  intros Hb Ha Hp Hu.
  destruct c; async_unfold; simpl; rewrite ?Hb, ?Ha, ?Hp, ?Hu.
  all: repeat (match goal with
    | |- context [match truthy_str ?x with _ => _ end] => destruct (truthy_str x)
    | |- context [match or_token ?x ?y with _ => _ end] => destruct (or_token x y)
    end; simpl; rewrite ?Hb, ?Ha, ?Hp, ?Hu).
  all: try (split; [done|]; exists []; by rewrite !app_nil_r).
  all: match goal with
    | |- context [?f ?q] => constr_eq f fetch; destruct (fetch q) as [e|response]
    end; simpl.
  all: try (split; [done|]; by eexists [_]).
  all: destruct (resp_ok response); simpl;
    destruct (resp_json response) as [body|]; simpl;
    repeat match goal with
    | |- context [match get_prop ?x ?y with _ => _ end] => destruct (get_prop x y)
    end; simpl.
  all: split; [done|]; by eexists [_].
Qed.

Lemma requests_ignore_connection_witness :
  (invoke (server 200 (Some JNull)) (GetNotifications no_options) (fresh both_config)).1
  = (invoke (server 200 (Some JNull)) (GetNotifications no_options)
       (fresh impatient_config)).1.
Proof.
  apply (requests_ignore_connection (server 200 (Some JNull))
    (GetNotifications no_options) (fresh both_config) (fresh impatient_config));
    vm_compute; reflexivity.
Defined.

(** ** The constructor *)

Lemma or_str_nonempty x d : d ≠ EmptyString → or_str x d ≠ EmptyString.
Proof.
  intros Hd. unfold or_str. destruct (truthy_str x) as [s|] eqn:E; simpl; [|done].
  by apply truthy_str_nonempty in E as [_ ?].
Qed.

Lemma or_num_nonzero x d : d ≠ 0%Z → or_num x d ≠ 0%Z.
Proof.
  intros Hd. unfold or_num. destruct x as [n|]; [|done].
  by destruct (Z.eqb_spec n 0).
Qed.

Lemma truthy_str_not_empty x : truthy_str x ≠ Some EmptyString.
Proof. intros E. by apply truthy_str_nonempty in E as [_ ?]. Qed.

(** X25. No setting of a client is ever falsy: an empty string or a zero
    in the configuration is replaced by the default (or by [null], for the
    tokens and the user identifier), and nothing that happens to the client
    later changes a setting. In particular a client cannot be configured
    with a zero timeout, a zero reconnect delay or zero reconnect
    attempts. *)
Theorem settings_never_falsy JSON_parse listener fuel ts config st :
  run JSON_parse listener fuel ts (construct config) = Some st →
  baseUrl (hc st) ≠ EmptyString ∧
  appToken (hc st) ≠ Some EmptyString ∧
  profileToken (hc st) ≠ Some EmptyString ∧
  userId (hc st) ≠ Some EmptyString ∧
  timeout (hc st) ≠ 0%Z ∧
  reconnectDelay (hc st) ≠ 0%Z ∧
  maxReconnectAttempts (hc st) ≠ 0%Z.
Proof.
  intros Hrun. apply run_extends_all in Hrun as [Hs _].
  unfold construct in Hs. rewrite hc_log in Hs. unfold static in Hs. simpl in Hs.
  injection Hs as -> -> -> -> -> _ _ -> ->.
  split_and!; try apply truthy_str_not_empty; try (by apply or_str_nonempty);
    by apply or_num_nonzero.
Qed.

Lemma settings_never_falsy_witness :
  run parse_unread silent 2 [AppConnect None] (construct zero_config)
  = Some (default (construct zero_config)
      (run parse_unread silent 2 [AppConnect None] (construct zero_config))) ∧
  reconnectDelay (hc (default (construct zero_config)
      (run parse_unread silent 2 [AppConnect None] (construct zero_config)))) ≠ 0%Z.
Proof.
  split; [vm_compute; reflexivity|].
  apply (settings_never_falsy parse_unread silent 2 [AppConnect None] zero_config).
  vm_compute; reflexivity.
Defined.
